(** * ChunkCanvas FAISS API: the embedding index store

    A shallow embedding of [backend/app/faiss_server.py]: the request
    models and their validators, the helpers [_safe_db_name],
    [_resolve_create_db_path], [_load_meta], [_save_meta], [_read_index],
    and the handlers [create_index], [upsert_items], [get_info],
    [get_content] and [list_indexes], with the properties of the store
    proved about them. *)

From Stdlib Require Import ZArith NArith Ascii Decimal DecimalString DecimalZ Sorted.
From stdpp Require Import base decidable option list gmap strings.

Local Open Scope Z_scope.
Local Open Scope string_scope.
Local Open Scope list_scope.

(** ** Errors and results

    A handler either returns its response or raises.  Three ways of
    raising occur in the source: a pydantic validation failure of the
    request (FastAPI answers 422 and lists every failing field),
    [raise HTTPException(status_code=..., detail=...)], and an exception
    that no handler catches (FastAPI answers 500).  Where the source
    appends the text of a caught exception to a [detail], after a colon,
    the [detail] here ends before the colon. *)

Inductive error : Type :=
  | ValidationError (errors : list (string * string))
  | HTTPException (status_code : Z) (detail : string)
  | Uncaught (exception : string).

Inductive result (A : Type) : Type :=
  | Ok (a : A)
  | Err (e : error).

Arguments Ok {A} a.
Arguments Err {A} e.

Definition bind {A B : Type} (r : result A) (k : A -> result B) : result B :=
  match r with
  | Ok a => k a
  | Err e => Err e
  end.

Notation "x <- r ;; k" := (bind r (fun x => k))
  (at level 100, r at next level, right associativity).

Definition is_ok {A : Type} (r : result A) : bool :=
  match r with Ok _ => true | Err _ => false end.

(** ** Index names

    A Python [str] is a sequence of Unicode code points; [_safe_db_name]
    works on it character by character, so a name is a list of code
    points here. *)

Module Name.

Definition codepoint := N.
Definition str := list codepoint.

(** The code points of a literal. *)
Definition lit (s : string) : str :=
  map Ascii.N_of_ascii (String.list_ascii_of_string s).

Definition in_range (lo hi c : N) : bool := ((lo <=? c) && (c <=? hi))%N.

(** [str.strip()] without argument removes the characters for which
    [str.isspace] holds. *)
Definition isspace (c : codepoint) : bool :=
  in_range 9 13 c || in_range 28 32 c || (c =? 133)%N || (c =? 160)%N
  || (c =? 5760)%N || in_range 8192 8202 c || (c =? 8232)%N || (c =? 8233)%N
  || (c =? 8239)%N || (c =? 8287)%N || (c =? 12288)%N.

Definition is_alnum (c : codepoint) : bool :=
  in_range 97 122 c || in_range 65 90 c || in_range 48 57 c.

(** The characters of [".-_"]. *)
Definition is_sep (c : codepoint) : bool :=
  (c =? 46)%N || (c =? 45)%N || (c =? 95)%N.

(** The character class [[a-zA-Z0-9._-]]. *)
Definition allowed (c : codepoint) : bool := is_alnum c || is_sep c.

Definition dash : codepoint := 45%N.

Fixpoint lstrip (p : codepoint -> bool) (s : str) : str :=
  match s with
  | [] => []
  | c :: s' => if p c then lstrip p s' else s
  end.

Definition rstrip (p : codepoint -> bool) (s : str) : str :=
  rev (lstrip p (rev s)).

Definition strip (p : codepoint -> bool) (s : str) : str :=
  rstrip p (lstrip p s).

(** [re.sub(r"[^a-zA-Z0-9._-]+", "-", s)]: scanning from the left, every
    maximal run of characters outside the class becomes one ["-"].
    [in_run] tells that the previous character was already part of the
    run being replaced. *)
Fixpoint re_sub_from (in_run : bool) (s : str) : str :=
  match s with
  | [] => []
  | c :: s' =>
      if allowed c then c :: re_sub_from false s'
      else if in_run then re_sub_from true s'
      else dash :: re_sub_from true s'
  end.

Definition re_sub (s : str) : str := re_sub_from false s.

Definition _safe_db_name (name : str) : result str :=
  let normalized := re_sub (strip isspace name) in
  let normalized := strip is_sep normalized in
  match normalized with
  | [] => Err (HTTPException 400 "Invalid db_name")
  | _ => Ok normalized
  end.

(** The sanitization as the specification words it: the characters
    outside the class are removed, then the separators at both ends are
    stripped. *)
Definition spec_safe_db_name (name : str) : result str :=
  match strip is_sep (filter (fun c => allowed c = true) name) with
  | [] => Err (HTTPException 400 "Invalid db_name")
  | n => Ok n
  end.

(** [core] is [s] without the characters of [p] at its two ends. *)
Definition trimmed (p : codepoint -> bool) (s core : str) : Prop :=
  exists pre post,
    s = pre ++ core ++ post
    /\ Forall (fun c => p c = true) pre
    /\ Forall (fun c => p c = true) post
    /\ (forall c, head core = Some c -> p c = false)
    /\ (forall c, last core = Some c -> p c = false).

(** [t] is [s] with every maximal run of characters outside the class
    replaced by one dash. *)
Inductive runs_replaced : str -> str -> Prop :=
  | rr_nil : runs_replaced [] []
  | rr_keep c s t :
      allowed c = true -> runs_replaced s t -> runs_replaced (c :: s) (c :: t)
  | rr_run run s t :
      run <> [] ->
      Forall (fun c => allowed c = false) run ->
      (forall c, head s = Some c -> allowed c = true) ->
      runs_replaced s t ->
      runs_replaced (run ++ s) (dash :: t).

End Name.

(** ** The files of one index

    The index file [db_file] and the sidecar [_meta_path(db_file)].  A file
    is absent or present; a present file is represented by what it holds:
    the index, respectively the JSON value, that was written to it whole,
    or nothing of the kind ([Unreadable]): a file that was cut short or
    that holds something else, on which [faiss.read_index], respectively
    [path.read_text] followed by [json.loads], raises. *)

Inductive file (A : Type) : Type :=
  | Unreadable
  | Holds (a : A).

Arguments Unreadable {A}.
Arguments Holds {A} a.

(** How a write to a file ends.  Both [faiss.write_index] and
    [Path.write_text] open the destination itself for writing, which
    empties it, and then write into it.  The write completes, or raises
    before the destination is opened (the directory cannot be made, the
    file cannot be opened), or raises once it is open (the device is full
    or fails): then the file holds a truncated text.  [Path.write_text]
    closes the file inside a [with] block, so that a failure to flush
    the last of the text raises as well. *)
Inductive write_outcome : Type :=
  | Written
  | RaisesBeforeOpen
  | RaisesAfterOpen.

(** [faiss.write_index] writes through a C [FILE], which the destructor
    of its writer closes; a failing [fclose], with buffered data that the
    device does not take, is printed on the error stream and not raised.
    So the call ends as a write does, or it returns although the file was
    cut short. *)
Inductive index_write_outcome : Type :=
  | Ends (w : write_outcome)
  | CutAtClose.

Coercion Ends : write_outcome >-> index_write_outcome.

Record io : Type := {
  index_write : index_write_outcome;
  meta_write : write_outcome
}.

(** The file after a write, and whether the call returned. *)
Definition write_file {A : Type} (w : write_outcome) (new : A)
    (old : option (file A)) : option (file A) * bool :=
  match w with
  | Written => (Some (Holds new), true)
  | RaisesBeforeOpen => (old, false)
  | RaisesAfterOpen => (Some Unreadable, false)
  end.

Definition write_index {A : Type} (w : index_write_outcome) (new : A)
    (old : option (file A)) : option (file A) * bool :=
  match w with
  | Ends w => write_file w new old
  | CutAtClose => (Some Unreadable, true)
  end.

(** ** NumPy arrays *)

Record ndarray (A : Type) : Type := {
  shape : list nat;
  rows : list (list A)
}.

Arguments shape {A} _.
Arguments rows {A} _.

(** ** What the interpreter, NumPy and FAISS supply

    [str(n)] of an integer is its decimal numeral. *)

Definition py_str (n : Z) : string := NilZero.string_of_int (Z.to_int n).

(** The range of [numpy.int64], the type of the ids of an index. *)
Definition int64_min : Z := - 2 ^ 63.
Definition int64_max : Z := 2 ^ 63 - 1.

Definition fits_int64 (n : Z) : bool :=
  (int64_min <=? n)%Z && (n <=? int64_max)%Z.

(** Floating-point values and the arithmetic on them are not part of the
    store's logic: the components of a vector are carried around, never
    inspected.  [py_int] is [int(key)] on a string ([None] when it
    raises); it reads back the numeral that [str] prints for a 64-bit
    integer.

    [_normalize_db_path] gives the text of the path that the source
    function of that name returns, which depends on the host's users and
    working directory, or the exception it raises: [expanduser] raises
    [RuntimeError] when the home directory of [~user] is not known,
    [resolve] raises [ValueError] on a null character, and [with_suffix]
    raises [ValueError] on a path without a name, such as [/].  None of
    them is an [HTTPException].  A path that is returned has the suffix
    [.faiss], its own or the one that [with_suffix] gave it. *)

Class Platform : Type := {
  float : Type;
  float32 : Type;
  to_float32 : float -> float32;
  of_float32 : float32 -> float;
  normalize_L2 : list float32 -> list float32;
  py_int : string -> option Z;
  py_int_str : forall n : Z, fits_int64 n = true -> py_int (py_str n) = Some n;
  _normalize_db_path : string -> result string;
  _normalize_db_path_raises :
    forall db_path e,
      _normalize_db_path db_path = Err e -> exists exception, e = Uncaught exception;
  _normalize_db_path_suffix :
    forall db_path text,
      _normalize_db_path db_path = Ok text -> exists stem, text = stem +:+ ".faiss"
}.

Section Store.

Context `{Platform}.

(** ** JSON values and dictionaries

    A [dict] keeps its keys in insertion order; assigning to a key that is
    present keeps the key's position. *)

#[warnings="-register-all"]
Inductive json : Type :=
  | JNull
  | JBool (b : bool)
  | JInt (n : Z)
  | JFloat (x : float)
  | JStr (s : string)
  | JList (l : list json)
  | JDict (d : list (string * json)).

Definition dict := list (string * json).

Fixpoint dict_get (k : string) (d : dict) : option json :=
  match d with
  | [] => None
  | (k', v) :: d' => if String.eqb k k' then Some v else dict_get k d'
  end.

Fixpoint dict_set (k : string) (v : json) (d : dict) : dict :=
  match d with
  | [] => [(k, v)]
  | (k', v') :: d' =>
      if String.eqb k k' then (k, v) :: d' else (k', v') :: dict_set k v d'
  end.

Definition dict_keys (d : dict) : list string := map fst d.

(** ** The FAISS index

    [faiss.IndexIDMap2]: the vectors given to it in the order they were
    added, each with the id it was added under, over an index that
    stores them.

    Of the index underneath the map meets two things: whether it takes
    [remove_ids] and [add] (an [IndexIDMap], an index that needs training
    or one without removal raises [RuntimeError]), and what it
    reconstructs of a row it was given, which is the row itself under
    [faiss.IndexFlat], an approximation under a compressing index, and
    [None] where [reconstruct] raises. *)

Inductive MetricType : Type := METRIC_L2 | METRIC_INNER_PRODUCT.

Record base_index : Type := {
  base_updates : bool;
  base_reconstruct : list float32 -> option (list float32)
}.

Definition IndexFlat : base_index :=
  {| base_updates := true; base_reconstruct := Some |}.

Record IndexIDMap2 : Type := {
  index_d : nat;
  index_metric_type : MetricType;
  index_base : base_index;
  index_entries : list (Z * list float32)
}.

Definition ntotal (index : IndexIDMap2) : nat := length (index_entries index).

Definition index_ids (index : IndexIDMap2) : list Z :=
  map fst (index_entries index).

(** [index.remove_ids(IDSelectorArray(ids))]: every entry whose id is in
    [ids] goes, the others keep their order. *)
Definition remove_ids (ids : list Z) (index : IndexIDMap2) : IndexIDMap2 :=
  {| index_d := index_d index;
     index_metric_type := index_metric_type index;
     index_base := index_base index;
     index_entries :=
       filter (fun e => fst e ∉ ids) (index_entries index) |}.

(** [index.add_with_ids(vectors, ids)]: row [i] is appended under
    [ids[i]]. *)
Definition add_with_ids (vectors : list (list float32)) (ids : list Z)
    (index : IndexIDMap2) : IndexIDMap2 :=
  {| index_d := index_d index;
     index_metric_type := index_metric_type index;
     index_base := index_base index;
     index_entries := index_entries index ++ zip ids vectors |}.

(** [index.reconstruct(id)]: what the index underneath reconstructs of
    the entry added last under [id]; [None] when it raises, as it does
    for an [id] that is no 64-bit integer or that no entry has. *)
Definition reconstruct (id : Z) (index : IndexIDMap2) : option (list float32) :=
  if fits_int64 id
  then
    match last (filter (fun e => fst e = id) (index_entries index)) with
    | Some e => base_reconstruct (index_base index) (snd e)
    | None => None
    end
  else None.

Inductive MetricName : Type := cosine | l2 | ip.

Definition metric_name (m : MetricName) : string :=
  match m with cosine => "cosine" | l2 => "l2" | ip => "ip" end.

Definition _metric_type (metric : MetricName) : MetricType :=
  match metric with
  | l2 => METRIC_L2
  | _ => METRIC_INNER_PRODUCT
  end.

Definition _new_index (dimension : nat) (metric : MetricName) : IndexIDMap2 :=
  {| index_d := dimension;
     index_metric_type := _metric_type metric;
     index_base := IndexFlat;
     index_entries := [] |}.

(** What an index file can hold: an [IndexIDMap2], as [_new_index]
    builds and [faiss.write_index] stores it, or an index of another
    class, written by another program, with its dimension, its metric
    and the number of its vectors. *)
Inductive faiss_index : Type :=
  | IDMap2 (index : IndexIDMap2)
  | OtherIndex (d : nat) (metric_type : MetricType) (n : nat)
      (loaded : base_index).

Definition faiss_index_d (index : faiss_index) : nat :=
  match index with
  | IDMap2 index => index_d index
  | OtherIndex d _ _ _ => d
  end.

(** The two files of an index. *)
Record disk : Type := {
  db_file : option (file faiss_index);
  meta_file : option (file json)
}.

(** ** Request and response models *)

Record UpsertItem : Type := {
  item_id : Z;
  item_text : string;
  item_vector : list float;
  item_metadata : dict
}.

Record UpsertRequest : Type := {
  upsert_db_path : string;
  upsert_items_field : list UpsertItem
}.

Record UpsertResponse : Type := {
  resp_db_path : string;
  resp_upserted : nat;
  resp_total : nat;
  resp_dimension : nat;
  resp_metric : MetricName
}.

(** [UpsertRequest.validate_items], the validator of the field [items]:
    it raises [ValueError("Duplicate ids in request")] or returns the
    items. *)
Definition validate_items (items : list UpsertItem) : option (list UpsertItem) :=
  let ids := map item_id items in
  if decide (size (list_to_set ids : gset Z) ≠ length ids)
  then None
  else Some items.

(** Validation of the request body against [UpsertRequest]: pydantic
    checks every field and reports all the failures together; the
    validator of [items] runs once the list has passed [min_length=1]. *)
Definition UpsertRequest_errors (payload : UpsertRequest) : list (string * string) :=
  (if (String.length (upsert_db_path payload) <? 1)%nat
   then [("db_path", "String should have at least 1 character")]
   else [])
  ++
  (if (length (upsert_items_field payload) <? 1)%nat
   then [("items", "List should have at least 1 item")]
   else match validate_items (upsert_items_field payload) with
        | None => [("items", "Duplicate ids in request")]
        | Some _ => []
        end).

(** ** Loading *)

(** The sidecar for a file that does not exist yet. *)
Definition default_meta : dict :=
  [("records", JDict []); ("dimension", JNull); ("metric", JStr "cosine")].

Definition _load_meta (dk : disk) : result dict :=
  match meta_file dk with
  | None => Ok default_meta
  | Some Unreadable => Err (HTTPException 500 "Failed to read metadata")
  | Some (Holds (JDict data)) =>
      match dict_get "records" data with
      | Some (JDict _) => Ok data
      | _ => Ok (dict_set "records" (JDict []) data)
      end
  | Some (Holds _) => Err (HTTPException 500 "Failed to read metadata")
  end.

(** [_save_meta]: [write_text] of [json.dumps(payload)] on the sidecar.
    Nothing catches what it raises. *)
Definition _save_meta (w : write_outcome) (payload : dict) (dk : disk)
    : disk * result unit :=
  let (f, done) := write_file w (JDict payload) (meta_file dk) in
  ({| db_file := db_file dk; meta_file := f |},
   if done then Ok tt else Err (Uncaught "OSError")).

(** The largest dimension of an index that [faiss.read_index] accepts;
    it raises on a file whose index has more. *)
Definition read_index_max_d : Z := 2 ^ 20.

(** [_read_index] on an index file that exists.  An index of another
    class is wrapped; [faiss.IndexIDMap2(loaded)] takes an empty index
    only. *)
Definition _read_index (f : file faiss_index) : result IndexIDMap2 :=
  match f with
  | Unreadable => Err (HTTPException 500 "Failed to load FAISS index")
  | Holds held =>
      if (read_index_max_d <? Z.of_nat (faiss_index_d held))%Z
      then Err (HTTPException 500 "Failed to load FAISS index")
      else
        match held with
        | IDMap2 index => Ok index
        | OtherIndex d metric_type n loaded =>
            match n with
            | O => Ok {| index_d := d; index_metric_type := metric_type;
                         index_base := loaded; index_entries := [] |}
            | S _ => Err (Uncaught "RuntimeError")
            end
        end
  end.

(** [metric = meta.get("metric", "cosine")], replaced by ["cosine"] when
    it is [not in {"cosine", "l2", "ip"}]; the membership test raises
    [TypeError] on a list or a dict, which cannot be hashed. *)
Definition meta_metric (meta : dict) : result MetricName :=
  match dict_get "metric" meta with
  | Some (JStr s) =>
      Ok (if String.eqb s "l2" then l2
          else if String.eqb s "ip" then ip
          else cosine)
  | Some (JList _) | Some (JDict _) => Err (Uncaught "TypeError")
  | _ => Ok cosine
  end.

(** [np.array([item.vector for item in items], dtype=np.float32)]: a
    matrix when all the lists have one length; lists of different lengths
    raise [ValueError]; no list at all gives an array of shape [(0,)]. *)
Definition np_array_float32 (vectors : list (list float))
    : result (ndarray float32) :=
  match vectors with
  | [] => Ok {| shape := [0%nat]; rows := [] |}
  | v :: rest =>
      if forallb (fun w => (length w =? length v)%nat) rest
      then Ok {| shape := [length vectors; length v];
                 rows := map (map to_float32) vectors |}
      else Err (Uncaught "ValueError")
  end.

(** [np.array([item.id for item in items], dtype=np.int64)] raises
    [OverflowError] on an integer that does not fit. *)
Definition np_array_int64 (ids : list Z) : result (list Z) :=
  if forallb fits_int64 ids
  then Ok ids
  else Err (Uncaught "OverflowError").

(** ** Upsert *)

(** The test [vectors.ndim != 2 or vectors.shape[1] != dimension], with
    the [detail] of the exception it raises. *)
Definition dimension_mismatch (dimension : nat) (vectors : ndarray float32)
    : option string :=
  match shape vectors with
  | [_; n] =>
      if (n =? dimension)%nat then None
      else Some ("Vector dimension mismatch. Expected "
                 +:+ py_str (Z.of_nat dimension) +:+ ", got "
                 +:+ py_str (Z.of_nat n) +:+ ".")
  | _ =>
      Some ("Vector dimension mismatch. Expected "
            +:+ py_str (Z.of_nat dimension) +:+ ", got invalid.")
  end.

(** [meta.get("records", {})], then used as a dict. *)
Definition meta_records (meta : dict) : result dict :=
  match dict_get "records" meta with
  | None => Ok []
  | Some (JDict records) => Ok records
  | Some _ => Err (Uncaught "TypeError")
  end.

Definition record_of (item : UpsertItem) : json :=
  JDict [("text", JStr (item_text item));
         ("metadata", JDict (item_metadata item))].

(** The loop [for item in payload.items: records[str(item.id)] = ...]. *)
Definition put_records (items : list UpsertItem) (records : dict) : dict :=
  fold_left
    (fun records item => dict_set (py_str (item_id item)) (record_of item) records)
    items records.

(** What [upsert_items] has in memory when it reaches the two writes. *)
Record staged : Type := {
  staged_index : IndexIDMap2;
  staged_meta : dict;
  staged_response : UpsertResponse
}.

(** [upsert_items] up to, and without, [faiss.write_index].  [dk] holds
    the two files of the path that [_normalize_db_path] returns. *)
Definition upsert_stage (payload : UpsertRequest) (dk : disk) : result staged :=
  let items := upsert_items_field payload in
  db_file_text <- _normalize_db_path (upsert_db_path payload) ;;
  match db_file dk with
  | None =>
      Err (HTTPException 404 "Index file not found. Create the index first.")
  | Some f =>
      index <- _read_index f ;;
      meta <- _load_meta dk ;;
      let dimension := index_d index in
      metric <- meta_metric meta ;;
      vectors <- np_array_float32 (map item_vector items) ;;
      match dimension_mismatch dimension vectors with
      | Some detail => Err (HTTPException 400 detail)
      | None =>
          ids <- np_array_int64 (map item_id items) ;;
          let vectors :=
            match metric with
            | cosine => map normalize_L2 (rows vectors)
            | _ => rows vectors
            end in
          if base_updates (index_base index) then
            let index := remove_ids ids index in
            let index := add_with_ids vectors ids index in
            records <- meta_records meta ;;
            let records := put_records items records in
            let meta := dict_set "records" (JDict records) meta in
            let meta := dict_set "dimension" (JInt (Z.of_nat dimension)) meta in
            let meta := dict_set "metric" (JStr (metric_name metric)) meta in
            Ok {| staged_index := index;
                  staged_meta := meta;
                  staged_response :=
                    {| resp_db_path := db_file_text;
                       resp_upserted := length items;
                       resp_total := ntotal index;
                       resp_dimension := dimension;
                       resp_metric := metric |} |}
          else Err (Uncaught "RuntimeError")
      end
  end.

(** The handler [upsert_items]: the files before, the files after and
    what the call returns or raises. *)
Definition upsert_items (env : io) (payload : UpsertRequest) (dk : disk)
    : disk * result UpsertResponse :=
  match upsert_stage payload dk with
  | Err e => (dk, Err e)
  | Ok st =>
      let (f, done) :=
        write_index (index_write env) (IDMap2 (staged_index st)) (db_file dk) in
      let dk := {| db_file := f; meta_file := meta_file dk |} in
      if done then
        let (dk, saved) := _save_meta (meta_write env) (staged_meta st) dk in
        (dk, _ <- saved ;; Ok (staged_response st))
      else (dk, Err (HTTPException 500 "Failed to save index"))
  end.

(** [POST /faiss/indexes/upsert]: the body is validated, then handled. *)
Definition post_upsert (env : io) (payload : UpsertRequest) (dk : disk)
    : disk * result UpsertResponse :=
  match UpsertRequest_errors payload with
  | [] => upsert_items env payload dk
  | errors => (dk, Err (ValidationError errors))
  end.

(** Both writes complete. *)
Definition io_ok : io := {| index_write := Written; meta_write := Written |}.

(** ** Reading *)

Record InfoResponse : Type := {
  info_db_path : string;
  info_total : nat;
  info_metric : MetricName;
  info_dimension : nat
}.

Definition get_info (db_path : string) (dk : disk) : result InfoResponse :=
  db_file_text <- _normalize_db_path db_path ;;
  match db_file dk with
  | None => Err (HTTPException 404 "Index not found")
  | Some f =>
      index <- _read_index f ;;
      meta <- _load_meta dk ;;
      metric <- meta_metric meta ;;
      Ok {| info_db_path := db_file_text;
            info_total := ntotal index;
            info_metric := metric;
            info_dimension := index_d index |}
  end.

(** An element of [all_items] in [get_content]. *)
Record content_item : Type := {
  ci_id : Z;
  ci_text : json;
  ci_metadata : json;
  ci_embedding_preview : list float
}.

Record RecordView : Type := {
  view_id : Z;
  view_text : string;
  view_metadata : dict;
  view_embedding_preview : list float
}.

Record ContentResponse : Type := {
  content_db_path : string;
  content_total : nat;
  content_metric : MetricName;
  content_dimension : nat;
  content_items : list RecordView
}.

(** The body of the loop over [records.items()]: [None] is [continue]. *)
Definition join_record (index : IndexIDMap2) (preview_dim : nat)
    (kv : string * json) : option content_item :=
  let (key, value) := kv in
  match py_int key with
  | None => None
  | Some item_id =>
      let text :=
        match value with
        | JDict v => default (JStr "") (dict_get "text" v)
        | _ => JStr ""
        end in
      let metadata :=
        match value with
        | JDict v => default (JDict []) (dict_get "metadata" v)
        | _ => JDict []
        end in
      let embedding_preview :=
        match reconstruct item_id index with
        | Some vector => map of_float32 (take preview_dim vector)
        | None => []
        end in
      Some {| ci_id := item_id; ci_text := text; ci_metadata := metadata;
              ci_embedding_preview := embedding_preview |}
  end.

(** [all_items.sort(key=lambda item: item["id"])].  The sort of Python
    lists is stable, and the stable sorted arrangement of a list is
    unique: insertion from the right, before the first element that is
    not smaller, computes it. *)
Fixpoint insert_by_id (x : content_item) (l : list content_item)
    : list content_item :=
  match l with
  | [] => [x]
  | y :: l' =>
      if (ci_id x <=? ci_id y)%Z then x :: y :: l'
      else y :: insert_by_id x l'
  end.

Definition sort_by_id (l : list content_item) : list content_item :=
  foldr insert_by_id [] l.

(** [RecordView] built from an item: validation needs a [str] for [text]
    and a dict for [metadata]. *)
Definition record_view (item : content_item) : result RecordView :=
  match ci_text item, ci_metadata item with
  | JStr text, JDict metadata =>
      Ok {| view_id := ci_id item; view_text := text;
            view_metadata := metadata;
            view_embedding_preview := ci_embedding_preview item |}
  | _, _ => Err (Uncaught "ValidationError")
  end.

Fixpoint record_views (page : list content_item) : result (list RecordView) :=
  match page with
  | [] => Ok []
  | item :: page' =>
      v <- record_view item ;;
      vs <- record_views page' ;;
      Ok (v :: vs)
  end.

(** The slice [l[offset : offset + limit]] for [0 <= offset] and
    [0 <= limit]. *)
Definition slice {A : Type} (offset limit : Z) (l : list A) : list A :=
  take (Z.to_nat limit) (drop (Z.to_nat offset) l).

Definition get_content (db_path : string) (offset limit preview_dim : Z)
    (dk : disk) : result ContentResponse :=
  db_file_text <- _normalize_db_path db_path ;;
  match db_file dk with
  | None => Err (HTTPException 404 "Index not found")
  | Some f =>
      index <- _read_index f ;;
      meta <- _load_meta dk ;;
      records <- meta_records meta ;;
      metric <- meta_metric meta ;;
      let all_items := omap (join_record index (Z.to_nat preview_dim)) records in
      let all_items := sort_by_id all_items in
      let page := slice offset limit all_items in
      items <- record_views page ;;
      Ok {| content_db_path := db_file_text;
            content_total := ntotal index;
            content_metric := metric;
            content_dimension := index_d index;
            content_items := items |}
  end.

(** The constraints of the [Query] parameters of [get_content]. *)
Definition content_query_errors (db_path : string) (offset limit preview_dim : Z)
    : list (string * string) :=
  (if (String.length db_path <? 1)%nat
   then [("db_path", "String should have at least 1 character")] else [])
  ++ (if (offset <? 0)%Z
      then [("offset", "Input should be greater than or equal to 0")] else [])
  ++ (if (limit <? 1)%Z
      then [("limit", "Input should be greater than or equal to 1")]
      else if (500 <? limit)%Z
      then [("limit", "Input should be less than or equal to 500")] else [])
  ++ (if (preview_dim <? 1)%Z
      then [("preview_dim", "Input should be greater than or equal to 1")]
      else if (64 <? preview_dim)%Z
      then [("preview_dim", "Input should be less than or equal to 64")] else []).

(** [GET /faiss/indexes/content]. *)
Definition get_content_route (db_path : string) (offset limit preview_dim : Z)
    (dk : disk) : result ContentResponse :=
  match content_query_errors db_path offset limit preview_dim with
  | [] => get_content db_path offset limit preview_dim dk
  | errors => Err (ValidationError errors)
  end.

End Store.

(** ** Vocabulary of the properties *)

Section Vocabulary.

Context `{Platform}.

(** The rows that [upsert_items] adds for a batch under a metric. *)
Definition stored_rows (metric : MetricName) (items : list UpsertItem)
    : list (list float32) :=
  let converted := map (map to_float32) (map item_vector items) in
  match metric with
  | cosine => map normalize_L2 converted
  | _ => converted
  end.

(** What the read handlers load: the index and the records. *)
Definition stored (dk : disk) : result (IndexIDMap2 * dict) :=
  match db_file dk with
  | None => Err (HTTPException 404 "Index not found")
  | Some f =>
      index <- _read_index f ;;
      meta <- _load_meta dk ;;
      records <- meta_records meta ;;
      Ok (index, records)
  end.

Definition record_key (item : UpsertItem) : string := py_str (item_id item).

(** The index file once [faiss.write_index] has returned. *)
Definition index_file_after (w : index_write_outcome) (index : IndexIDMap2)
    : file faiss_index :=
  match w with
  | CutAtClose => Unreadable
  | Ends _ => Holds (IDMap2 index)
  end.

(** The sidecar that an upsert writes. *)
Definition staged_meta_of (metric : MetricName) (dimension : nat)
    (records meta : dict) : dict :=
  dict_set "metric" (JStr (metric_name metric))
    (dict_set "dimension" (JInt (Z.of_nat dimension))
       (dict_set "records" (JDict records) meta)).

(** The ids of the stored vectors, written as [str] writes them, are the
    keys of the stored records. *)
Definition ids_consistent (dk : disk) : Prop :=
  exists index records,
    stored dk = Ok (index, records)
    /\ (list_to_set (map py_str (index_ids index)) : gset string)
       = list_to_set (dict_keys records).

(** The view of an item whose [text] is a string and whose [metadata] is
    a dict. *)
Definition to_view (item : content_item) : RecordView :=
  {| view_id := ci_id item;
     view_text := match ci_text item with JStr s => s | _ => "" end;
     view_metadata := match ci_metadata item with JDict d => d | _ => [] end;
     view_embedding_preview := ci_embedding_preview item |}.

Definition viewable (item : content_item) : Prop :=
  record_view item = Ok (to_view item).

(** The value of a record has nothing but a string as [text] and a
    mapping as [metadata], the types that [RecordView] takes. *)
Definition well_formed_value (value : json) : Prop :=
  match value with
  | JDict v =>
      match dict_get "text" v with
      | None | Some (JStr _) => True
      | Some _ => False
      end
      /\ match dict_get "metadata" v with
         | None | Some (JDict _) => True
         | Some _ => False
         end
  | _ => True
  end.

(** A record as the data model has it: an integer id as key, and under
    it nothing but a string as [text] and a mapping as [metadata]. *)
Definition well_typed_record (kv : string * json) : Prop :=
  is_Some (py_int (fst kv)) /\ well_formed_value (snd kv).

(** The key of the record reads as an integer. *)
Definition integer_keyed (kv : string * json) : Prop := is_Some (py_int (fst kv)).

(** The record [value] has [x] under [name]; a value that is no mapping
    has nothing. *)
Definition has_field (name : string) (value : json) (x : option json) : Prop :=
  match value with
  | JDict v => dict_get name v = x
  | _ => x = None
  end.

(** [view] shows the record [kv] of the index: the id is the integer
    that the key reads as, the text and the metadata are the record's
    (empty where the record has none), and the preview holds the first
    [preview_dim] components of the vector reconstructed for the id,
    nothing when there is none. *)
Record shows (index : IndexIDMap2) (preview_dim : nat) (kv : string * json)
    (view : RecordView) : Prop := {
  shows_id : py_int (fst kv) = Some (view_id view);
  shows_text :
    has_field "text" (snd kv) (Some (JStr (view_text view)))
    \/ (has_field "text" (snd kv) None /\ view_text view = "");
  shows_metadata :
    has_field "metadata" (snd kv) (Some (JDict (view_metadata view)))
    \/ (has_field "metadata" (snd kv) None /\ view_metadata view = []);
  shows_preview :
    forall i : nat,
      view_embedding_preview view !! i
      = if decide (i < preview_dim)%nat
        then
          match reconstruct (view_id view) index with
          | Some vector => of_float32 <$> vector !! i
          | None => None
          end
        else None
}.

(** [window] is [l[offset : offset + limit]], position by position. *)
Definition is_slice {A : Type} (offset limit : nat) (l window : list A) : Prop :=
  forall i : nat,
    window !! i = if decide (i < limit)%nat then l !! (offset + i)%nat else None.

End Vocabulary.

(** ** Creating an index *)

Section Create.

Context `{Platform}.

(** [str(Path(base_dir).expanduser().resolve() / name)], which depends on
    the host like [_normalize_db_path], or the exception that [expanduser]
    or [resolve] raises.  The strings of a request are read character by
    character, each character standing for its code point. *)
Variable path_under : string -> string -> result string.

Record CreateIndexRequest : Type := {
  create_db_path : option string;
  create_base_dir : option string;
  create_db_name : option string;
  create_dimension : Z;
  create_metric : MetricName;
  create_overwrite : bool
}.

(** [s] when [s and s.strip()] is true: [s] is given and holds a
    character that is no whitespace. *)
Definition not_blank (s : option string) : option string :=
  match s with
  | None => None
  | Some s =>
      match Name.strip Name.isspace (Name.lit s) with
      | [] => None
      | _ => Some s
      end
  end.

(** [s] when [s] is true: given and not empty. *)
Definition not_empty (s : option string) : option string :=
  match s with
  | None | Some "" => None
  | Some s => Some s
  end.

(** [CreateIndexRequest.validate_location]: [true] when it returns the
    request, [false] when it raises [ValueError]. *)
Definition validate_location (payload : CreateIndexRequest) : bool :=
  match not_blank (create_db_path payload) with
  | Some _ => true
  | None =>
      match not_blank (create_base_dir payload),
            not_blank (create_db_name payload) with
      | Some _, Some _ => true
      | _, _ => false
      end
  end.

(** Validation of the request body against [CreateIndexRequest]: the
    model validator runs once the fields have passed. *)
Definition CreateIndexRequest_errors (payload : CreateIndexRequest)
    : list (string * string) :=
  if (create_dimension payload <=? 0)%Z
  then [("dimension", "Input should be greater than 0")]
  else if validate_location payload then []
  else [("", "Provide either db_path or both base_dir and db_name")].

(** The text of a name, whose characters are below 256. *)
Definition text_of (name : Name.str) : string :=
  String.string_of_list_ascii (map Ascii.ascii_of_N name).

(** [_resolve_create_db_path], up to the text of the path. *)
Definition _resolve_create_db_path (payload : CreateIndexRequest)
    : result string :=
  match not_blank (create_db_path payload) with
  | Some db_path => _normalize_db_path db_path
  | None =>
      match not_empty (create_base_dir payload),
            not_empty (create_db_name payload) with
      | Some base_dir, Some db_name =>
          safe_name <- Name._safe_db_name (Name.lit db_name) ;;
          joined <- path_under base_dir (text_of safe_name) ;;
          _normalize_db_path joined
      | _, _ => Err (HTTPException 400 "Missing base_dir/db_name")
      end
  end.

(** How the three effects of [create_index] on the file system end: the
    making of the directory, and the two writes. *)
Record create_io : Type := {
  mkdir_raises : bool;
  create_index_write : index_write_outcome;
  create_meta_write : write_outcome
}.

Definition create_io_ok : create_io :=
  {| mkdir_raises := false; create_index_write := Written;
     create_meta_write := Written |}.

(** The sidecar that [create_index] writes. *)
Definition created_meta (dimension : Z) (metric : MetricName) : dict :=
  [("dimension", JInt dimension);
   ("metric", JStr (metric_name metric));
   ("records", JDict [])].

(** The handler [create_index], on the files of the path that
    [_resolve_create_db_path] returns.  The index keeps its dimension in a
    C [int]: the requests modelled are those with a dimension below
    [2 ^ 31].  Nothing here looks at [read_index_max_d]: an index of a
    larger dimension is written, and cannot be loaded afterwards. *)
Definition create_index (env : create_io) (payload : CreateIndexRequest)
    (dk : disk) : disk * result InfoResponse :=
  match _resolve_create_db_path payload with
  | Err e => (dk, Err e)
  | Ok db_file_text =>
      match db_file dk, create_overwrite payload with
      | Some _, false => (dk, Err (HTTPException 400 "Index already exists."))
      | _, _ =>
          if mkdir_raises env then (dk, Err (Uncaught "OSError"))
          else
            let dimension := Z.to_nat (create_dimension payload) in
            let index := _new_index dimension (create_metric payload) in
            let (f, done) :=
              write_index (create_index_write env) (IDMap2 index) (db_file dk) in
            let dk := {| db_file := f; meta_file := meta_file dk |} in
            if done then
              let meta :=
                created_meta (create_dimension payload) (create_metric payload) in
              let (dk, saved) := _save_meta (create_meta_write env) meta dk in
              (dk,
               _ <- saved ;;
               Ok {| info_db_path := db_file_text;
                     info_total := 0;
                     info_metric := create_metric payload;
                     info_dimension := dimension |})
            else (dk, Err (HTTPException 500 "Failed to write index"))
      end
  end.

(** [POST /faiss/indexes/create]. *)
Definition post_create (env : create_io) (payload : CreateIndexRequest)
    (dk : disk) : disk * result InfoResponse :=
  match CreateIndexRequest_errors payload with
  | [] => create_index env payload dk
  | errors => (dk, Err (ValidationError errors))
  end.

End Create.

(** ** Listing the indexes *)

(** A path that [root.glob(pattern)] yields, as far as [list_indexes]
    looks at it: [str(path)], [path.stem], [path.is_file()] and
    [str(path.resolve())]. *)
Record globbed_path : Type := {
  path_text : string;
  path_stem : string;
  path_is_file : bool;
  path_resolved : string
}.

Record IndexEntry : Type := {
  entry_name : string;
  entry_db_path : string
}.

Record ListIndexesResponse : Type := {
  list_base_dir : string;
  list_indexes_field : list IndexEntry
}.

(** [sorted(..., key=lambda p: str(p))]: strings compare character by
    character, a proper prefix before the longer string; the sort is
    stable. *)
Fixpoint insert_by_text (x : globbed_path) (l : list globbed_path)
    : list globbed_path :=
  match l with
  | [] => [x]
  | y :: l' =>
      if String.leb (path_text x) (path_text y) then x :: y :: l'
      else y :: insert_by_text x l'
  end.

Definition sort_by_text (l : list globbed_path) : list globbed_path :=
  foldr insert_by_text [] l.

Definition index_entry (path : globbed_path) : IndexEntry :=
  {| entry_name := path_stem path; entry_db_path := path_resolved path |}.

(** The handler [list_indexes].  [root_text] is [str(root)] for the
    resolved [base_dir], [root_exists] and [root_is_dir] are what the file
    system says of it, and [glob] is [root.glob]. *)
Definition list_indexes (root_text : string) (root_exists root_is_dir : bool)
    (glob : string -> list globbed_path) (recursive : bool)
    : result ListIndexesResponse :=
  if negb root_exists || negb root_is_dir
  then Err (HTTPException 404 "base_dir not found")
  else
    let pattern := if recursive then "**/*.faiss" else "*.faiss" in
    let files := sort_by_text (glob pattern) in
    let indexes :=
      map index_entry (filter (fun path => path_is_file path = true) files) in
    Ok {| list_base_dir := root_text; list_indexes_field := indexes |}.

(** ** A host to run the definitions on

    A POSIX host without symbolic links, under CPython 3.12: the working
    directory is [/srv], and the one user is [root], at home in [/root].
    A path is taken apart into its root and its parts. *)

Module Host.

Definition part := list Ascii.ascii.

Definition cwd : list part := [String.list_ascii_of_string "srv"].
Definition home : list part := [String.list_ascii_of_string "root"].

Definition is_char (c x : Ascii.ascii) : bool := Ascii.eqb x c.

(** The text split at every [/]. *)
Fixpoint split (current : part) (text : list Ascii.ascii) : list part :=
  match text with
  | [] => [rev current]
  | c :: text' =>
      if is_char "/"%char c then rev current :: split [] text'
      else split (c :: current) text'
  end.

Fixpoint leading_slashes (text : list Ascii.ascii) : nat :=
  match text with
  | c :: text' => if is_char "/"%char c then S (leading_slashes text') else O
  | [] => O
  end.

Definition is_empty (p : part) : bool := match p with [] => true | _ => false end.

Definition is_dot (p : part) : bool :=
  match p with [c] => is_char "."%char c | _ => false end.

Definition is_dotdot (p : part) : bool :=
  match p with [c; c'] => is_char "."%char c && is_char "."%char c' | _ => false end.

(** [Path(text)]: the root, when the text starts with a slash, and the
    parts; empty parts and [.] are dropped, two leading slashes, not
    more, are kept. *)
Definition root_of (text : list Ascii.ascii) : option (list Ascii.ascii) :=
  match leading_slashes text with
  | O => None
  | 2%nat => Some (String.list_ascii_of_string "//")
  | _ => Some (String.list_ascii_of_string "/")
  end.

Definition parts_of (text : list Ascii.ascii) : list part :=
  filter (fun p => is_empty p || is_dot p = false) (split [] text).

(** [expanduser]: a relative path whose first part starts with [~]. *)
Definition expanduser (root : option (list Ascii.ascii)) (parts : list part)
    : result (option (list Ascii.ascii) * list part) :=
  match root, parts with
  | None, (c :: user) :: rest =>
      if is_char "~"%char c then
        if is_empty user || bool_decide (user = String.list_ascii_of_string "root")
        then Ok (Some (String.list_ascii_of_string "/"), home ++ rest)
        else if existsb (is_char Ascii.zero) user
        then Err (Uncaught "ValueError")
        else Err (Uncaught "RuntimeError")
      else Ok (root, parts)
  | _, _ => Ok (root, parts)
  end.

(** The parts with every [..] resolved against what precedes it. *)
Fixpoint walk (stack : list part) (parts : list part) : list part :=
  match parts with
  | [] => rev stack
  | p :: parts' =>
      if is_dotdot p then walk (tail stack) parts'
      else walk (p :: stack) parts'
  end.

(** [Path(text).expanduser().resolve()]: a relative path starts from the
    working directory, and the root of what is returned is [/]. *)
Definition resolve (text : list Ascii.ascii) : result (list Ascii.ascii * list part) :=
  expanded <- expanduser (root_of text) (parts_of text) ;;
  let (root, parts) := (expanded : option (list Ascii.ascii) * list part) in
  if existsb (existsb (is_char Ascii.zero)) parts
  then Err (Uncaught "ValueError")
  else
    Ok (String.list_ascii_of_string "/",
        match root with
        | Some _ => walk [] parts
        | None => walk (rev cwd) parts
        end).

Fixpoint join (parts : list part) : list Ascii.ascii :=
  match parts with
  | [] => []
  | [p] => p
  | p :: parts' => p ++ "/"%char :: join parts'
  end.

(** A text up to its first [.], and the text after it. *)
Fixpoint cut_at_dot (text : list Ascii.ascii) : option (list Ascii.ascii * list Ascii.ascii) :=
  match text with
  | [] => None
  | c :: text' =>
      if is_char "."%char c then Some ([], text')
      else
        match cut_at_dot text' with
        | Some (before, after) => Some (c :: before, after)
        | None => None
        end
  end.

(** [path.stem]: the name without its suffix, which starts at the last
    [.] that is neither the first nor the last character. *)
Definition stem (name : part) : part :=
  match cut_at_dot (rev name) with
  | Some (_ :: _, (_ :: _) as front) => rev front
  | _ => name
  end.

(** [_normalize_db_path]: the name keeps its stem and gets the suffix
    [.faiss], also when it has it already; a path without a name makes
    [with_suffix] raise. *)
Definition _normalize_db_path (db_path : string) : result string :=
  resolved <- resolve (String.list_ascii_of_string db_path) ;;
  let (root, parts) := (resolved : list Ascii.ascii * list part) in
  match rev parts with
  | [] => Err (Uncaught "ValueError")
  | name :: parents =>
      Ok (String.string_of_list_ascii (root ++ join (rev (stem name :: parents)))
          +:+ ".faiss")
  end.

(** [str(Path(base_dir).expanduser().resolve() / name)]: a [name] that
    starts with a slash stands for itself. *)
Definition path_under (base_dir name : string) : result string :=
  resolved <- resolve (String.list_ascii_of_string base_dir) ;;
  let (root, parts) := (resolved : list Ascii.ascii * list part) in
  let name := String.list_ascii_of_string name in
  Ok (String.string_of_list_ascii
        match root_of name with
        | Some root' => root' ++ join (parts_of name)
        | None => root ++ join (parts ++ parts_of name)
        end).

Lemma resolve_raises text e :
  resolve text = Err e -> exists exception, e = Uncaught exception.
Proof.
  unfold resolve, expanduser.
  destruct (root_of text) as [root|], (parts_of text) as [|[|c user] rest];
    simpl; repeat (case_match; simpl);
    first [discriminate | intros [= <-]; eauto].
Qed.

Lemma _normalize_db_path_raises db_path e :
  _normalize_db_path db_path = Err e -> exists exception, e = Uncaught exception.
Proof.
  unfold _normalize_db_path.
  destruct (resolve _) as [[root parts]|e'] eqn:E; simpl.
  - destruct (rev parts); [intros [= <-]; eauto | discriminate].
  - intros [= <-]. eapply resolve_raises, E.
Qed.

Lemma _normalize_db_path_suffix db_path text :
  _normalize_db_path db_path = Ok text -> exists stem, text = stem +:+ ".faiss".
Proof.
  unfold _normalize_db_path.
  destruct (resolve _) as [[root parts]|e'] eqn:E; simpl; [|discriminate].
  destruct (rev parts); [discriminate|]. intros [= <-]. eauto.
Qed.

Lemma path_under_raises base_dir name e :
  path_under base_dir name = Err e -> exists exception, e = Uncaught exception.
Proof.
  unfold path_under.
  destruct (resolve _) as [[root parts]|e'] eqn:E; simpl; [discriminate|].
  intros [= <-]. eapply resolve_raises, E.
Qed.

End Host.

(** ** A platform to run the definitions on

    Components are integers, [normalize_L2] leaves a row as it is,
    [int] reads the plain decimal numerals, and the paths are those of
    the host above. *)

Definition decimal_int (s : string) : option Z :=
  option_map Z.of_int (NilZero.int_of_string s).

Lemma decimal_int_str (n : Z) : decimal_int (py_str n) = Some n.
Proof.
  unfold decimal_int, py_str.
  rewrite NilZero.isi.
  - simpl. f_equal. apply DecimalZ.of_to.
  - destruct n; simpl; try discriminate.
    intros [= E]. apply (DecimalPos.Unsigned.to_uint_nonnil _ E).
  - destruct n; simpl; try discriminate.
    intros [= E]. apply (DecimalPos.Unsigned.to_uint_nonnil _ E).
Qed.

Definition test_platform : Platform := {|
  float := Z;
  float32 := Z;
  to_float32 := fun x => x;
  of_float32 := fun x => x;
  normalize_L2 := fun row => row;
  py_int := decimal_int;
  py_int_str := fun n _ => decimal_int_str n;
  _normalize_db_path := Host._normalize_db_path;
  _normalize_db_path_raises := Host._normalize_db_path_raises;
  _normalize_db_path_suffix := Host._normalize_db_path_suffix
|}.

(** ** The scenarios of the specification

    An index of dimension 4 and metric cosine, as [create_index] leaves
    it: the empty index of [_new_index] in the index file and
    [{"dimension": 4, "metric": "cosine", "records": {}}] in the
    sidecar. *)

Module Scenario.

#[local] Existing Instance test_platform.

Definition created : disk :=
  {| db_file := Some (Holds (IDMap2 (_new_index 4 cosine)));
     meta_file :=
       Some (Holds (JDict [("dimension", JInt 4);
                           ("metric", JStr "cosine");
                           ("records", JDict [])])) |}.

Definition item (id : Z) (text : string) (vector : list Z) : UpsertItem :=
  {| item_id := id; item_text := text; item_vector := vector;
     item_metadata := [] |}.

Definition request (items : list UpsertItem) : UpsertRequest :=
  {| upsert_db_path := "/data/idx.faiss"; upsert_items_field := items |}.

Definition one : UpsertRequest := request [item 1 "a" [1; 0; 0; 0]].

Definition three : UpsertRequest :=
  request [item 12 "l" [1; 0; 0; 0]; item (-3) "c" [0; 1; 0; 0];
           item 5 "e" [0; 0; 1; 0]].

Definition twice_seven : UpsertRequest :=
  request [item 7 "a" [1; 0; 0; 0]; item 7 "b" [0; 1; 0; 0]].

Definition short : UpsertRequest := request [item 1 "a" [1; 0; 0]].

Definition ragged : UpsertRequest :=
  request [item 1 "a" [1; 0; 0; 0]; item 2 "b" [1; 0; 0]].

Definition record (text : string) : json :=
  JDict [("text", JStr text); ("metadata", JDict [])].

Definition after_one : disk :=
  {| db_file :=
       Some (Holds (IDMap2
         {| index_d := 4; index_metric_type := METRIC_INNER_PRODUCT;
            index_base := IndexFlat;
            index_entries := [(1, [1; 0; 0; 0])] |}));
     meta_file :=
       Some (Holds (JDict [("dimension", JInt 4);
                           ("metric", JStr "cosine");
                           ("records", JDict [("1", record "a")])])) |}.

Definition one_response : UpsertResponse :=
  {| resp_db_path := "/data/idx.faiss"; resp_upserted := 1; resp_total := 1;
     resp_dimension := 4; resp_metric := cosine |}.

Definition after_three : disk :=
  {| db_file :=
       Some (Holds (IDMap2
         {| index_d := 4; index_metric_type := METRIC_INNER_PRODUCT;
            index_base := IndexFlat;
            index_entries :=
              [(12, [1; 0; 0; 0]); (-3, [0; 1; 0; 0]); (5, [0; 0; 1; 0])] |}));
     meta_file :=
       Some (Holds (JDict
         [("dimension", JInt 4);
          ("metric", JStr "cosine");
          ("records",
           JDict [("12", record "l"); ("-3", record "c"); ("5", record "e")])])) |}.

(** A sidecar whose [records] entry is a number. *)
Definition odd_sidecar : disk :=
  {| db_file := Some (Holds (IDMap2 (_new_index 4 cosine)));
     meta_file :=
       Some (Holds (JDict [("records", JInt 5); ("dimension", JInt 4)])) |}.

Definition staged_one : staged :=
  {| staged_index :=
       {| index_d := 4; index_metric_type := METRIC_INNER_PRODUCT;
          index_base := IndexFlat;
          index_entries := [(1, [1; 0; 0; 0])] |};
     staged_meta :=
       [("dimension", JInt 4); ("metric", JStr "cosine");
        ("records", JDict [("1", record "a")])];
     staged_response := one_response |}.

Definition five_again : UpsertRequest := request [item 5 "z" [1; 1; 0; 0]].

Definition three_index : IndexIDMap2 :=
  {| index_d := 4; index_metric_type := METRIC_INNER_PRODUCT;
     index_base := IndexFlat;
     index_entries :=
       [(12, [1; 0; 0; 0]); (-3, [0; 1; 0; 0]); (5, [0; 0; 1; 0])] |}.

Definition three_records : dict :=
  [("12", record "l"); ("-3", record "c"); ("5", record "e")].

Definition after_five_again : disk := fst (post_upsert io_ok five_again after_three).

(** The index write returns although the file could not be closed. *)
Definition cut : io := {| index_write := CutAtClose; meta_write := Written |}.

(** What the first scenario leaves when the index write is cut. *)
Definition cut_after_one : disk :=
  {| db_file := Some Unreadable; meta_file := meta_file after_one |}.

(** The index of the three items beside a sidecar that was edited by
    hand: one record under a key that is no number, and one whose text
    is a number. *)
Definition edited : disk :=
  {| db_file := Some (Holds (IDMap2 three_index));
     meta_file :=
       Some (Holds (JDict
         [("dimension", JInt 4);
          ("metric", JStr "cosine");
          ("records",
           JDict [("12", record "l"); ("x", record "c");
                  ("5", JDict [("text", JInt 5)])])])) |}.

Definition five_again_response : UpsertResponse :=
  {| resp_db_path := "/data/idx.faiss"; resp_upserted := 1; resp_total := 3;
     resp_dimension := 4; resp_metric := cosine |}.

End Scenario.

(** ** Further files and requests to run on *)

Module Fixtures.

#[local] Existing Instance test_platform.

Import Scenario.

(** A location where nothing has been created. *)
Definition absent : disk := {| db_file := None; meta_file := None |}.

(** [base_dir / name] on the host. *)
Definition under : string -> string -> result string := Host.path_under.

Definition by_name : CreateIndexRequest :=
  {| create_db_path := None;
     create_base_dir := Some "/data";
     create_db_name := Some "my db";
     create_dimension := 4;
     create_metric := cosine;
     create_overwrite := false |}.

Definition by_name_info : InfoResponse :=
  {| info_db_path := "/data/my-db.faiss"; info_total := 0;
     info_metric := cosine; info_dimension := 4 |}.

Definition raising_mkdir : create_io :=
  {| mkdir_raises := true; create_index_write := Written;
     create_meta_write := Written |}.

Definition view (id : Z) (text : string) (preview : list Z) : RecordView :=
  {| view_id := id; view_text := text; view_metadata := [];
     view_embedding_preview := preview |}.

(** The first page of size 2 over the three records. *)
Definition first_page : ContentResponse :=
  {| content_db_path := "/data/idx.faiss"; content_total := 3;
     content_metric := cosine; content_dimension := 4;
     content_items := [view (-3) "c" [0; 1; 0; 0]; view 5 "e" [0; 0; 1; 0]] |}.

(** What a glob finds under [/data]: two index files and a directory
    of that suffix. *)
Definition found (pattern : string) : list globbed_path :=
  if String.eqb pattern "*.faiss" then
    [ {| path_text := "/data/b.faiss"; path_stem := "b";
         path_is_file := true; path_resolved := "/data/b.faiss" |};
      {| path_text := "/data/old.faiss"; path_stem := "old";
         path_is_file := false; path_resolved := "/data/old.faiss" |};
      {| path_text := "/data/a.faiss"; path_stem := "a";
         path_is_file := true; path_resolved := "/data/a.faiss" |} ]
  else [].

Definition found_listing : ListIndexesResponse :=
  {| list_base_dir := "/data";
     list_indexes_field :=
       [ {| entry_name := "a"; entry_db_path := "/data/a.faiss" |};
         {| entry_name := "b"; entry_db_path := "/data/b.faiss" |} ] |}.

(** The three items, for the index that [by_name] creates. *)
Definition three_by_name : UpsertRequest :=
  {| upsert_db_path := "/data/my-db"; upsert_items_field := upsert_items_field three |}.

(** An index file without its sidecar. *)
Definition no_sidecar : disk :=
  {| db_file := Some (Holds (IDMap2 (_new_index 4 l2))); meta_file := None |}.

End Fixtures.

(** * Properties *)

(** ** Index names *)

Module NameFacts.
Import Name.

Lemma lstrip_split p s :
  exists pre, s = pre ++ lstrip p s
    /\ Forall (fun c => p c = true) pre
    /\ (forall c, head (lstrip p s) = Some c -> p c = false).
Proof.
  induction s as [|c s IH]; simpl.
  - exists []. repeat split; [constructor | discriminate].
  - destruct (p c) eqn:E.
    + destruct IH as (pre & E1 & F & Hh).
      exists (c :: pre). simpl. rewrite <- E1. repeat split; auto.
    + exists []. repeat split; [constructor |].
      simpl. intros ? [= <-]. exact E.
Qed.

Lemma rstrip_split p s :
  exists post, s = rstrip p s ++ post
    /\ Forall (fun c => p c = true) post
    /\ (forall c, last (rstrip p s) = Some c -> p c = false).
Proof.
  unfold rstrip.
  destruct (lstrip_split p (rev s)) as (pre & E & F & Hh).
  exists (rev pre). repeat split.
  - rewrite <- rev_app_distr, <- E. symmetry. apply rev_involutive.
  - apply Forall_forall. intros x Hx.
    rewrite Forall_forall in F. apply F.
    apply list_elem_of_In. apply list_elem_of_In in Hx.
    apply in_rev. exact Hx.
  - intros c Hc. apply Hh.
    rewrite <- Hc. rewrite <- (rev_involutive (lstrip p (rev s))) at 1.
    generalize (rev (lstrip p (rev s))). intros l.
    destruct l as [|x l] using rev_ind; [reflexivity|].
    rewrite rev_app_distr, last_snoc. reflexivity.
Qed.

Lemma strip_trimmed p s : trimmed p s (strip p s).
Proof.
  unfold strip, trimmed.
  destruct (lstrip_split p s) as (pre & E1 & F1 & H1).
  destruct (rstrip_split p (lstrip p s)) as (post & E2 & F2 & H2).
  exists pre, post. repeat split; auto.
  - rewrite <- E2. exact E1.
  - intros c Hc. apply H1.
    rewrite E2. destruct (rstrip p (lstrip p s)); [discriminate | exact Hc].
Qed.

Lemma re_sub_in_run s :
  exists run rest,
    s = run ++ rest
    /\ Forall (fun c => allowed c = false) run
    /\ (forall c, head rest = Some c -> allowed c = true)
    /\ re_sub_from true s = re_sub_from false rest.
Proof.
  induction s as [|c s IH].
  - exists [], []. repeat split; [constructor | discriminate].
  - destruct (allowed c) eqn:E.
    + exists [], (c :: s). repeat split; [constructor | |].
      * simpl. intros ? [= <-]. exact E.
      * simpl. rewrite E. reflexivity.
    + destruct IH as (run & rest & E1 & F & Hh & E2).
      exists (c :: run), rest. repeat split; auto.
      * simpl. congruence.
      * simpl. rewrite E. exact E2.
Qed.

Lemma re_sub_runs_replaced_le (n : nat) :
  forall s, (length s <= n)%nat -> runs_replaced s (re_sub s).
Proof.
  unfold re_sub.
  induction n as [|n IH]; intros s Hl.
  - destruct s; [constructor | simpl in Hl; lia].
  - destruct s as [|c s]; [constructor|].
    simpl. destruct (allowed c) eqn:E.
    + apply rr_keep; [exact E|]. apply IH. simpl in Hl. lia.
    + destruct (re_sub_in_run s) as (run & rest & E1 & F & Hh & E2).
      rewrite E2. subst s.
      change (c :: run ++ rest) with ((c :: run) ++ rest).
      apply rr_run; auto.
      apply IH. simpl in Hl. rewrite length_app in Hl. lia.
Qed.

Lemma re_sub_runs_replaced s : runs_replaced s (re_sub s).
Proof. exact (re_sub_runs_replaced_le (length s) s (le_n _)). Qed.

Lemma re_sub_skip_run run s :
  Forall (fun c => allowed c = false) run ->
  re_sub_from true (run ++ s) = re_sub_from true s.
Proof.
  induction 1 as [|c run E _ IH]; [reflexivity|].
  simpl. rewrite E. exact IH.
Qed.

Lemma re_sub_true_false s :
  (forall c, head s = Some c -> allowed c = true) ->
  re_sub_from true s = re_sub_from false s.
Proof.
  destruct s as [|c s]; [reflexivity|].
  intros Hh. simpl. rewrite (Hh c eq_refl). reflexivity.
Qed.

(** The relation determines the text: it holds of [re_sub s] only. *)
Lemma runs_replaced_unique s t : runs_replaced s t -> t = re_sub s.
Proof.
  unfold re_sub.
  induction 1 as [|c s t E _ IH|run s t Hne F Hh _ IH].
  - reflexivity.
  - simpl. rewrite E. congruence.
  - destruct run as [|c run]; [congruence|].
    inversion F as [|? ? E F']; subst.
    simpl. rewrite E.
    rewrite re_sub_skip_run by exact F'.
    rewrite re_sub_true_false by exact Hh.
    congruence.
Qed.

Lemma re_sub_allowed b s : Forall (fun c => allowed c = true) (re_sub_from b s).
Proof.
  revert b. induction s as [|c s IH]; intros b; simpl; [constructor|].
  destruct (allowed c) eqn:E; [constructor; auto|].
  destruct b; [apply IH|]. constructor; [reflexivity | apply IH].
Qed.

Lemma trimmed_Forall (q : codepoint -> Prop) p s core :
  trimmed p s core -> Forall q s -> Forall q core.
Proof.
  intros (pre & post & -> & _) F.
  apply Forall_app in F as [_ F]. apply Forall_app in F as [F _]. exact F.
Qed.

End NameFacts.

(** C5, as the source has it: surrounding whitespace is trimmed, every
    maximal run of characters other than alphanumerics, ['.'], ['_'] and
    ['-'] is replaced by one ['-'] (the characters are not removed), and
    the separators ['.'], ['-'], ['_'] at both ends are stripped.  The
    result holds characters of the class only; when it is empty the call
    raises [HTTPException(400, "Invalid db_name")], otherwise it is the
    name returned. *)
Theorem safe_db_name_sanitizes (name : Name.str) :
  exists stripped replaced normalized,
    Name.trimmed Name.isspace name stripped
    /\ Name.runs_replaced stripped replaced
    /\ Name.trimmed Name.is_sep replaced normalized
    /\ Forall (fun c => Name.allowed c = true) normalized
    /\ Name._safe_db_name name =
         match normalized with
         | [] => Err (HTTPException 400 "Invalid db_name")
         | _ => Ok normalized
         end.
Proof.
  exists (Name.strip Name.isspace name),
         (Name.re_sub (Name.strip Name.isspace name)),
         (Name.strip Name.is_sep (Name.re_sub (Name.strip Name.isspace name))).
  split; [apply NameFacts.strip_trimmed|].
  split; [apply NameFacts.re_sub_runs_replaced|].
  split; [apply NameFacts.strip_trimmed|].
  split; [|reflexivity].
  eapply NameFacts.trimmed_Forall; [apply NameFacts.strip_trimmed|].
  apply NameFacts.re_sub_allowed.
Qed.

Example safe_db_name_my_db :
  Name._safe_db_name (Name.lit "  my db!.faiss_ ") = Ok (Name.lit "my-db-.faiss").
Proof. reflexivity. Qed.

Example safe_db_name_separators_only :
  Name._safe_db_name (Name.lit " ._/-. ") = Err (HTTPException 400 "Invalid db_name").
Proof. reflexivity. Qed.

(** C5 as the specification words it (the other characters removed)
    fails on a name with a blank inside: the source returns ["a-b"], not
    ["ab"]. *)
Lemma safe_db_name_keeps_a_dash :
  Name._safe_db_name (Name.lit "a b") = Ok (Name.lit "a-b")
  /\ Name.spec_safe_db_name (Name.lit "a b") = Ok (Name.lit "ab")
  /\ Name._safe_db_name (Name.lit "a b") <> Name.spec_safe_db_name (Name.lit "a b").
Proof. repeat split. vm_compute. discriminate. Qed.

(** ** Dictionaries *)

Section DictFacts.

Context `{Platform}.

Lemma dict_get_set_eq k v (d : dict) : dict_get k (dict_set k v d) = Some v.
Proof.
  induction d as [|[k' v'] d IH]; simpl.
  - rewrite String.eqb_refl. reflexivity.
  - destruct (String.eqb k k') eqn:E; simpl.
    + rewrite String.eqb_refl. reflexivity.
    + rewrite E. exact IH.
Qed.

Lemma dict_get_set_ne k k' v (d : dict) :
  k <> k' -> dict_get k' (dict_set k v d) = dict_get k' d.
Proof.
  intros Hne. induction d as [|[k0 v0] d IH]; simpl.
  - destruct (String.eqb_spec k' k); [congruence | reflexivity].
  - destruct (String.eqb_spec k k0) as [->|Hk]; simpl.
    + destruct (String.eqb_spec k' k0); [congruence | reflexivity].
    + destruct (String.eqb_spec k' k0); [reflexivity | exact IH].
Qed.

(** Assigning to a key the value it has leaves the dictionary as it is. *)
Lemma dict_set_same k v (d : dict) :
  dict_get k d = Some v -> dict_set k v d = d.
Proof.
  induction d as [|[k' v'] d IH]; simpl; [discriminate|].
  destruct (String.eqb_spec k k') as [->|Hk].
  - intros [= ->]. reflexivity.
  - intros E. rewrite IH by exact E. reflexivity.
Qed.

Lemma elem_of_dict_keys_set k0 k v (d : dict) :
  k0 ∈ dict_keys (dict_set k v d) <-> k0 = k \/ k0 ∈ dict_keys d.
Proof.
  unfold dict_keys.
  induction d as [|[k' v'] d IH]; simpl.
  - rewrite list_elem_of_singleton, elem_of_nil. tauto.
  - destruct (String.eqb_spec k k') as [->|Hk]; simpl.
    + rewrite !elem_of_cons. tauto.
    + rewrite !elem_of_cons, IH. tauto.
Qed.

Lemma dict_keys_set k v (d : dict) :
  list_to_set (dict_keys (dict_set k v d))
  = ({[ k ]} ∪ list_to_set (dict_keys d) : gset string).
Proof.
  apply set_eq. intros k0.
  rewrite elem_of_union, !elem_of_list_to_set, elem_of_singleton.
  apply elem_of_dict_keys_set.
Qed.

End DictFacts.

(** ** Loading the sidecar *)

Section LoadFacts.

Context `{Platform}.

(** C9, as the source has it: without a sidecar the load returns the
    default (no records, no dimension, metric ["cosine"]); a sidecar that
    holds a JSON object is returned as stored, except that its [records]
    entry is replaced by an empty mapping when it is missing or is no
    mapping; a sidecar that cannot be read, does not parse, or holds
    anything but an object raises
    [HTTPException(500, "Failed to read metadata")]. *)
Theorem load_meta_cases (dk : disk) :
  match meta_file dk with
  | None =>
      _load_meta dk = Ok default_meta
      /\ dict_get "records" default_meta = Some (JDict [])
      /\ dict_get "dimension" default_meta = Some JNull
      /\ dict_get "metric" default_meta = Some (JStr "cosine")
  | Some (Holds (JDict data)) =>
      exists meta,
        _load_meta dk = Ok meta
        /\ (forall k, k <> "records" -> dict_get k meta = dict_get k data)
        /\ match dict_get "records" data with
           | Some (JDict records) => meta = data
           | _ => dict_get "records" meta = Some (JDict [])
           end
  | Some _ => _load_meta dk = Err (HTTPException 500 "Failed to read metadata")
  end.
Proof.
  unfold _load_meta.
  destruct (meta_file dk) as [[|j]|]; [reflexivity | | repeat split].
  destruct j; try reflexivity.
  assert (Hreset : exists meta,
    Ok (dict_set "records" (JDict []) d) = Ok meta
    /\ (forall k, k <> "records" -> dict_get k meta = dict_get k d)
    /\ dict_get "records" meta = Some (JDict [])).
  { eexists; split; [reflexivity|]; split.
    - intros k Hk. apply dict_get_set_ne. congruence.
    - apply dict_get_set_eq. }
  destruct (dict_get "records" d) as [r|]; [|exact Hreset].
  destruct r; try exact Hreset.
  exists d. repeat split.
Qed.

End LoadFacts.

(** ** The shape of an upsert *)

Section UpsertFacts.

Context `{Platform}.

Lemma bind_ok {A B : Type} (r : result A) (k : A -> result B) (b : B) :
  bind r k = Ok b -> exists a, r = Ok a /\ k a = Ok b.
Proof. destruct r; simpl; [eauto | discriminate]. Qed.

Lemma np_array_float32_ok vectors nd :
  np_array_float32 vectors = Ok nd ->
  rows nd = map (map to_float32) vectors
  /\ (vectors <> [] ->
      exists n, shape nd = [length vectors; n]
                /\ Forall (fun v => length v = n) vectors).
Proof.
  unfold np_array_float32. destruct vectors as [|v rest].
  - intros [= <-]. split; [reflexivity | congruence].
  - destruct (forallb _ rest) eqn:E; [|discriminate].
    intros [= <-]. split; [reflexivity|]. intros _.
    exists (length v). split; [reflexivity|].
    constructor; [reflexivity|].
    apply Forall_forall. intros w Hw.
    rewrite forallb_forall in E.
    apply list_elem_of_In in Hw. apply E in Hw.
    apply Nat.eqb_eq. exact Hw.
Qed.

Lemma np_array_int64_ok ids ids' : np_array_int64 ids = Ok ids' -> ids' = ids.
Proof.
  unfold np_array_int64. destruct (forallb _ ids); [|discriminate].
  congruence.
Qed.

(** What a stage that succeeds has read and built. *)
Lemma upsert_stage_ok payload dk st :
  upsert_stage payload dk = Ok st ->
  let items := upsert_items_field payload in
  let ids := map item_id items in
  exists db_file_text f index meta metric records,
    _normalize_db_path (upsert_db_path payload) = Ok db_file_text
    /\ db_file dk = Some f
    /\ _read_index f = Ok index
    /\ _load_meta dk = Ok meta
    /\ meta_metric meta = Ok metric
    /\ meta_records meta = Ok records
    /\ Forall (fun item => length (item_vector item) = index_d index) items
    /\ forallb fits_int64 ids = true
    /\ base_updates (index_base index) = true
    /\ staged_index st
       = add_with_ids (stored_rows metric items) ids (remove_ids ids index)
    /\ staged_meta st
       = dict_set "metric" (JStr (metric_name metric))
           (dict_set "dimension" (JInt (Z.of_nat (index_d index)))
              (dict_set "records" (JDict (put_records items records)) meta))
    /\ staged_response st
       = {| resp_db_path := db_file_text;
            resp_upserted := length items;
            resp_total := ntotal (staged_index st);
            resp_dimension := index_d index;
            resp_metric := metric |}.
Proof.
  intros Hst items ids. unfold upsert_stage in Hst.
  apply bind_ok in Hst as (db_file_text & Hpath & Hst).
  destruct (db_file dk) as [f|]; [|discriminate].
  apply bind_ok in Hst as (index & Hindex & Hst).
  apply bind_ok in Hst as (meta & Hmeta & Hst).
  apply bind_ok in Hst as (metric & Hmetric & Hst).
  apply bind_ok in Hst as (nd & Hnd & Hst).
  destruct (dimension_mismatch (index_d index) nd) eqn:Hdim; [discriminate|].
  apply bind_ok in Hst as (ids' & Hids & Hst).
  destruct (base_updates (index_base index)) eqn:Hbase; [|discriminate].
  apply bind_ok in Hst as (records & Hrecords & Hst).
  injection Hst as <-.
  pose proof (np_array_int64_ok _ _ Hids) as ->.
  destruct (np_array_float32_ok _ _ Hnd) as [Hrows Hshape].
  exists db_file_text, f, index, meta, metric, records.
  repeat split; auto.
  - subst items. destruct (upsert_items_field payload) as [|item items'];
      [constructor|].
    destruct Hshape as (n & Hsh & Hall); [discriminate|].
    unfold dimension_mismatch in Hdim. rewrite Hsh in Hdim.
    destruct (Nat.eqb_spec n (index_d index)) as [En|]; [subst n|discriminate].
    rewrite Forall_map in Hall. exact Hall.
  - unfold np_array_int64 in Hids.
    destruct (forallb fits_int64 _); [reflexivity | discriminate].
  - simpl. unfold stored_rows. rewrite Hrows. destruct metric; reflexivity.
Qed.

(** A handler that returns has written the sidecar whole and has seen
    [faiss.write_index] return: the index file holds what was staged,
    unless it was cut short at its closing. *)
Lemma upsert_items_ok env payload dk dk' resp :
  upsert_items env payload dk = (dk', Ok resp) ->
  exists st,
    upsert_stage payload dk = Ok st
    /\ (index_write env = Written \/ index_write env = CutAtClose)
    /\ dk' = {| db_file := Some (index_file_after (index_write env) (staged_index st));
                meta_file := Some (Holds (JDict (staged_meta st))) |}
    /\ resp = staged_response st.
Proof.
  unfold upsert_items, _save_meta.
  destruct (upsert_stage payload dk) as [st|e]; [|intros [= _ ?]; discriminate].
  destruct (index_write env) as [[]|]; simpl; try (intros [= _ ?]; discriminate).
  - destruct (meta_write env); simpl; try (intros [= _ ?]; discriminate).
    intros [= <- <-]. eauto 6.
  - destruct (meta_write env); simpl; try (intros [= _ ?]; discriminate).
    intros [= <- <-]. eauto 6.
Qed.

(** With both writes completing, a stage that succeeds is committed. *)
Lemma upsert_items_commits payload dk st :
  upsert_stage payload dk = Ok st ->
  upsert_items io_ok payload dk
  = ({| db_file := Some (Holds (IDMap2 (staged_index st)));
        meta_file := Some (Holds (JDict (staged_meta st))) |},
     Ok (staged_response st)).
Proof. unfold upsert_items. intros ->. reflexivity. Qed.

(** A request that gets a response passed validation. *)
Lemma post_upsert_ok env payload dk dk' resp :
  post_upsert env payload dk = (dk', Ok resp) ->
  UpsertRequest_errors payload = []
  /\ upsert_items env payload dk = (dk', Ok resp).
Proof.
  unfold post_upsert.
  destruct (UpsertRequest_errors payload); [auto | discriminate].
Qed.

End UpsertFacts.

(** ** Rejections *)

Section RejectFacts.

Context `{Platform}.

Lemma size_list_to_set_le (l : list Z) :
  (size (list_to_set l : gset Z) <= length l)%nat.
Proof.
  induction l as [|x l IH].
  - rewrite list_to_set_nil, size_empty. simpl. lia.
  - rewrite list_to_set_cons, size_union_alt, size_singleton. simpl.
    assert (size (list_to_set l ∖ {[x]} : gset Z) <= size (list_to_set l : gset Z))%nat
      by (apply subseteq_size, subseteq_difference_l; reflexivity).
    lia.
Qed.

(** [len(set(ids)) == len(ids)] says that no id occurs twice. *)
Lemma size_list_to_set_NoDup (l : list Z) :
  size (list_to_set l : gset Z) = length l <-> NoDup l.
Proof.
  split; [|apply size_list_to_set].
  induction l as [|x l IH]; [constructor|].
  rewrite list_to_set_cons. simpl length.
  intros Hs. destruct (decide (x ∈ l)) as [Hin|Hnin].
  - exfalso.
    assert (E : ({[x]} ∪ list_to_set l : gset Z) = list_to_set l)
      by (apply set_eq; intros y; rewrite elem_of_union, elem_of_singleton,
            elem_of_list_to_set; split; [intros [->|]; auto | auto]).
    rewrite E in Hs. pose proof (size_list_to_set_le l). lia.
  - constructor; [exact Hnin|]. apply IH.
    rewrite size_union in Hs.
    + rewrite size_singleton in Hs. lia.
    + intros y Hy1 Hy2. apply elem_of_singleton in Hy1 as ->.
      apply elem_of_list_to_set in Hy2. auto.
Qed.

Lemma validate_items_NoDup items :
  NoDup (map item_id items) -> validate_items items = Some items.
Proof.
  intros Hnd. unfold validate_items.
  destruct (decide _) as [Hne|]; [|reflexivity].
  exfalso. apply Hne. apply size_list_to_set_NoDup. exact Hnd.
Qed.

Lemma validate_items_dup items :
  ~ NoDup (map item_id items) -> validate_items items = None.
Proof.
  intros Hnd. unfold validate_items.
  destruct (decide _) as [|He]; [reflexivity|].
  exfalso. apply Hnd. apply size_list_to_set_NoDup.
  destruct (decide (size (list_to_set (map item_id items) : gset Z)
                    = length (map item_id items))); [assumption | contradiction].
Qed.

(** A request that passed validation has pairwise distinct ids. *)
Lemma UpsertRequest_errors_nil payload :
  UpsertRequest_errors payload = [] ->
  NoDup (map item_id (upsert_items_field payload)).
Proof.
  unfold UpsertRequest_errors. intros E.
  apply app_eq_nil in E as [_ E].
  destruct (length (upsert_items_field payload) <? 1)%nat; [discriminate|].
  destruct (decide (NoDup (map item_id (upsert_items_field payload))))
    as [|Hd]; [assumption|].
  rewrite (validate_items_dup _ Hd) in E. discriminate.
Qed.

(** C4: a batch in which an id occurs twice is refused by the validator
    of [items] with ["Duplicate ids in request"]; the handler is not
    entered and the two files stay as they are.  A batch of pairwise
    distinct ids passes the validator. *)
Theorem duplicate_ids_rejected (env : io) (payload : UpsertRequest) (dk : disk) :
  let items := upsert_items_field payload in
  (NoDup (map item_id items) -> validate_items items = Some items)
  /\ (~ NoDup (map item_id items) ->
      validate_items items = None
      /\ exists errors,
           post_upsert env payload dk = (dk, Err (ValidationError errors))
           /\ ("items", "Duplicate ids in request") ∈ errors).
Proof.
  intros items. split; [apply validate_items_NoDup|].
  intros Hd. split; [apply validate_items_dup; exact Hd|].
  unfold post_upsert, UpsertRequest_errors. fold items.
  rewrite (validate_items_dup _ Hd).
  assert (Hlen : (length items <? 1)%nat = false).
  { apply Nat.ltb_ge. destruct items; [|simpl; lia].
    exfalso. apply Hd. constructor. }
  rewrite Hlen.
  destruct (String.length (upsert_db_path payload) <? 1)%nat; simpl;
    eexists; (split; [reflexivity|]).
  - apply elem_of_cons. right. apply list_elem_of_singleton. reflexivity.
  - apply list_elem_of_singleton. reflexivity.
Qed.

(** Whatever is raised before the two writes leaves the files alone. *)
Lemma upsert_stage_err_unchanged env payload dk e :
  upsert_stage payload dk = Err e ->
  exists e', post_upsert env payload dk = (dk, Err e').
Proof.
  intros Hst. unfold post_upsert, upsert_items. rewrite Hst.
  destruct (UpsertRequest_errors payload); eauto.
Qed.

Lemma np_array_float32_uniform (vectors : list (list float)) (n : nat) :
  vectors <> [] ->
  Forall (fun v => length v = n) vectors ->
  np_array_float32 vectors
  = Ok {| shape := [length vectors; n];
          rows := map (map to_float32) vectors |}.
Proof.
  destruct vectors as [|v rest]; [congruence|].
  intros _ Hall. inversion Hall as [|? ? Hv Hrest]; subst.
  unfold np_array_float32.
  replace (forallb _ rest) with true; [reflexivity|].
  symmetry. apply forallb_forall. intros w Hw.
  apply Nat.eqb_eq. rewrite Forall_forall in Hrest.
  apply Hrest. apply list_elem_of_In. exact Hw.
Qed.

(** C3, as the source has it: the check is on the shape of the array
    built from the whole batch.  A batch with a vector whose length is
    not the index's dimension always fails and leaves the two files as
    they are; when all its vectors have one length [n], a valid request
    on a loadable index fails with [HTTPException(400, ...)] whose detail
    names the dimension and [n].  The index file is the one of the path
    that [db_path] names; of a [db_path] that names none, the request
    gets what the computation of the path raises. *)
Theorem dimension_mismatch_rejected (env : io) (payload : UpsertRequest)
    (dk : disk) (f : file faiss_index) (index : IndexIDMap2) :
  db_file dk = Some f ->
  _read_index f = Ok index ->
  Exists (fun item => length (item_vector item) <> index_d index)
    (upsert_items_field payload) ->
  exists e,
    post_upsert env payload dk = (dk, Err e)
    /\ forall meta metric n,
         UpsertRequest_errors payload = [] ->
         _load_meta dk = Ok meta ->
         meta_metric meta = Ok metric ->
         Forall (fun item => length (item_vector item) = n)
           (upsert_items_field payload) ->
         e = match _normalize_db_path (upsert_db_path payload) with
             | Ok _ =>
                 HTTPException 400
                   ("Vector dimension mismatch. Expected "
                    +:+ py_str (Z.of_nat (index_d index)) +:+ ", got "
                    +:+ py_str (Z.of_nat n) +:+ ".")
             | Err raised => raised
             end.
Proof.
  intros Hf Hindex Hex.
  destruct (upsert_stage payload dk) as [st|e] eqn:Hst.
  - exfalso. destruct (upsert_stage_ok _ _ _ Hst)
      as (? & f' & index' & ? & ? & ? & _ & Hf' & Hindex' & _ & _ & _ & Hall & _).
    rewrite Hf in Hf'. injection Hf' as <-.
    rewrite Hindex in Hindex'. injection Hindex' as <-.
    apply Exists_exists in Hex as (item & Hin & Hne).
    rewrite Forall_forall in Hall. apply Hne, Hall, Hin.
  - unfold post_upsert, upsert_items. rewrite Hst.
    destruct (UpsertRequest_errors payload) as [|err errs] eqn:Herrs.
    + exists e. split; [reflexivity|].
      intros meta metric n _ Hmeta Hmetric Hall.
      unfold upsert_stage in Hst.
      destruct (_normalize_db_path (upsert_db_path payload))
        as [db_file_text|raised]; simpl in Hst; [|congruence].
      rewrite Hf, Hindex in Hst. simpl in Hst.
      rewrite Hmeta in Hst. simpl in Hst.
      rewrite Hmetric in Hst. simpl in Hst.
      rewrite (np_array_float32_uniform _ n) in Hst.
      * simpl in Hst. unfold dimension_mismatch in Hst. simpl in Hst.
        destruct (Nat.eqb_spec n (index_d index)) as [En|_].
        -- exfalso. apply Exists_exists in Hex as (item & Hin & Hne).
           rewrite Forall_forall in Hall. apply Hne. rewrite <- En.
           apply Hall, Hin.
        -- congruence.
      * destruct (upsert_items_field payload); [inversion Hex | discriminate].
      * rewrite Forall_map. exact Hall.
    + eexists. split; [reflexivity|]. intros ? ? ? [=].
Qed.

(** C2, as the source has it: both [faiss.write_index] and [_save_meta]
    write into the destination file itself; nothing is written aside and
    moved into place.  A write that completes leaves the file with the
    new content; a write that fails before the destination is opened
    leaves the prior file untouched; a write that fails once the file is
    open leaves it cut short, the prior content lost.  When
    [faiss.write_index] raises, the handler raises
    [HTTPException(500, "Failed to save index")] and the sidecar is not
    written; when it returns, as it also does after a failed closing of
    the file, the sidecar is written next, and a sidecar write that fails
    raises after the index file was written to. *)
Theorem persist_writes_in_place (env : io) (payload : UpsertRequest)
    (dk : disk) (st : staged) :
  upsert_stage payload dk = Ok st ->
  let dk' := fst (upsert_items env payload dk) in
  let r := snd (upsert_items env payload dk) in
  db_file dk'
  = match index_write env with
    | Ends Written => Some (Holds (IDMap2 (staged_index st)))
    | Ends RaisesBeforeOpen => db_file dk
    | Ends RaisesAfterOpen | CutAtClose => Some Unreadable
    end
  /\ match index_write env with
     | Ends RaisesBeforeOpen | Ends RaisesAfterOpen =>
         meta_file dk' = meta_file dk
         /\ r = Err (HTTPException 500 "Failed to save index")
     | Ends Written | CutAtClose =>
         match meta_write env with
         | Written =>
             meta_file dk' = Some (Holds (JDict (staged_meta st)))
             /\ r = Ok (staged_response st)
         | RaisesBeforeOpen =>
             meta_file dk' = meta_file dk /\ r = Err (Uncaught "OSError")
         | RaisesAfterOpen =>
             meta_file dk' = Some Unreadable /\ r = Err (Uncaught "OSError")
         end
     end.
Proof.
  intros Hst. unfold upsert_items, _save_meta. rewrite Hst.
  destruct (index_write env) as [[]|]; simpl;
    try (destruct (meta_write env); simpl); auto.
Qed.

End RejectFacts.

(** ** What an upsert stores *)

Section StoreFacts.

Context `{Platform}.

(** Different integers have different numerals. *)
Lemma py_str_inj (m n : Z) : py_str m = py_str n -> m = n.
Proof.
  intros E. pose proof (decimal_int_str m) as Hm.
  rewrite E, decimal_int_str in Hm. congruence.
Qed.

Lemma put_records_cons item items records :
  put_records (item :: items) records
  = put_records items (dict_set (record_key item) (record_of item) records).
Proof. reflexivity. Qed.

(** The records of keys that the batch does not write are untouched. *)
Lemma put_records_other k items records :
  k ∉ map record_key items ->
  dict_get k (put_records items records) = dict_get k records.
Proof.
  revert records. induction items as [|item items IH]; intros records Hk;
    [reflexivity|].
  rewrite put_records_cons, IH.
  - apply dict_get_set_ne. intros E. apply Hk. rewrite <- E. left.
  - intros Hin. apply Hk. right. exact Hin.
Qed.

(** With distinct keys, every item's record is the one found afterwards. *)
Lemma put_records_written items records :
  NoDup (map record_key items) ->
  Forall (fun item =>
            dict_get (record_key item) (put_records items records)
            = Some (record_of item)) items.
Proof.
  revert records. induction items as [|item items IH]; intros records Hnd;
    [constructor|].
  inversion Hnd as [|? ? Hnin Hnd']; subst.
  constructor.
  - rewrite put_records_cons, put_records_other by exact Hnin.
    apply dict_get_set_eq.
  - rewrite put_records_cons. apply IH. exact Hnd'.
Qed.

Lemma put_records_same items records :
  Forall (fun item =>
            dict_get (record_key item) records = Some (record_of item)) items ->
  put_records items records = records.
Proof.
  induction 1 as [|item items Hitem _ IH]; [reflexivity|].
  rewrite put_records_cons, dict_set_same by exact Hitem. exact IH.
Qed.

Lemma put_records_keys k items records :
  k ∈ dict_keys (put_records items records)
  <-> k ∈ dict_keys records \/ k ∈ map record_key items.
Proof.
  revert records. induction items as [|item items IH]; intros records.
  - simpl. rewrite elem_of_nil. tauto.
  - rewrite put_records_cons, IH, elem_of_dict_keys_set.
    simpl. rewrite elem_of_cons. tauto.
Qed.

Lemma stored_rows_length metric items :
  length (stored_rows metric items) = length items.
Proof.
  unfold stored_rows. destruct metric; rewrite ?length_map; reflexivity.
Qed.

Lemma filter_none {A : Type} (P : A -> Prop) `{forall x, Decision (P x)}
    (l : list A) :
  Forall (fun x => ~ P x) l -> filter P l = [].
Proof.
  induction 1 as [|x l Hx _ IH]; [reflexivity|].
  rewrite filter_cons_False by exact Hx. exact IH.
Qed.

Lemma zip_fst_in {A B : Type} (l : list A) (k : list B) :
  Forall (fun e => fst e ∈ l) (zip l k).
Proof.
  apply Forall_forall. intros [a b] Hin. simpl.
  eapply elem_of_zip_l. exact Hin.
Qed.

(** The entries after an upsert: the prior ones of other ids, then the
    batch. *)
Lemma upsert_entries rows ids index :
  index_entries (add_with_ids rows ids (remove_ids ids index))
  = filter (fun e => fst e ∉ ids) (index_entries index) ++ zip ids rows.
Proof. reflexivity. Qed.

Lemma upsert_index_ids rows ids index x :
  (length ids <= length rows)%nat ->
  x ∈ index_ids (add_with_ids rows ids (remove_ids ids index))
  <-> (x ∈ index_ids index /\ x ∉ ids) \/ x ∈ ids.
Proof.
  intros Hlen. unfold index_ids. rewrite upsert_entries, map_app.
  change (map fst (zip ids rows)) with ((zip ids rows).*1).
  rewrite fst_zip by exact Hlen.
  rewrite elem_of_app, !list_elem_of_fmap.
  split.
  - intros [([y v] & -> & Hin)|Hin]; [|auto].
    apply list_elem_of_filter in Hin as [Hn Hin]. simpl in *.
    left. split; [|exact Hn]. exists (y, v). auto.
  - intros [[([y v] & -> & Hin) Hn]|Hin]; [|auto].
    left. exists (y, v). split; [reflexivity|].
    apply list_elem_of_filter. auto.
Qed.

(** Upserting the batch again rebuilds the same index. *)
Lemma upsert_index_again rows ids index :
  let index1 := add_with_ids rows ids (remove_ids ids index) in
  add_with_ids rows ids (remove_ids ids index1) = index1.
Proof.
  unfold add_with_ids, remove_ids. simpl. f_equal. f_equal.
  rewrite filter_app, list_filter_filter.
  rewrite (filter_none _ (zip ids rows)).
  - rewrite app_nil_r. apply list_filter_iff. tauto.
  - eapply Forall_impl; [apply zip_fst_in|]. simpl. tauto.
Qed.

Lemma meta_metric_set metric (meta : dict) :
  meta_metric (dict_set "metric" (JStr (metric_name metric)) meta) = Ok metric.
Proof.
  unfold meta_metric. rewrite dict_get_set_eq. destruct metric; reflexivity.
Qed.

Lemma staged_meta_records metric dimension records meta :
  dict_get "records" (staged_meta_of metric dimension records meta)
  = Some (JDict records).
Proof.
  unfold staged_meta_of.
  rewrite !dict_get_set_ne by discriminate. apply dict_get_set_eq.
Qed.

Lemma staged_meta_dimension metric dimension records meta :
  dict_get "dimension" (staged_meta_of metric dimension records meta)
  = Some (JInt (Z.of_nat dimension)).
Proof.
  unfold staged_meta_of.
  rewrite dict_get_set_ne by discriminate. apply dict_get_set_eq.
Qed.

(** An index that was read has a dimension that [faiss.read_index]
    accepts, and an index of such a dimension is read back from the file
    that holds it. *)
Lemma read_index_d f index :
  _read_index f = Ok index -> (Z.of_nat (index_d index) <= read_index_max_d)%Z.
Proof.
  unfold _read_index. destruct f as [|held]; [discriminate|].
  destruct (Z.ltb_spec read_index_max_d (Z.of_nat (faiss_index_d held)));
    [discriminate|].
  destruct held as [index'|d metric_type [|n] loaded]; simpl in *;
    [intros [= <-]; assumption | intros [= <-]; assumption | discriminate].
Qed.

Lemma read_index_held index :
  (Z.of_nat (index_d index) <= read_index_max_d)%Z ->
  _read_index (Holds (IDMap2 index)) = Ok index.
Proof.
  intros Hd. unfold _read_index. simpl.
  destruct (Z.ltb_spec read_index_max_d (Z.of_nat (index_d index)));
    [lia | reflexivity].
Qed.

Lemma load_staged_meta index metric dimension records meta :
  (Z.of_nat (index_d index) <= read_index_max_d)%Z ->
  let dk := {| db_file := Some (Holds (IDMap2 index));
               meta_file :=
                 Some (Holds (JDict (staged_meta_of metric dimension records meta))) |} in
  _load_meta dk = Ok (staged_meta_of metric dimension records meta)
  /\ stored dk = Ok (index, records).
Proof.
  intros Hd. cbv zeta. assert (E : _load_meta
    {| db_file := Some (Holds (IDMap2 index));
       meta_file :=
         Some (Holds (JDict (staged_meta_of metric dimension records meta))) |}
    = Ok (staged_meta_of metric dimension records meta)).
  { unfold _load_meta. simpl. rewrite staged_meta_records. reflexivity. }
  split; [exact E|].
  unfold stored. cbn [db_file]. rewrite (read_index_held _ Hd). simpl.
  rewrite E. simpl.
  unfold meta_records. rewrite staged_meta_records. reflexivity.
Qed.

Lemma stored_d dk index records :
  stored dk = Ok (index, records) ->
  (Z.of_nat (index_d index) <= read_index_max_d)%Z.
Proof.
  unfold stored. destruct (db_file dk) as [f|]; [|discriminate].
  destruct (_read_index f) as [index'|] eqn:E; [|discriminate]. simpl.
  destruct (_load_meta dk) as [meta|]; [|discriminate]. simpl.
  destruct (meta_records meta); [|discriminate]. simpl.
  intros [= <- _]. eapply read_index_d, E.
Qed.

(** The stage, run forwards from what was loaded. *)
Lemma upsert_stage_run payload dk db_file_text f index meta metric records :
  let items := upsert_items_field payload in
  let ids := map item_id items in
  items <> [] ->
  _normalize_db_path (upsert_db_path payload) = Ok db_file_text ->
  db_file dk = Some f ->
  _read_index f = Ok index ->
  _load_meta dk = Ok meta ->
  meta_metric meta = Ok metric ->
  meta_records meta = Ok records ->
  Forall (fun item => length (item_vector item) = index_d index) items ->
  forallb fits_int64 ids = true ->
  base_updates (index_base index) = true ->
  let index' := add_with_ids (stored_rows metric items) ids (remove_ids ids index) in
  upsert_stage payload dk
  = Ok {| staged_index := index';
          staged_meta :=
            staged_meta_of metric (index_d index) (put_records items records) meta;
          staged_response :=
            {| resp_db_path := db_file_text;
               resp_upserted := length items;
               resp_total := ntotal index';
               resp_dimension := index_d index;
               resp_metric := metric |} |}.
Proof.
  intros items ids Hne Hpath Hf Hindex Hmeta Hmetric Hrecords Hall Hfit Hbase
    index'.
  unfold upsert_stage. fold items. rewrite Hpath. simpl.
  rewrite Hf, Hindex. simpl.
  rewrite Hmeta. simpl. rewrite Hmetric. simpl.
  rewrite (np_array_float32_uniform _ (index_d index)).
  - simpl. unfold dimension_mismatch. simpl. rewrite Nat.eqb_refl.
    unfold np_array_int64. fold ids. rewrite Hfit. simpl.
    rewrite Hbase, Hrecords. simpl.
    subst index'. unfold stored_rows, staged_meta_of.
    destruct metric; reflexivity.
  - destruct items; [congruence | discriminate].
  - rewrite Forall_map. exact Hall.
Qed.

End StoreFacts.

(** ** Consistency, idempotence and frame of an upsert *)

Section UpsertTheorems.

Context `{Platform}.

(** A request that gets a response: what was loaded, and what the two
    files hold afterwards. *)
Lemma post_upsert_ok_stored env payload dk dk' resp :
  post_upsert env payload dk = (dk', Ok resp) ->
  let items := upsert_items_field payload in
  let ids := map item_id items in
  exists db_file_text index meta metric records,
    _normalize_db_path (upsert_db_path payload) = Ok db_file_text
    /\ stored dk = Ok (index, records)
    /\ _load_meta dk = Ok meta
    /\ NoDup ids
    /\ items <> []
    /\ Forall (fun item => length (item_vector item) = index_d index) items
    /\ forallb fits_int64 ids = true
    /\ base_updates (index_base index) = true
    /\ let index' :=
         add_with_ids (stored_rows metric items) ids (remove_ids ids index) in
       let records' := put_records items records in
       dk' = {| db_file := Some (index_file_after (index_write env) index');
                meta_file :=
                  Some (Holds (JDict
                    (staged_meta_of metric (index_d index) records' meta))) |}
       /\ resp = {| resp_db_path := db_file_text;
                    resp_upserted := length items;
                    resp_total := ntotal index';
                    resp_dimension := index_d index;
                    resp_metric := metric |}.
Proof.
  intros Hpost items ids.
  apply post_upsert_ok in Hpost as [Herrs Hup].
  apply upsert_items_ok in Hup as (st & Hst & _ & -> & ->).
  destruct (upsert_stage_ok _ _ _ Hst)
    as (db_file_text & f & index & meta & metric & records & Hpath & Hf & Hindex
        & Hmeta & Hmetric & Hrecords & Hall & Hfit & Hbase & Hsi & Hsm & Hsr).
  exists db_file_text, index, meta, metric, records.
  split; [exact Hpath|].
  split.
  { unfold stored. rewrite Hf, Hindex. simpl. rewrite Hmeta. simpl.
    rewrite Hrecords. reflexivity. }
  split; [exact Hmeta|].
  split; [apply UpsertRequest_errors_nil; exact Herrs|].
  split.
  { unfold UpsertRequest_errors in Herrs.
    apply app_eq_nil in Herrs as [_ Herrs]. subst items.
    destruct (upsert_items_field payload); [discriminate Herrs | discriminate]. }
  split; [exact Hall|]. split; [exact Hfit|]. split; [exact Hbase|].
  simpl. rewrite Hsr, Hsi, Hsm. split; reflexivity.
Qed.

(** The same, for an index write that completed: the files then hold
    what was staged, and load. *)
Lemma post_upsert_written env payload dk dk' resp :
  index_write env = Written ->
  post_upsert env payload dk = (dk', Ok resp) ->
  let items := upsert_items_field payload in
  let ids := map item_id items in
  exists index meta metric records,
    stored dk = Ok (index, records)
    /\ let index' :=
         add_with_ids (stored_rows metric items) ids (remove_ids ids index) in
       let records' := put_records items records in
       dk' = {| db_file := Some (Holds (IDMap2 index'));
                meta_file :=
                  Some (Holds (JDict
                    (staged_meta_of metric (index_d index) records' meta))) |}
       /\ stored dk' = Ok (index', records')
       /\ resp_metric resp = metric.
Proof.
  intros Hw Hpost items ids.
  destruct (post_upsert_ok_stored _ _ _ _ _ Hpost)
    as (db_file_text & index & meta & metric & records & _ & Hstored & _ & _ & _
        & _ & _ & _ & Hdk & Hresp).
  exists index, meta, metric, records.
  split; [exact Hstored|].
  cbv zeta in Hdk, Hresp |- *. rewrite Hw in Hdk. simpl in Hdk.
  split; [exact Hdk|]. split; [|rewrite Hresp; reflexivity].
  rewrite Hdk. apply load_staged_meta. simpl. eapply stored_d, Hstored.
Qed.

(** C1: a successful upsert is one whose two writes complete and that
    returns.  When the ids of the stored vectors are the keys of the
    stored records before it, they are so after it. *)
Theorem upsert_keeps_ids_consistent (payload : UpsertRequest)
    (dk dk' : disk) (resp : UpsertResponse) :
  post_upsert io_ok payload dk = (dk', Ok resp) ->
  ids_consistent dk ->
  ids_consistent dk'.
Proof.
  intros Hpost (index0 & records0 & Hstored0 & Hsame).
  destruct (post_upsert_written io_ok _ _ _ _ eq_refl Hpost)
    as (index & meta & metric & records & Hstored & _ & Hstored' & _).
  rewrite Hstored in Hstored0. injection Hstored0 as <- <-.
  eexists _, _. split; [exact Hstored'|].
  apply set_eq. intros k.
  rewrite !elem_of_list_to_set, put_records_keys.
  assert (Hk : k ∈ map py_str (index_ids index) <-> k ∈ dict_keys records).
  { rewrite <- (elem_of_list_to_set (C:=gset string)), Hsame,
      elem_of_list_to_set. reflexivity. }
  rewrite <- Hk. unfold record_key.
  rewrite <- (map_map item_id py_str).
  rewrite !list_elem_of_fmap.
  split.
  - intros (x & -> & Hx).
    apply upsert_index_ids in Hx as [[Hx _]|Hx];
      [| |rewrite stored_rows_length, length_map; lia]; eauto.
  - intros [(x & -> & Hx)|(x & -> & Hx)].
    + exists x. split; [reflexivity|].
      apply upsert_index_ids;
        [rewrite stored_rows_length, length_map; lia|].
      destruct (decide (x ∈ map item_id (upsert_items_field payload))); auto.
    + exists x. split; [reflexivity|].
      apply upsert_index_ids;
        [rewrite stored_rows_length, length_map; lia | auto].
Qed.

(** C7: an upsert whose two writes complete and that returns, applied
    once more to the files it left, returns the same response (the same
    total) and leaves the same files: the same vectors and the same
    records. *)
Theorem upsert_idempotent (payload : UpsertRequest)
    (dk dk' : disk) (resp : UpsertResponse) :
  post_upsert io_ok payload dk = (dk', Ok resp) ->
  post_upsert io_ok payload dk' = (dk', Ok resp).
Proof.
  intros Hpost.
  destruct (post_upsert_ok_stored _ _ _ _ _ Hpost)
    as (db_file_text & index & meta & metric & records & Hpath & Hstored & _
        & Hnd & Hne & Hall & Hfit & Hbase & Hdk & Hresp).
  apply post_upsert_ok in Hpost as [Herrs _].
  unfold post_upsert. rewrite Herrs.
  cbv zeta in Hdk, Hresp. simpl in Hdk.
  set (items := upsert_items_field payload) in *.
  set (ids := map item_id items) in *.
  set (index' := add_with_ids (stored_rows metric items) ids (remove_ids ids index)) in *.
  set (records' := put_records items records) in *.
  set (meta' := staged_meta_of metric (index_d index) records' meta) in *.
  assert (Hd : (Z.of_nat (index_d index') <= read_index_max_d)%Z)
    by (simpl; eapply stored_d, Hstored).
  assert (Hstage : upsert_stage payload dk'
    = Ok {| staged_index := index';
            staged_meta := meta';
            staged_response := resp |}).
  { rewrite (upsert_stage_run payload dk' db_file_text (Holds (IDMap2 index'))
               index' meta' metric records').
    - fold items ids.
      pose proof (upsert_index_again (stored_rows metric items) ids index)
        as Hagain.
      simpl in Hagain. fold index' in Hagain. rewrite Hagain.
      f_equal. rewrite Hresp. f_equal.
      assert (Hrec : put_records items records' = records').
      { apply put_records_same, put_records_written.
        unfold record_key. rewrite <- (map_map item_id py_str).
        apply NoDup_fmap_2; [intros ? ?; apply py_str_inj | exact Hnd]. }
      rewrite Hrec. unfold staged_meta_of.
      rewrite (dict_set_same "records") by apply staged_meta_records.
      rewrite (dict_set_same "dimension") by apply staged_meta_dimension.
      apply dict_set_same.
      unfold meta', staged_meta_of. apply dict_get_set_eq.
    - exact Hne.
    - exact Hpath.
    - rewrite Hdk. reflexivity.
    - apply read_index_held, Hd.
    - rewrite Hdk. apply load_staged_meta, Hd.
    - apply meta_metric_set.
    - unfold meta_records. unfold meta'.
      rewrite staged_meta_records. reflexivity.
    - exact Hall.
    - exact Hfit.
    - exact Hbase. }
  rewrite (upsert_items_commits _ _ _ Hstage). simpl.
  rewrite Hdk. reflexivity.
Qed.

(** C10: an upsert whose two writes complete and that returns leaves
    every id outside the batch with the vector and the record it had:
    the entries stored under the id, the vector reconstructed for it,
    and the record under its key are those of before. *)
Theorem upsert_frame (payload : UpsertRequest)
    (dk dk' : disk) (resp : UpsertResponse) :
  post_upsert io_ok payload dk = (dk', Ok resp) ->
  exists index records index' records',
    stored dk = Ok (index, records)
    /\ stored dk' = Ok (index', records')
    /\ forall id : Z,
         id ∉ map item_id (upsert_items_field payload) ->
         filter (fun e => fst e = id) (index_entries index')
         = filter (fun e => fst e = id) (index_entries index)
         /\ reconstruct id index' = reconstruct id index
         /\ dict_get (py_str id) records' = dict_get (py_str id) records.
Proof.
  intros Hpost.
  destruct (post_upsert_written io_ok _ _ _ _ eq_refl Hpost)
    as (index & meta & metric & records & Hstored & _ & Hstored' & _).
  eexists index, records, _, _.
  split; [exact Hstored|]. split; [exact Hstored'|].
  intros id Hid.
  assert (Hfilter :
    filter (fun e => fst e = id)
      (index_entries
         (add_with_ids (stored_rows metric (upsert_items_field payload))
            (map item_id (upsert_items_field payload))
            (remove_ids (map item_id (upsert_items_field payload)) index)))
    = filter (fun e => fst e = id) (index_entries index)).
  { rewrite upsert_entries, filter_app, list_filter_filter.
    rewrite (filter_none _ (zip _ _)).
    - rewrite app_nil_r. apply list_filter_iff. intros e. split.
      + tauto.
      + intros E. split; [exact E | rewrite E; exact Hid].
    - eapply Forall_impl; [apply zip_fst_in|]. simpl.
      intros e He E. apply Hid. rewrite <- E. exact He. }
  split; [exact Hfilter|]. split.
  - unfold reconstruct. rewrite Hfilter. reflexivity.
  - apply put_records_other. unfold record_key.
    rewrite <- (map_map item_id py_str). rewrite list_elem_of_fmap.
    intros (x & E & Hx). apply py_str_inj in E. subst x. auto.
Qed.

(** Replace semantics: after an upsert whose two writes complete and
    that returns, the entries stored under the ids of the batch are the
    rows of the batch (normalized under the cosine metric), one for each
    id, and every item's record is the one found under its key. *)
Lemma upsert_stores_batch (payload : UpsertRequest)
    (dk dk' : disk) (resp : UpsertResponse) :
  post_upsert io_ok payload dk = (dk', Ok resp) ->
  let items := upsert_items_field payload in
  let ids := map item_id items in
  exists index' records',
    stored dk' = Ok (index', records')
    /\ filter (fun e => fst e ∈ ids) (index_entries index')
       = zip ids (stored_rows (resp_metric resp) items)
    /\ Forall (fun item =>
                 dict_get (record_key item) records' = Some (record_of item))
         items.
Proof.
  intros Hpost items ids.
  destruct (post_upsert_written io_ok _ _ _ _ eq_refl Hpost)
    as (index & meta & metric & records & _ & _ & Hstored' & ->).
  apply post_upsert_ok in Hpost as [Hnd _].
  apply UpsertRequest_errors_nil in Hnd.
  eexists _, _. split; [exact Hstored'|]. split.
  - rewrite upsert_entries, filter_app, list_filter_filter.
    rewrite (filter_none _ (index_entries index)).
    + simpl. clear. fold items ids.
      generalize (stored_rows metric items). intros rows.
      pose proof (zip_fst_in ids rows) as Hall.
      induction Hall as [|e l He _ IH]; [reflexivity|].
      rewrite filter_cons_True by exact He. f_equal. exact IH.
    + apply Forall_forall. intros e _. tauto.
  - apply put_records_written. unfold record_key.
    rewrite <- (map_map item_id py_str).
    apply NoDup_fmap_2; [intros ? ?; apply py_str_inj | exact Hnd].
Qed.

End UpsertTheorems.

(** ** Paging through the content *)

Section ContentFacts.

Context `{Platform}.

Lemma insert_by_id_Permutation x l : Permutation (insert_by_id x l) (x :: l).
Proof.
  induction l as [|y l IH]; simpl; [reflexivity|].
  destruct (ci_id x <=? ci_id y)%Z; [reflexivity|].
  rewrite IH. apply perm_swap.
Qed.

Lemma sort_by_id_Permutation l : Permutation (sort_by_id l) l.
Proof.
  induction l as [|x l IH]; simpl; [reflexivity|].
  rewrite insert_by_id_Permutation, IH. reflexivity.
Qed.

Lemma insert_by_id_HdRel a x l :
  (a <= ci_id x)%Z ->
  HdRel Z.le a (map ci_id l) ->
  HdRel Z.le a (map ci_id (insert_by_id x l)).
Proof.
  intros Hax Hal. destruct l as [|y l]; simpl; [constructor; exact Hax|].
  destruct (ci_id x <=? ci_id y)%Z; simpl; constructor.
  - exact Hax.
  - inversion Hal; assumption.
Qed.

Lemma insert_by_id_Sorted x l :
  Sorted Z.le (map ci_id l) -> Sorted Z.le (map ci_id (insert_by_id x l)).
Proof.
  induction l as [|y l IH]; simpl; intros Hs.
  - repeat constructor.
  - destruct (Z.leb_spec (ci_id x) (ci_id y)); simpl.
    + constructor; [exact Hs | constructor; assumption].
    + inversion Hs as [|? ? Hs' Hhd]; subst.
      constructor; [apply IH; exact Hs'|].
      apply insert_by_id_HdRel; [lia | exact Hhd].
Qed.

Lemma sort_by_id_Sorted l : Sorted Z.le (map ci_id (sort_by_id l)).
Proof.
  induction l as [|x l IH]; simpl; [constructor|].
  apply insert_by_id_Sorted, IH.
Qed.

Lemma record_views_viewable page :
  Forall viewable page -> record_views page = Ok (map to_view page).
Proof.
  induction 1 as [|item page Hv _ IH]; [reflexivity|].
  simpl. rewrite Hv, IH. reflexivity.
Qed.

Lemma join_record_well_typed index preview_dim kv :
  well_typed_record kv ->
  exists item, join_record index preview_dim kv = Some item /\ viewable item.
Proof.
  destruct kv as [key value]. intros [[id Hid] Hval]. simpl in *.
  unfold join_record. rewrite Hid. eexists. split; [reflexivity|].
  unfold viewable, record_view, to_view. simpl.
  destruct value; try reflexivity.
  destruct Hval as [Ht Hm].
  destruct (dict_get "text" d) as [[]|]; try contradiction;
    destruct (dict_get "metadata" d) as [[]|]; try contradiction;
    reflexivity.
Qed.

Lemma join_records_well_typed index preview_dim records :
  Forall well_typed_record records ->
  Forall2 (fun kv item => join_record index preview_dim kv = Some item)
    records (omap (join_record index preview_dim) records)
  /\ Forall viewable (omap (join_record index preview_dim) records).
Proof.
  induction 1 as [|kv records Hkv _ [F2 Hv]].
  - split; constructor.
  - destruct (join_record_well_typed index preview_dim kv Hkv)
      as (item & Hitem & Hview).
    cbn [omap list_omap]. rewrite Hitem.
    split; constructor; assumption.
Qed.

(** The records that an upsert writes are well typed. *)
Lemma put_records_well_typed items records :
  forallb fits_int64 (map item_id items) = true ->
  Forall well_typed_record records ->
  Forall well_typed_record (put_records items records).
Proof.
  revert records. induction items as [|item items IH]; intros records Hfit Hr;
    [exact Hr|].
  simpl in Hfit. apply andb_prop in Hfit as [Hfit1 Hfit].
  simpl. apply IH; [exact Hfit|].
  assert (Hnew : well_typed_record (py_str (item_id item), record_of item)).
  { split; simpl; [rewrite py_int_str by exact Hfit1; eauto | auto]. }
  clear IH. induction Hr as [|[k v] records Hkv Hr IHr]; simpl.
  - constructor; [exact Hnew | constructor].
  - destruct (String.eqb _ k); constructor; auto.
Qed.

Lemma pages_concat {A : Type} (l : list A) (size n : nat) :
  concat (map (fun k => take size (drop (k * size) l)) (seq 0 n))
  = take (n * size) l.
Proof.
  induction n as [|n IH]; [reflexivity|].
  rewrite seq_S, map_app, concat_app, IH. simpl.
  rewrite app_nil_r, take_take_drop. f_equal. lia.
Qed.

Lemma slice_page {A : Type} (k : nat) (limit : Z) (l : list A) :
  (0 <= limit)%Z ->
  slice (Z.of_nat k * limit) limit l
  = take (Z.to_nat limit) (drop (k * Z.to_nat limit) l).
Proof.
  intros Hl. unfold slice.
  rewrite Z2Nat.inj_mul, Nat2Z.id by lia. reflexivity.
Qed.

Lemma slice_map {A B : Type} (f : A -> B) offset limit (l : list A) :
  slice offset limit (map f l) = map f (slice offset limit l).
Proof.
  unfold slice.
  change (map f) with (fmap (M:=list) f).
  rewrite fmap_take, fmap_drop. reflexivity.
Qed.

Lemma content_query_errors_nil db_path offset limit preview_dim :
  content_query_errors db_path offset limit preview_dim = [] ->
  (0 <= offset /\ 1 <= limit <= 500 /\ 1 <= preview_dim <= 64)%Z.
Proof.
  unfold content_query_errors. intros E.
  apply app_eq_nil in E as [_ E].
  apply app_eq_nil in E as [E1 E].
  apply app_eq_nil in E as [E2 E3].
  destruct (Z.ltb_spec offset 0); [discriminate|].
  destruct (Z.ltb_spec limit 1); [discriminate|].
  destruct (Z.ltb_spec 500 limit); [discriminate|].
  destruct (Z.ltb_spec preview_dim 1); [discriminate|].
  destruct (Z.ltb_spec 64 preview_dim); [discriminate|].
  lia.
Qed.

Lemma content_query_errors_offset db_path offset offset' limit preview_dim :
  content_query_errors db_path offset limit preview_dim = [] ->
  (0 <= offset')%Z ->
  content_query_errors db_path offset' limit preview_dim = [].
Proof.
  unfold content_query_errors. intros E Ho.
  apply app_eq_nil in E as [E0 E].
  apply app_eq_nil in E as [_ E].
  rewrite E0, E.
  destruct (Z.ltb_spec offset' 0); [lia | reflexivity].
Qed.

End ContentFacts.

Section ContentTheorem.

Context `{Platform}.

Lemma stored_ok dk index records :
  stored dk = Ok (index, records) ->
  exists f meta,
    db_file dk = Some f /\ _read_index f = Ok index
    /\ _load_meta dk = Ok meta /\ meta_records meta = Ok records.
Proof.
  unfold stored. destruct (db_file dk) as [f|]; [|discriminate].
  intros Hs.
  apply bind_ok in Hs as (index' & Hindex & Hs).
  apply bind_ok in Hs as (meta & Hmeta & Hs).
  apply bind_ok in Hs as (records' & Hrecords & Hs).
  injection Hs as -> ->. eauto 10.
Qed.

Lemma get_info_ok db_path dk meta :
  is_ok (get_info db_path dk) = true ->
  _load_meta dk = Ok meta ->
  exists db_file_text metric,
    _normalize_db_path db_path = Ok db_file_text
    /\ meta_metric meta = Ok metric.
Proof.
  unfold get_info.
  destruct (_normalize_db_path db_path) as [db_file_text|]; [|discriminate].
  simpl. destruct (db_file dk) as [f|]; [|discriminate].
  destruct (_read_index f); [|discriminate]. simpl.
  intros Hok Hmeta. rewrite Hmeta in Hok. simpl in Hok.
  destruct (meta_metric meta); [eauto | discriminate].
Qed.

Lemma slice_is_slice {A : Type} offset limit (l : list A) :
  is_slice (Z.to_nat offset) (Z.to_nat limit) l (slice offset limit l).
Proof.
  intros i. unfold slice. destruct (decide (i < Z.to_nat limit)%nat).
  - rewrite lookup_take_lt by assumption. apply lookup_drop.
  - apply lookup_take_ge. lia.
Qed.

(** The loop of [get_content] keeps the records whose key reads as an
    integer, one item for each, in the order of the dictionary. *)
Lemma join_keyed index preview_dim (records : list (string * json)) :
  Forall2 (fun kv item => join_record index preview_dim kv = Some item)
    (filter (fun kv => is_Some (py_int (fst kv))) records)
    (omap (join_record index preview_dim) records).
Proof.
  induction records as [|[key value] records IH]; [constructor|].
  cbn [omap list_omap].
  destruct (join_record index preview_dim (key, value)) as [item|] eqn:E.
  - rewrite filter_cons_True.
    + constructor; assumption.
    + simpl. unfold join_record in E.
      destruct (py_int key); [eauto | discriminate].
  - rewrite filter_cons_False; [exact IH|].
    simpl. unfold join_record in E.
    destruct (py_int key); [discriminate | apply is_Some_None].
Qed.

Lemma insert_by_id_joined {A : Type} (R : A -> content_item -> Prop)
    x item l items :
  R x item -> Forall2 R l items ->
  exists l', Permutation l' (x :: l) /\ Forall2 R l' (insert_by_id item items).
Proof.
  intros Hx Hl. induction Hl as [|y item' l items Hy Hl IH]; simpl.
  - exists [x]. split; [reflexivity | repeat constructor; exact Hx].
  - destruct (ci_id item <=? ci_id item')%Z.
    + exists (x :: y :: l). split; [reflexivity|].
      repeat constructor; assumption.
    + destruct IH as (l' & Hperm & Hl').
      exists (y :: l'). split; [|constructor; assumption].
      rewrite Hperm. apply perm_swap.
Qed.

(** Sorting the items arranges the records they come from. *)
Lemma sort_by_id_joined {A : Type} (R : A -> content_item -> Prop) l items :
  Forall2 R l items ->
  exists order, Permutation order l /\ Forall2 R order (sort_by_id items).
Proof.
  induction 1 as [|x item l items Hx _ (order & Hperm & Horder)]; simpl.
  - exists []. split; constructor.
  - destruct (insert_by_id_joined R x item order (sort_by_id items) Hx Horder)
      as (order' & Hperm' & Horder').
    exists order'. split; [|exact Horder'].
    rewrite Hperm', Hperm. reflexivity.
Qed.

Lemma joined_ids index preview_dim (order : list (string * json)) items :
  Forall2 (fun kv item => join_record index preview_dim kv = Some item)
    order items ->
  omap (fun kv => py_int (fst kv)) order = map ci_id items.
Proof.
  induction 1 as [|[key value] item order items Hj _ IH]; [reflexivity|].
  cbn [omap list_omap]. simpl. unfold join_record in Hj.
  destruct (py_int key) as [id|]; [|discriminate].
  injection Hj as <-. simpl. f_equal. exact IH.
Qed.

(** The view built of an item shows the record the item was joined
    from; it is refused exactly when the record's [text] is no string or
    its [metadata] no mapping. *)
Lemma joined_view index preview_dim kv item :
  join_record index preview_dim kv = Some item ->
  match record_view item with
  | Ok view => shows index preview_dim kv view /\ well_formed_value (snd kv)
  | Err e => e = Uncaught "ValidationError" /\ ~ well_formed_value (snd kv)
  end.
Proof.
  destruct kv as [key value]. unfold join_record.
  destruct (py_int key) as [id|] eqn:Hid; [|discriminate].
  intros [= <-]. unfold record_view. cbn [ci_text ci_metadata ci_id
    ci_embedding_preview].
  assert (Hpreview : forall i : nat,
    match reconstruct id index with
    | Some vector => map of_float32 (take preview_dim vector)
    | None => []
    end !! i
    = if decide (i < preview_dim)%nat
      then
        match reconstruct id index with
        | Some vector => of_float32 <$> vector !! i
        | None => None
        end
      else None).
  { intros i. destruct (reconstruct id index) as [vector|].
    - change (map of_float32 (take preview_dim vector))
        with (of_float32 <$> take preview_dim vector).
      rewrite list_lookup_fmap.
      destruct (decide (i < preview_dim)%nat).
      + rewrite lookup_take_lt by assumption. reflexivity.
      + rewrite lookup_take_ge by lia. reflexivity.
    - destruct (decide (i < preview_dim)%nat); reflexivity. }
  destruct value as [| | | | | |fields];
    try (split; [split; simpl; auto | exact I]).
  simpl.
  destruct (dict_get "text" fields) as [[| | | |text| |]|] eqn:Ht; simpl;
    try (split; [reflexivity | intros [[] _]]);
    destruct (dict_get "metadata" fields) as [[| | | | | |metadata]|] eqn:Hm;
    simpl;
    try (split; [reflexivity | intros [_ []]]);
    (split; [split; simpl; auto | split; exact I]).
Qed.

(** The views of a window of items that were joined from records. *)
Lemma joined_views index preview_dim (window : list (string * json)) page :
  Forall2 (fun kv item => join_record index preview_dim kv = Some item)
    window page ->
  match record_views page with
  | Ok views =>
      Forall2 (shows index preview_dim) window views
      /\ Forall (fun kv => well_formed_value (snd kv)) window
  | Err e =>
      e = Uncaught "ValidationError"
      /\ Exists (fun kv => ~ well_formed_value (snd kv)) window
  end.
Proof.
  induction 1 as [|kv item window page Hj _ IH]; simpl.
  - split; constructor.
  - pose proof (joined_view _ _ _ _ Hj) as Hv.
    destruct (record_view item) as [view|e]; simpl.
    + destruct (record_views page) as [views|e]; simpl.
      * destruct Hv as [Hs Hw], IH as [Hss Hws].
        split; constructor; assumption.
      * destruct IH as [-> Hex]. split; [reflexivity|].
        apply Exists_cons_tl. exact Hex.
    + destruct Hv as [-> Hw]. split; [reflexivity|].
      apply Exists_cons_hd. exact Hw.
Qed.

Lemma record_views_Forall2 page views :
  record_views page = Ok views <->
  Forall2 (fun item view => record_view item = Ok view) page views.
Proof.
  split.
  - revert views. induction page as [|item page IH]; simpl; intros views.
    + intros [= <-]. constructor.
    + intros Hv. apply bind_ok in Hv as (view & Hview & Hv).
      apply bind_ok in Hv as (views' & Hviews & [= <-]).
      constructor; auto.
  - induction 1 as [|item view page views Hview _ IH]; [reflexivity|].
    simpl. rewrite Hview. simpl. rewrite IH. reflexivity.
Qed.

Lemma record_views_slice offset limit page views :
  record_views page = Ok views ->
  record_views (slice offset limit page) = Ok (slice offset limit views).
Proof.
  rewrite !record_views_Forall2. unfold slice.
  intros Hv. apply Forall2_take, Forall2_drop, Hv.
Qed.

Lemma Forall2_map_r {A B : Type} (Q : A -> B -> Prop) (f : A -> B) l :
  (forall x, x ∈ l -> Q x (f x)) -> Forall2 Q l (map f l).
Proof.
  induction l as [|x l IH]; intros HQ; [constructor|].
  constructor; [apply HQ; left | apply IH; intros y Hy; apply HQ; right; exact Hy].
Qed.

(** C8, as the source has it: on an index that loads, and for
    admissible [limit] and [preview_dim], [get_content] works on one
    list [order]: the stored records whose key reads as an integer,
    each once, arranged by ascending id; the other records are skipped.
    At every offset from 0 on its page shows the records of the slice
    [[offset, offset + limit)] of [order], position by position, when the
    [text] of each of them is a string and the [metadata] a mapping, and
    the call fails on the validation of the response otherwise.  From an
    offset at or past the end the page is empty.  When all the records
    of [order] are of that form, the pages at the offsets [0], [limit],
    [2 * limit], ... put one after the other show the records of [order],
    each once. *)
Theorem content_pagination (db_path : string) (offset limit preview_dim : Z)
    (dk : disk) (index : IndexIDMap2) (records : dict) :
  content_query_errors db_path offset limit preview_dim = [] ->
  is_ok (get_info db_path dk) = true ->
  stored dk = Ok (index, records) ->
  exists order : list (string * json),
    Permutation order (filter (fun kv => is_Some (py_int (fst kv))) records)
    /\ Sorted Z.le (omap (fun kv => py_int (fst kv)) order)
    /\ (forall offset', (0 <= offset')%Z ->
        exists window,
          is_slice (Z.to_nat offset') (Z.to_nat limit) order window
          /\ match get_content_route db_path offset' limit preview_dim dk with
             | Ok resp =>
                 Forall2 (shows index (Z.to_nat preview_dim)) window
                   (content_items resp)
             | Err e =>
                 e = Uncaught "ValidationError"
                 /\ Exists (fun kv => ~ well_formed_value (snd kv)) window
             end)
    /\ (forall offset', (Z.of_nat (length order) <= offset')%Z ->
        exists resp,
          get_content_route db_path offset' limit preview_dim dk = Ok resp
          /\ content_items resp = [])
    /\ (Forall (fun kv => well_formed_value (snd kv)) order ->
        forall n : nat, (length order <= n * Z.to_nat limit)%nat ->
        exists pages,
          Forall2
            (fun k page =>
               exists resp,
                 get_content_route db_path (Z.of_nat k * limit) limit
                   preview_dim dk = Ok resp
                 /\ content_items resp = page)
            (seq 0 n) pages
          /\ Forall2 (shows index (Z.to_nat preview_dim)) order (concat pages)).
Proof.
  intros Hq Hinfo Hstored.
  destruct (stored_ok _ _ _ Hstored) as (f & meta & Hf & Hindex & Hmeta & Hrecords).
  destruct (get_info_ok _ _ _ Hinfo Hmeta) as (db_file_text & metric & Hpath & Hmetric).
  destruct (content_query_errors_nil _ _ _ _ Hq) as (Hoff & Hlim & Hpd).
  set (pd := Z.to_nat preview_dim) in *.
  set (items := omap (join_record index pd) records).
  destruct (sort_by_id_joined _ _ _ (join_keyed index pd records))
    as (order & Hperm & Horder).
  fold items in Horder.
  assert (Hroute : forall offset', (0 <= offset')%Z ->
    get_content_route db_path offset' limit preview_dim dk
    = (views <- record_views (slice offset' limit (sort_by_id items)) ;;
       Ok {| content_db_path := db_file_text;
             content_total := ntotal index;
             content_metric := metric;
             content_dimension := index_d index;
             content_items := views |})).
  { intros offset' Ho. unfold get_content_route.
    rewrite (content_query_errors_offset _ _ _ _ _ Hq Ho).
    unfold get_content. rewrite Hpath. simpl. rewrite Hf, Hindex. simpl.
    rewrite Hmeta. simpl. rewrite Hrecords. simpl. rewrite Hmetric. reflexivity. }
  assert (Hwindow : forall offset',
    Forall2 (fun kv item => join_record index pd kv = Some item)
      (slice offset' limit order) (slice offset' limit (sort_by_id items))).
  { intros offset'. unfold slice. apply Forall2_take, Forall2_drop, Horder. }
  exists order. split; [exact Hperm|]. split.
  { rewrite (joined_ids _ _ _ _ Horder). apply sort_by_id_Sorted. }
  split.
  { intros offset' Ho. exists (slice offset' limit order).
    split; [apply slice_is_slice|].
    rewrite (Hroute _ Ho).
    pose proof (joined_views _ _ _ _ (Hwindow offset')) as Hviews.
    destruct (record_views _) as [views|e]; simpl; [apply Hviews | exact Hviews]. }
  split.
  { intros offset' Ho. rewrite Hroute by lia.
    assert (E : slice offset' limit (sort_by_id items) = []).
    { unfold slice. rewrite drop_ge; [apply take_nil|].
      rewrite <- (Forall2_length _ _ _ Horder). lia. }
    rewrite E. simpl. eexists. split; reflexivity. }
  intros Hwf n Hn.
  pose proof (joined_views _ _ _ _ Horder) as Hall.
  destruct (record_views (sort_by_id items)) as [views|e] eqn:Hviews.
  2:{ destruct Hall as [_ Hex]. apply Exists_exists in Hex as (kv & Hin & Hkv).
      rewrite Forall_forall in Hwf. exfalso. apply Hkv, Hwf, Hin. }
  destruct Hall as [Hshows _].
  exists (map (fun k => slice (Z.of_nat k * limit) limit views) (seq 0 n)).
  split.
  - apply Forall2_map_r. intros k _.
    rewrite Hroute by lia.
    rewrite (record_views_slice _ _ _ _ Hviews). simpl.
    eexists. split; reflexivity.
  - erewrite map_ext; [|intros k; apply slice_page; lia].
    rewrite pages_concat, take_ge; [exact Hshows|].
    rewrite <- (Forall2_length _ _ _ Hshows). exact Hn.
Qed.

End ContentTheorem.

(** * The scenarios, run *)

Module Run.

Import Scenario.

#[local] Existing Instance test_platform.

(** Paths on the host: a relative path starts from the working
    directory, the suffix of the name gives way to [.faiss], and a path
    without a name or with a user that is not known raises. *)
Example normalize_db_paths :
  map _normalize_db_path
    ["/data/idx.faiss"; "/data/idx"; "idx.v2"; "~/x/../idx"; "/"; "~nobody/idx"]
  = [Ok "/data/idx.faiss"; Ok "/data/idx.faiss"; Ok "/srv/idx.faiss";
     Ok "/root/idx.faiss"; Err (Uncaught "ValueError");
     Err (Uncaught "RuntimeError")].
Proof. reflexivity. Qed.

(** The first scenario: one item upserted into the new index. *)
Example upsert_one : post_upsert io_ok one created = (after_one, Ok one_response).
Proof. reflexivity. Qed.

Example info_after_one :
  get_info "/data/idx.faiss" after_one
  = Ok {| info_db_path := "/data/idx.faiss"; info_total := 1;
          info_metric := cosine; info_dimension := 4 |}.
Proof. reflexivity. Qed.

Example content_after_one :
  get_content_route "/data/idx.faiss" 0 10 8 after_one
  = Ok {| content_db_path := "/data/idx.faiss"; content_total := 1;
          content_metric := cosine; content_dimension := 4;
          content_items :=
            [{| view_id := 1; view_text := "a"; view_metadata := [];
                view_embedding_preview := [1; 0; 0; 0] |}] |}.
Proof. reflexivity. Qed.

(** The second scenario: the id 7 twice. *)
Example upsert_twice_seven :
  post_upsert io_ok twice_seven created
  = (created, Err (ValidationError [("items", "Duplicate ids in request")])).
Proof. reflexivity. Qed.

(** The third scenario: three components against dimension 4. *)
Example upsert_short :
  post_upsert io_ok short created
  = (created,
     Err (HTTPException 400 "Vector dimension mismatch. Expected 4, got 3.")).
Proof. reflexivity. Qed.

Example upsert_three :
  fst (post_upsert io_ok three created) = after_three.
Proof. reflexivity. Qed.

(** C3 as the specification words it fails on a batch whose vectors
    differ in length: [np.array] raises [ValueError] before the check is
    reached, and no dimension is named. *)
Lemma ragged_batch_raises_value_error :
  post_upsert io_ok ragged created = (created, Err (Uncaught "ValueError"))
  /\ snd (post_upsert io_ok ragged created)
     <> Err (HTTPException 400 "Vector dimension mismatch. Expected 4, got 3.").
Proof. split; [reflexivity | discriminate]. Qed.

(** C2 as the specification words it fails when a write fails once the
    file is open.  A sidecar write that raises then has emptied the
    prior sidecar, after the index file was written; an index write
    whose file cannot be closed does not even raise: the upsert returns,
    and the prior index file is gone. *)
Lemma failed_write_loses_prior_file :
  let env := {| index_write := Written; meta_write := RaisesAfterOpen |} in
  snd (post_upsert env one created) = Err (Uncaught "OSError")
  /\ meta_file (fst (post_upsert env one created)) = Some Unreadable
  /\ meta_file (fst (post_upsert env one created)) <> meta_file created
  /\ db_file (fst (post_upsert env one created)) = db_file after_one
  /\ snd (post_upsert cut one created) = Ok one_response
  /\ db_file (fst (post_upsert cut one created)) = Some Unreadable
  /\ db_file (fst (post_upsert cut one created)) <> db_file created.
Proof. repeat split; discriminate. Qed.

(** An index write that is cut at its closing: the upsert returns, the
    sidecar has the record of id 1, and no vector can be loaded from the
    index file, by the next upsert no more than by a reader. *)
Example upsert_cut_at_close :
  post_upsert cut one created = (cut_after_one, Ok one_response)
  /\ stored cut_after_one = Err (HTTPException 500 "Failed to load FAISS index")
  /\ post_upsert io_ok one cut_after_one
     = (cut_after_one, Err (HTTPException 500 "Failed to load FAISS index")).
Proof. repeat split. Qed.

(** C8 as the specification words it fails on a sidecar that holds other
    records than those an upsert writes: the record under the key
    ["x"] is on no page, and the page that would show the record whose
    text is a number is refused. *)
Lemma content_skips_and_refuses :
  stored edited
  = Ok (three_index,
        [("12", record "l"); ("x", record "c"); ("5", JDict [("text", JInt 5)])])
  /\ get_content_route "/data/idx.faiss" 0 10 8 edited
     = Err (Uncaught "ValidationError")
  /\ get_content_route "/data/idx.faiss" 1 10 8 edited
     = Ok {| content_db_path := "/data/idx.faiss"; content_total := 3;
             content_metric := cosine; content_dimension := 4;
             content_items :=
               [{| view_id := 12; view_text := "l"; view_metadata := [];
                   view_embedding_preview := [1; 0; 0; 0] |}] |}
  /\ get_content_route "/data/idx.faiss" 2 10 8 edited
     = Ok {| content_db_path := "/data/idx.faiss"; content_total := 3;
             content_metric := cosine; content_dimension := 4;
             content_items := [] |}.
Proof. repeat split. Qed.

(** C9 as the specification words it fails on a sidecar that parses but
    whose [records] entry is no mapping: the load neither returns the
    stored mapping nor raises; it returns the mapping with [records]
    reset to empty. *)
Lemma load_meta_resets_records :
  let stored_mapping := [("records", JInt 5); ("dimension", JInt 4)] in
  meta_file odd_sidecar = Some (Holds (JDict stored_mapping))
  /\ _load_meta odd_sidecar
     = Ok [("records", JDict []); ("dimension", JInt 4)]
  /\ _load_meta odd_sidecar <> Ok stored_mapping
  /\ forall e, _load_meta odd_sidecar <> Err e.
Proof. repeat split; discriminate. Qed.

(** ** The theorems at the scenarios *)

Lemma created_consistent : ids_consistent created.
Proof. exists (_new_index 4 cosine), []. split; reflexivity. Defined.

Lemma upsert_keeps_ids_consistent_witness :
  post_upsert io_ok one created = (after_one, Ok one_response)
  /\ ids_consistent created
  /\ ids_consistent after_one.
Proof.
  split; [reflexivity|]. split; [exact created_consistent|].
  exact (upsert_keeps_ids_consistent one created after_one one_response
           eq_refl created_consistent).
Defined.

Lemma persist_writes_in_place_witness :
  let env := {| index_write := RaisesBeforeOpen; meta_write := Written |} in
  upsert_stage one created = Ok staged_one
  /\ db_file (fst (upsert_items env one created)) = db_file created
  /\ meta_file (fst (upsert_items env one created)) = meta_file created
  /\ snd (upsert_items env one created)
     = Err (HTTPException 500 "Failed to save index").
Proof.
  intros env. split; [reflexivity|].
  exact (persist_writes_in_place env one created staged_one eq_refl).
Defined.

Lemma dimension_mismatch_rejected_witness :
  db_file created = Some (Holds (IDMap2 (_new_index 4 cosine)))
  /\ _read_index (Holds (IDMap2 (_new_index 4 cosine))) = Ok (_new_index 4 cosine)
  /\ Exists (fun item => length (item_vector item) <> 4%nat)
       (upsert_items_field short)
  /\ exists e,
       post_upsert io_ok short created = (created, Err e)
       /\ forall meta metric n,
            UpsertRequest_errors short = [] ->
            _load_meta created = Ok meta ->
            meta_metric meta = Ok metric ->
            Forall (fun item => length (item_vector item) = n)
              (upsert_items_field short) ->
            e = HTTPException 400
                  ("Vector dimension mismatch. Expected "
                   +:+ py_str 4 +:+ ", got " +:+ py_str (Z.of_nat n) +:+ ".").
Proof.
  assert (Hex : Exists (fun item => length (item_vector item) <> 4%nat)
                  (upsert_items_field short)).
  { apply Exists_cons_hd. simpl. discriminate. }
  split; [reflexivity|]. split; [reflexivity|]. split; [exact Hex|].
  exact (dimension_mismatch_rejected io_ok short created
           (Holds (IDMap2 (_new_index 4 cosine))) (_new_index 4 cosine)
           eq_refl eq_refl Hex).
Defined.

Lemma duplicate_ids_rejected_witness :
  ~ NoDup (map item_id (upsert_items_field twice_seven))
  /\ validate_items (upsert_items_field twice_seven) = None
  /\ exists errors,
       post_upsert io_ok twice_seven created
       = (created, Err (ValidationError errors))
       /\ ("items", "Duplicate ids in request") ∈ errors.
Proof.
  assert (Hd : ~ NoDup (map item_id (upsert_items_field twice_seven))).
  { simpl. intros Hnd. apply NoDup_cons in Hnd as [Hn _]. apply Hn. left. }
  split; [exact Hd|].
  exact (proj2 (duplicate_ids_rejected io_ok twice_seven created) Hd).
Defined.

Lemma upsert_idempotent_witness :
  post_upsert io_ok one created = (after_one, Ok one_response)
  /\ post_upsert io_ok one after_one = (after_one, Ok one_response).
Proof.
  split; [reflexivity|].
  exact (upsert_idempotent one created after_one one_response eq_refl).
Defined.

Lemma upsert_frame_witness :
  post_upsert io_ok five_again after_three
    = (after_five_again, Ok five_again_response)
  /\ exists index records index' records',
       stored after_three = Ok (index, records)
       /\ stored after_five_again = Ok (index', records')
       /\ forall id : Z,
            id ∉ map item_id (upsert_items_field five_again) ->
            filter (fun e => fst e = id) (index_entries index')
            = filter (fun e => fst e = id) (index_entries index)
            /\ reconstruct id index' = reconstruct id index
            /\ dict_get (py_str id) records' = dict_get (py_str id) records.
Proof.
  split; [reflexivity|].
  exact (upsert_frame five_again after_three after_five_again
           five_again_response eq_refl).
Defined.

Lemma three_records_well_typed : Forall well_typed_record three_records.
Proof.
  repeat constructor; simpl; eexists; reflexivity.
Defined.

Lemma content_pagination_witness :
  content_query_errors "/data/idx.faiss" 0 2 8 = []
  /\ is_ok (get_info "/data/idx.faiss" after_three) = true
  /\ stored after_three = Ok (three_index, three_records)
  /\ exists order : list (string * json),
       Permutation order
         (filter (fun kv => is_Some (py_int (fst kv))) three_records)
       /\ Sorted Z.le (omap (fun kv => py_int (fst kv)) order)
       /\ (forall offset', (0 <= offset')%Z ->
           exists window,
             is_slice (Z.to_nat offset') (Z.to_nat 2) order window
             /\ match get_content_route "/data/idx.faiss" offset' 2 8 after_three with
                | Ok resp =>
                    Forall2 (shows three_index (Z.to_nat 8)) window
                      (content_items resp)
                | Err e =>
                    e = Uncaught "ValidationError"
                    /\ Exists (fun kv => ~ well_formed_value (snd kv)) window
                end)
       /\ (forall offset', (Z.of_nat (length order) <= offset')%Z ->
           exists resp,
             get_content_route "/data/idx.faiss" offset' 2 8 after_three = Ok resp
             /\ content_items resp = [])
       /\ (Forall (fun kv => well_formed_value (snd kv)) order ->
           forall n : nat, (length order <= n * Z.to_nat 2)%nat ->
           exists pages,
             Forall2
               (fun k page =>
                  exists resp,
                    get_content_route "/data/idx.faiss" (Z.of_nat k * 2) 2 8
                      after_three = Ok resp
                    /\ content_items resp = page)
               (seq 0 n) pages
             /\ Forall2 (shows three_index (Z.to_nat 8)) order (concat pages)).
Proof.
  split; [reflexivity|]. split; [reflexivity|]. split; [reflexivity|].
  exact (content_pagination "/data/idx.faiss" 0 2 8 after_three three_index
           three_records eq_refl eq_refl eq_refl).
Defined.

(** The two pages of size 2 over the three records. *)
Example content_pages_of_two :
  map (fun offset =>
         match get_content_route "/data/idx.faiss" offset 2 8 after_three with
         | Ok resp => map view_id (content_items resp)
         | Err _ => []
         end) [0; 2; 4]
  = [[-3; 5]; [12]; []].
Proof. reflexivity. Qed.

End Run.

(** * Further properties *)

(** ** Index names *)

Module NameMore.
Import Name.

Lemma in_range_spec lo hi c :
  in_range lo hi c = true <-> (lo <= c <= hi)%N.
Proof.
  unfold in_range. rewrite andb_true_iff, !N.leb_le. reflexivity.
Qed.

Lemma is_alnum_spec c :
  is_alnum c = true
  <-> (97 <= c <= 122)%N \/ (65 <= c <= 90)%N \/ (48 <= c <= 57)%N.
Proof.
  unfold is_alnum. rewrite !orb_true_iff, !in_range_spec. tauto.
Qed.

Lemma is_sep_spec c : is_sep c = true <-> c = 46%N \/ c = 45%N \/ c = 95%N.
Proof.
  unfold is_sep. rewrite !orb_true_iff, !N.eqb_eq. tauto.
Qed.

Lemma allowed_spec c : allowed c = true <-> is_alnum c = true \/ is_sep c = true.
Proof. unfold allowed. apply orb_true_iff. Qed.

Lemma isspace_spec c :
  isspace c = true ->
  (c <= 32)%N \/ (133 <= c)%N.
Proof.
  unfold isspace. rewrite !orb_true_iff, !in_range_spec, !N.eqb_eq. lia.
Qed.

Lemma is_sep_not_alnum c : is_sep c = true -> is_alnum c = false.
Proof.
  intros Hs. apply is_sep_spec in Hs.
  destruct (is_alnum c) eqn:Ha; [|reflexivity].
  apply is_alnum_spec in Ha. lia.
Qed.

Lemma isspace_not_allowed c : isspace c = true -> allowed c = false.
Proof.
  intros Hs. apply isspace_spec in Hs.
  destruct (allowed c) eqn:Ha; [|reflexivity].
  apply allowed_spec in Ha. rewrite is_alnum_spec, is_sep_spec in Ha. lia.
Qed.

Lemma not_allowed_not_alnum c : allowed c = false -> is_alnum c = false.
Proof. unfold allowed. intros Ha. apply orb_false_iff in Ha. tauto. Qed.

Lemma lstrip_keep p s :
  (forall c, head s = Some c -> p c = false) -> lstrip p s = s.
Proof.
  destruct s as [|c s]; [reflexivity|].
  intros Hh. simpl. rewrite (Hh c eq_refl). reflexivity.
Qed.

Lemma strip_keep p s :
  (forall c, head s = Some c -> p c = false) ->
  (forall c, last s = Some c -> p c = false) ->
  strip p s = s.
Proof.
  intros Hh Hl. unfold strip, rstrip.
  rewrite (lstrip_keep p s Hh), lstrip_keep; [apply rev_involutive|].
  intros c Hc. apply Hl. rewrite <- Hc.
  rewrite <- (rev_involutive s) at 1.
  generalize (rev s). intros l.
  destruct l as [|x l]; [reflexivity|].
  simpl. rewrite last_snoc. reflexivity.
Qed.

Lemma re_sub_keep b s :
  Forall (fun c => allowed c = true) s -> re_sub_from b s = s.
Proof.
  intros Hall. revert b. induction Hall as [|c s Hc _ IH]; intros b;
    [reflexivity|].
  simpl. rewrite Hc, IH. reflexivity.
Qed.

Lemma Forall_head_last {A : Type} (P : A -> Prop) (l : list A) :
  Forall P l ->
  (forall x, head l = Some x -> P x) /\ (forall x, last l = Some x -> P x).
Proof.
  intros Hall. rewrite Forall_forall in Hall. split; intros x Hx; apply Hall.
  - destruct l; [discriminate|]. injection Hx as ->. left.
  - apply last_Some in Hx as [l' ->]. apply elem_of_app. right. left.
Qed.

(** Nothing to trim, nothing to replace. *)
Lemma sanitized_kept (name : str) :
  Forall (fun c => allowed c = true) name ->
  (forall c, head name = Some c -> is_sep c = false) ->
  (forall c, last name = Some c -> is_sep c = false) ->
  strip is_sep (re_sub (strip isspace name)) = name.
Proof.
  intros Hall Hh Hl. unfold re_sub.
  destruct (Forall_head_last _ _ Hall) as [Hah Hal].
  rewrite (strip_keep isspace name).
  - rewrite re_sub_keep by exact Hall. exact (strip_keep is_sep name Hh Hl).
  - intros c Hc. destruct (isspace c) eqn:E; [|reflexivity].
    apply isspace_not_allowed in E. rewrite (Hah c Hc) in E. discriminate.
  - intros c Hc. destruct (isspace c) eqn:E; [|reflexivity].
    apply isspace_not_allowed in E. rewrite (Hal c Hc) in E. discriminate.
Qed.

(** A name that needs no sanitizing is returned as it is: one that is
    not empty, holds only alphanumerics, ['.'], ['_'] and ['-'], and has
    no separator at either end. *)
Theorem safe_db_name_unchanged (name : str) :
  name <> [] ->
  Forall (fun c => allowed c = true) name ->
  (forall c, head name = Some c -> is_sep c = false) ->
  (forall c, last name = Some c -> is_sep c = false) ->
  _safe_db_name name = Ok name.
Proof.
  intros Hne Hall Hh Hl. unfold _safe_db_name.
  rewrite (sanitized_kept name Hall Hh Hl).
  destruct name; [congruence | reflexivity].
Qed.

Lemma safe_db_name_ok name n :
  _safe_db_name name = Ok n ->
  n <> []
  /\ Forall (fun c => allowed c = true) n
  /\ (forall c, head n = Some c -> is_sep c = false)
  /\ (forall c, last n = Some c -> is_sep c = false).
Proof.
  unfold _safe_db_name.
  set (t := re_sub (strip isspace name)).
  pose proof (NameFacts.strip_trimmed is_sep t) as Htr.
  assert (Hall : Forall (fun c => allowed c = true) (strip is_sep t)).
  { eapply NameFacts.trimmed_Forall; [exact Htr|].
    apply NameFacts.re_sub_allowed. }
  destruct Htr as (pre & post & _ & _ & _ & Hh & Hl).
  destruct (strip is_sep t) as [|c n'] eqn:E; [discriminate|].
  intros [= <-]. repeat split; auto; discriminate.
Qed.

(** Sanitizing is idempotent: a name that [_safe_db_name] returned is
    returned unchanged when it is given again. *)
Theorem safe_db_name_idempotent (name n : str) :
  _safe_db_name name = Ok n -> _safe_db_name n = Ok n.
Proof.
  intros Hok. destruct (safe_db_name_ok _ _ Hok) as (Hne & Hall & Hh & Hl).
  unfold _safe_db_name. rewrite (sanitized_kept n Hall Hh Hl).
  destruct n; [congruence | reflexivity].
Qed.

Lemma filter_alnum_trimmed p s core :
  (forall c, p c = true -> is_alnum c = false) ->
  trimmed p s core ->
  filter (fun c => is_alnum c = true) s
  = filter (fun c => is_alnum c = true) core.
Proof.
  intros Hp (pre & post & -> & Fpre & Fpost & _).
  unfold str, codepoint in *. rewrite !filter_app.
  rewrite (filter_none _ pre), (filter_none _ post).
  - rewrite app_nil_r. reflexivity.
  - eapply Forall_impl; [exact Fpost|]. simpl. intros c Hc.
    rewrite (Hp c Hc). discriminate.
  - eapply Forall_impl; [exact Fpre|]. simpl. intros c Hc.
    rewrite (Hp c Hc). discriminate.
Qed.

Lemma filter_alnum_re_sub b s :
  filter (fun c => is_alnum c = true) (re_sub_from b s)
  = filter (fun c => is_alnum c = true) s.
Proof.
  unfold str, codepoint in *.
  revert b. induction s as [|c s IH]; intros b; [reflexivity|].
  simpl. destruct (allowed c) eqn:E.
  - rewrite !filter_cons, IH. reflexivity.
  - pose proof (not_allowed_not_alnum c E) as Hc.
    rewrite (filter_cons_False _ c s) by (rewrite Hc; discriminate).
    destruct b; [apply IH|].
    rewrite filter_cons_False by (vm_compute; discriminate). apply IH.
Qed.

(** Sanitizing touches no letter and no digit. *)
Lemma filter_alnum_sanitized (name : str) :
  filter (fun c => is_alnum c = true)
    (strip is_sep (re_sub (strip isspace name)))
  = filter (fun c => is_alnum c = true) name.
Proof.
  rewrite <- (filter_alnum_trimmed is_sep _ _ is_sep_not_alnum
                (NameFacts.strip_trimmed _ _)).
  unfold re_sub. rewrite filter_alnum_re_sub.
  symmetry. apply (filter_alnum_trimmed isspace).
  - intros c Hc. apply not_allowed_not_alnum, isspace_not_allowed, Hc.
  - apply NameFacts.strip_trimmed.
Qed.

(** No letter and no digit is lost or moved: the alphanumerics of the
    name returned are those of the name given, in the same order; and the
    call raises exactly when the name given holds none. *)
Theorem safe_db_name_keeps_alnum (name : str) :
  match _safe_db_name name with
  | Ok n =>
      filter (fun c => is_alnum c = true) n
      = filter (fun c => is_alnum c = true) name
      /\ filter (fun c => is_alnum c = true) name <> []
  | Err e =>
      e = HTTPException 400 "Invalid db_name"
      /\ filter (fun c => is_alnum c = true) name = []
  end.
Proof.
  pose proof (filter_alnum_sanitized name) as Hsame.
  destruct (_safe_db_name name) as [n|e] eqn:Hres.
  - destruct (safe_db_name_ok _ _ Hres) as (Hne & Hall & Hh & _).
    unfold _safe_db_name in Hres.
    destruct (strip is_sep (re_sub (strip isspace name))) as [|c n'] eqn:E;
      [discriminate|].
    injection Hres as <-. split; [exact Hsame|].
    rewrite <- Hsame.
    unfold str, codepoint in *.
    inversion Hall as [|? ? Hc _]; subst.
    apply allowed_spec in Hc as [Hc|Hc].
    + rewrite filter_cons_True by exact Hc. discriminate.
    + rewrite (Hh c eq_refl) in Hc. discriminate.
  - unfold _safe_db_name in Hres.
    destruct (strip is_sep (re_sub (strip isspace name))) as [|c n'] eqn:E;
      [|discriminate].
    injection Hres as <-. split; [reflexivity|].
    rewrite <- Hsame. reflexivity.
Qed.

End NameMore.

(** ** Upsert *)

Section MoreUpsertFacts.

Context `{Platform}.

Lemma load_meta_records_entry (dk : disk) (meta : dict) :
  _load_meta dk = Ok meta ->
  exists records, dict_get "records" meta = Some (JDict records).
Proof.
  unfold _load_meta.
  destruct (meta_file dk) as [[|j]|].
  - discriminate.
  - destruct j; try discriminate.
    destruct (dict_get "records" d) as [r|] eqn:E.
    + destruct r; intros [= <-];
        try (rewrite dict_get_set_eq; eauto).
      rewrite E. eauto.
    + intros [= <-]. rewrite dict_get_set_eq. eauto.
  - intros [= <-]. simpl. eauto.
Qed.

(** What [_load_meta] returns always has a mapping under [records]:
    [meta.get("records", {})] in the handlers is a dict whatever the
    sidecar held. *)
Theorem load_meta_has_records (dk : disk) (meta : dict) :
  _load_meta dk = Ok meta ->
  exists records,
    dict_get "records" meta = Some (JDict records)
    /\ meta_records meta = Ok records.
Proof.
  intros Hmeta.
  destruct (load_meta_records_entry dk meta Hmeta) as (records & Hr).
  exists records. split; [exact Hr|].
  unfold meta_records. rewrite Hr. reflexivity.
Qed.

(** An upsert never creates an index: without an index file the request
    fails, with 404 when the request itself is valid, and no file is
    written.  The index file is the one of the path that [db_path]
    names; of a [db_path] that names none, the request gets what the
    computation of the path raises. *)
Theorem upsert_never_creates (env : io) (payload : UpsertRequest) (dk : disk) :
  db_file dk = None ->
  exists e,
    post_upsert env payload dk = (dk, Err e)
    /\ (UpsertRequest_errors payload = [] ->
        e = match _normalize_db_path (upsert_db_path payload) with
            | Ok _ =>
                HTTPException 404 "Index file not found. Create the index first."
            | Err raised => raised
            end).
Proof.
  intros Hnone. unfold post_upsert, upsert_items, upsert_stage. rewrite Hnone.
  destruct (UpsertRequest_errors payload);
    destruct (_normalize_db_path (upsert_db_path payload));
    eexists; (split; [reflexivity|]); simpl; intros; congruence.
Qed.

(** A request that fails while both writes would complete has written
    nothing: whatever validation, loading or the checks raise leaves the
    two files as they were. *)
Theorem failed_upsert_writes_nothing (env : io) (payload : UpsertRequest)
    (dk dk' : disk) (e : error) :
  index_write env = Written ->
  meta_write env = Written ->
  post_upsert env payload dk = (dk', Err e) ->
  dk' = dk.
Proof.
  intros Hi Hm. unfold post_upsert, upsert_items, _save_meta.
  destruct (UpsertRequest_errors payload); [|congruence].
  destruct (upsert_stage payload dk); [|congruence].
  rewrite Hi, Hm. simpl. discriminate.
Qed.

Lemma map_fst_filter {A : Type} (P : Z -> Prop) `{forall x, Decision (P x)}
    (l : list (Z * A)) :
  map fst (filter (fun e => P (fst e)) l) = filter P (map fst l).
Proof.
  induction l as [|[k v] l IH]; [reflexivity|].
  simpl. rewrite !filter_cons. simpl.
  destruct (decide (P k)); simpl; rewrite IH; reflexivity.
Qed.

(** The ids of the index after an upsert: the prior ids outside the
    batch, then the batch. *)
Lemma upsert_index_ids_list rows ids index :
  (length ids <= length rows)%nat ->
  index_ids (add_with_ids rows ids (remove_ids ids index))
  = filter (fun id => id ∉ ids) (index_ids index) ++ ids.
Proof.
  intros Hlen. unfold index_ids. rewrite upsert_entries, map_app.
  change (map fst (zip ids rows)) with ((zip ids rows).*1).
  rewrite fst_zip by exact Hlen.
  pose proof (map_fst_filter (fun id => id ∉ ids) (index_entries index)) as E.
  simpl in E. rewrite E. reflexivity.
Qed.

Lemma filter_all {A : Type} (P : A -> Prop) `{forall x, Decision (P x)}
    (l : list A) :
  Forall P l -> filter P l = l.
Proof.
  induction 1 as [|x l Hx _ IH]; [reflexivity|].
  rewrite filter_cons_True by exact Hx. rewrite IH. reflexivity.
Qed.

Lemma length_filter_split {A : Type} (P : A -> Prop) `{forall x, Decision (P x)}
    (l : list A) :
  (length (filter P l) + length (filter (fun x => ~ P x) l) = length l)%nat.
Proof.
  induction l as [|x l IH]; [reflexivity|].
  rewrite !filter_cons.
  destruct (decide (P x)), (decide (~ P x)); simpl; try tauto; lia.
Qed.

Lemma upsert_total_formula env payload dk dk' resp index records :
  post_upsert env payload dk = (dk', Ok resp) ->
  stored dk = Ok (index, records) ->
  let ids := map item_id (upsert_items_field payload) in
  resp_total resp
  = (length (filter (fun id => id ∉ ids) (index_ids index)) + length ids)%nat.
Proof.
  intros Hpost Hstored ids.
  destruct (post_upsert_ok_stored _ _ _ _ _ Hpost)
    as (db_file_text & index0 & meta & metric & records0 & _ & Hstored0 & _ & _
        & _ & _ & _ & _ & _ & Hresp).
  rewrite Hstored in Hstored0. injection Hstored0 as <- <-.
  simpl in Hresp. subst resp. simpl.
  unfold ntotal.
  rewrite <- (length_map fst (index_entries _)).
  change (map fst (index_entries ?i)) with (index_ids i).
  rewrite upsert_index_ids_list
    by (rewrite stored_rows_length, length_map; lia).
  rewrite length_app. reflexivity.
Qed.

(** Upserting ids that the index does not hold adds one vector for each
    item: the total reported is the prior total plus the size of the
    batch. *)
Theorem upsert_total_new_ids (env : io) (payload : UpsertRequest)
    (dk dk' : disk) (resp : UpsertResponse) (index : IndexIDMap2)
    (records : dict) :
  post_upsert env payload dk = (dk', Ok resp) ->
  stored dk = Ok (index, records) ->
  Forall (fun item => item_id item ∉ index_ids index)
    (upsert_items_field payload) ->
  resp_total resp = (ntotal index + length (upsert_items_field payload))%nat.
Proof.
  intros Hpost Hstored Hnew.
  rewrite (upsert_total_formula _ _ _ _ _ _ _ Hpost Hstored).
  rewrite filter_all.
  - unfold index_ids, ntotal. rewrite !length_map. reflexivity.
  - apply Forall_forall. intros id Hid Hin.
    apply list_elem_of_fmap in Hin as (item & -> & Hitem).
    rewrite Forall_forall in Hnew. exact (Hnew item Hitem Hid).
Qed.

(** Replace, not append: when the index holds every id of the batch, each
    once, the total reported after the upsert is the total before. *)
Theorem upsert_total_replace (env : io) (payload : UpsertRequest)
    (dk dk' : disk) (resp : UpsertResponse) (index : IndexIDMap2)
    (records : dict) :
  post_upsert env payload dk = (dk', Ok resp) ->
  stored dk = Ok (index, records) ->
  NoDup (index_ids index) ->
  Forall (fun item => item_id item ∈ index_ids index)
    (upsert_items_field payload) ->
  resp_total resp = ntotal index.
Proof.
  intros Hpost Hstored Hnd Hall.
  rewrite (upsert_total_formula _ _ _ _ _ _ _ Hpost Hstored).
  destruct (post_upsert_ok_stored _ _ _ _ _ Hpost)
    as (_ & _ & _ & _ & _ & _ & _ & _ & Hids & _).
  set (ids := map item_id (upsert_items_field payload)) in *.
  pose proof (length_filter_split (fun id => id ∈ ids) (index_ids index)) as Hsplit.
  assert (Hperm : filter (fun id => id ∈ ids) (index_ids index) ≡ₚ ids).
  { apply NoDup_Permutation.
    - apply NoDup_filter. exact Hnd.
    - exact Hids.
    - intros id. rewrite list_elem_of_filter. split; [tauto|].
      intros Hin. split; [exact Hin|].
      unfold ids in Hin. apply list_elem_of_fmap in Hin as (item & -> & Hitem).
      rewrite Forall_forall in Hall. apply Hall, Hitem. }
  rewrite <- (Permutation_length Hperm).
  unfold ntotal, index_ids in *. rewrite length_map in Hsplit. lia.
Qed.

Lemma dict_keys_set_NoDup k v (d : dict) :
  NoDup (dict_keys d) -> NoDup (dict_keys (dict_set k v d)).
Proof.
  unfold dict_keys. induction d as [|[k' v'] d IH]; simpl; intros Hnd.
  - repeat constructor. apply not_elem_of_nil.
  - inversion Hnd as [|? ? Hnin Hnd']; subst.
    destruct (String.eqb_spec k k') as [->|Hk]; simpl.
    + constructor; assumption.
    + constructor; [|apply IH; exact Hnd'].
      intros Hin. apply (elem_of_dict_keys_set k' k v d) in Hin as [E|Hin];
        [congruence | exact (Hnin Hin)].
Qed.

Lemma put_records_keys_NoDup items (records : dict) :
  NoDup (dict_keys records) -> NoDup (dict_keys (put_records items records)).
Proof.
  revert records. induction items as [|item items IH]; intros records Hnd;
    [exact Hnd|].
  rewrite put_records_cons. apply IH, dict_keys_set_NoDup, Hnd.
Qed.

(** One id, one vector and one record: when no id occurs twice in the
    index and no key twice in the records, the same holds after an upsert
    whose two writes complete and that returns. *)
Theorem upsert_keeps_ids_distinct (payload : UpsertRequest)
    (dk dk' : disk) (resp : UpsertResponse) (index : IndexIDMap2)
    (records : dict) :
  post_upsert io_ok payload dk = (dk', Ok resp) ->
  stored dk = Ok (index, records) ->
  NoDup (index_ids index) ->
  NoDup (dict_keys records) ->
  exists index' records',
    stored dk' = Ok (index', records')
    /\ NoDup (index_ids index')
    /\ NoDup (dict_keys records').
Proof.
  intros Hpost Hstored Hnd Hkeys.
  destruct (post_upsert_written io_ok _ _ _ _ eq_refl Hpost)
    as (index0 & meta & metric & records0 & Hstored0 & _ & Hstored' & _).
  rewrite Hstored in Hstored0. injection Hstored0 as <- <-.
  apply post_upsert_ok in Hpost as [Hids _].
  apply UpsertRequest_errors_nil in Hids.
  eexists _, _. split; [exact Hstored'|]. split.
  - rewrite upsert_index_ids_list
      by (rewrite stored_rows_length, length_map; lia).
    apply NoDup_app. split; [apply NoDup_filter; exact Hnd|].
    split; [|exact Hids].
    intros id Hin. apply list_elem_of_filter in Hin as [Hout _]. exact Hout.
  - apply put_records_keys_NoDup, Hkeys.
Qed.

(** The dimension invariant: an upsert whose two writes complete and
    that returns leaves the index's dimension and metric type as they
    are, and when every stored vector has the length of the dimension
    before, so has every stored vector after.  The normalization of a
    row is taken to keep its length, as [faiss.normalize_L2] works in
    place. *)
Theorem upsert_keeps_dimension (payload : UpsertRequest)
    (dk dk' : disk) (resp : UpsertResponse) (index : IndexIDMap2)
    (records : dict) :
  (forall row, length (normalize_L2 row) = length row) ->
  post_upsert io_ok payload dk = (dk', Ok resp) ->
  stored dk = Ok (index, records) ->
  Forall (fun e => length (snd e) = index_d index) (index_entries index) ->
  exists index' records',
    stored dk' = Ok (index', records')
    /\ index_d index' = index_d index
    /\ index_metric_type index' = index_metric_type index
    /\ resp_dimension resp = index_d index
    /\ Forall (fun e => length (snd e) = index_d index') (index_entries index').
Proof.
  intros Hnorm Hpost Hstored Hold.
  destruct (post_upsert_written io_ok _ _ _ _ eq_refl Hpost)
    as (index1 & meta1 & metric1 & records1 & Hstored1 & _ & Hstored' & Hm).
  destruct (post_upsert_ok_stored _ _ _ _ _ Hpost)
    as (db_file_text & index0 & meta & metric & records0 & _ & Hstored0 & _ & _
        & _ & Hall & _ & _ & _ & Hresp).
  rewrite Hstored in Hstored0, Hstored1.
  injection Hstored0 as <- <-. injection Hstored1 as <- <-.
  cbv zeta in Hresp. rewrite Hresp in Hm |- *. simpl in Hm. subst metric1.
  eexists _, _. split; [exact Hstored'|].
  split; [reflexivity|]. split; [reflexivity|]. split; [reflexivity|].
  rewrite upsert_entries. simpl. apply Forall_app. split.
  - apply Forall_forall. intros e He.
    apply list_elem_of_filter in He as [_ He].
    rewrite Forall_forall in Hold. apply Hold, He.
  - apply Forall_forall. intros [id row] He. simpl.
    apply elem_of_zip_r in He.
    assert (Hrows : Forall (fun row => length row = index_d index)
              (stored_rows metric (upsert_items_field payload))).
    { unfold stored_rows.
      assert (Hconv : Forall (fun row => length row = index_d index)
                (map (map to_float32)
                   (map item_vector (upsert_items_field payload)))).
      { rewrite !Forall_map. eapply Forall_impl; [exact Hall|].
        simpl. intros item Hitem. rewrite length_map. exact Hitem. }
      destruct metric; try exact Hconv.
      rewrite Forall_map. eapply Forall_impl; [exact Hconv|].
      simpl. intros r Hr. rewrite Hnorm. exact Hr. }
    rewrite Forall_forall in Hrows. apply Hrows, He.
Qed.

Lemma zip_filter_at {A : Type} (ids : list Z) (rows : list A) (i : nat)
    (id : Z) (row : A) :
  NoDup ids ->
  ids !! i = Some id ->
  rows !! i = Some row ->
  filter (fun e => fst e = id) (zip ids rows) = [(id, row)].
Proof.
  revert rows i. induction ids as [|x ids IH]; intros rows i Hnd Hi Hr;
    [discriminate|].
  destruct rows as [|r rows]; [destruct i; discriminate|].
  inversion Hnd as [|? ? Hnin Hnd']; subst. simpl.
  destruct i as [|i]; simpl in Hi, Hr.
  - injection Hi as ->. injection Hr as ->.
    rewrite filter_cons_True by reflexivity. f_equal.
    apply filter_none. apply Forall_forall. intros [k v] He E. simpl in E.
    subst k. apply Hnin. eapply elem_of_zip_l. exact He.
  - rewrite filter_cons_False.
    + exact (IH rows i Hnd' Hi Hr).
    + simpl. intros ->. apply Hnin. eapply list_elem_of_lookup_2. exact Hi.
Qed.

(** The vector reconstructed for an id of the batch is what the index
    underneath reconstructs of its row. *)
Lemma reconstruct_upserted rows ids index (i : nat) (id : Z)
    (row : list float32) :
  NoDup ids ->
  fits_int64 id = true ->
  ids !! i = Some id ->
  rows !! i = Some row ->
  reconstruct id (add_with_ids rows ids (remove_ids ids index))
  = base_reconstruct (index_base index) row.
Proof.
  intros Hnd Hf Hid Hrow. unfold reconstruct.
  rewrite Hf, upsert_entries, filter_app, list_filter_filter.
  rewrite (filter_none _ (index_entries index)).
  - rewrite (zip_filter_at ids _ i _ _ Hnd Hid Hrow). reflexivity.
  - apply Forall_forall. intros e _ [E Hout]. apply Hout. rewrite E.
    eapply list_elem_of_lookup_2. exact Hid.
Qed.

Lemma stored_rows_at metric items (i : nat) item :
  items !! i = Some item ->
  stored_rows metric items !! i
  = Some (match metric with
          | cosine => normalize_L2 (map to_float32 (item_vector item))
          | _ => map to_float32 (item_vector item)
          end).
Proof.
  intros Hi. unfold stored_rows.
  destruct metric; rewrite !list_lookup_fmap, Hi; reflexivity.
Qed.

(** The vector reconstructed for an item after the upsert that brought
    it. *)
Lemma reconstruct_item metric items index item :
  NoDup (map item_id items) ->
  forallb fits_int64 (map item_id items) = true ->
  item ∈ items ->
  reconstruct (item_id item)
    (add_with_ids (stored_rows metric items) (map item_id items)
       (remove_ids (map item_id items) index))
  = base_reconstruct (index_base index)
      (match metric with
       | cosine => normalize_L2 (map to_float32 (item_vector item))
       | _ => map to_float32 (item_vector item)
       end).
Proof.
  intros Hnd Hfit Hitem.
  apply list_elem_of_lookup in Hitem as [i Hi].
  assert (Hid : map item_id items !! i = Some (item_id item))
    by (rewrite list_lookup_fmap, Hi; reflexivity).
  apply (reconstruct_upserted _ _ _ i); [exact Hnd | | exact Hid |].
  - rewrite forallb_forall in Hfit. apply Hfit, list_elem_of_In.
    eapply list_elem_of_lookup_2. exact Hid.
  - apply stored_rows_at. exact Hi.
Qed.

(** Upsert, then look up: after an upsert whose two writes complete and
    that returns, every item of the batch is found as it was sent.  On
    an index over [IndexFlat], as [create_index] makes it, the vector
    reconstructed for its id is its vector converted to [float32],
    normalized under the cosine metric; and the record under its key
    holds its text and metadata. *)
Theorem upsert_then_lookup (payload : UpsertRequest)
    (dk dk' : disk) (resp : UpsertResponse) (index : IndexIDMap2)
    (records : dict) :
  post_upsert io_ok payload dk = (dk', Ok resp) ->
  stored dk = Ok (index, records) ->
  index_base index = IndexFlat ->
  exists index' records',
    stored dk' = Ok (index', records')
    /\ forall item, item ∈ upsert_items_field payload ->
         let row := map to_float32 (item_vector item) in
         reconstruct (item_id item) index'
         = Some (match resp_metric resp with
                 | cosine => normalize_L2 row
                 | _ => row
                 end)
         /\ dict_get (py_str (item_id item)) records' = Some (record_of item).
Proof.
  intros Hpost Hstored Hflat.
  destruct (post_upsert_written io_ok _ _ _ _ eq_refl Hpost)
    as (index0 & meta & metric & records0 & Hstored0 & _ & Hstored' & ->).
  rewrite Hstored in Hstored0. injection Hstored0 as <- <-.
  destruct (post_upsert_ok_stored _ _ _ _ _ Hpost)
    as (_ & _ & _ & _ & _ & _ & _ & _ & Hids & _ & _ & Hfit & _).
  eexists _, _. split; [exact Hstored'|].
  intros item Hitem. split.
  - rewrite reconstruct_item by assumption. rewrite Hflat. reflexivity.
  - assert (Hkeys : NoDup (map record_key (upsert_items_field payload))).
    { unfold record_key. rewrite <- (map_map item_id py_str).
      apply NoDup_fmap_2; [intros ? ?; apply py_str_inj | exact Hids]. }
    pose proof (put_records_written _ records Hkeys) as Hrec.
    rewrite Forall_forall in Hrec. exact (Hrec item Hitem).
Qed.

(** Upsert, then info: after an upsert whose two writes complete and
    that returns, [get_info] under a [db_path] that names the same file
    reports the path, the total, the dimension and the metric that the
    upsert returned. *)
Theorem upsert_then_info (payload : UpsertRequest)
    (dk dk' : disk) (resp : UpsertResponse) (db_path : string) :
  post_upsert io_ok payload dk = (dk', Ok resp) ->
  _normalize_db_path db_path = _normalize_db_path (upsert_db_path payload) ->
  get_info db_path dk'
  = Ok {| info_db_path := resp_db_path resp;
          info_total := resp_total resp;
          info_metric := resp_metric resp;
          info_dimension := resp_dimension resp |}.
Proof.
  intros Hpost Hsame.
  destruct (post_upsert_written io_ok _ _ _ _ eq_refl Hpost)
    as (index & meta & metric & records & Hstored & Hdk & _ & _).
  destruct (post_upsert_ok_stored _ _ _ _ _ Hpost)
    as (db_file_text & index0 & meta0 & metric0 & records0 & Hpath & Hstored0
        & _ & _ & _ & _ & _ & _ & Hdk0 & Hresp).
  rewrite Hstored in Hstored0. injection Hstored0 as <- <-.
  cbv zeta in Hdk, Hdk0, Hresp. simpl in Hdk0.
  assert (Hd : (Z.of_nat (index_d index) <= read_index_max_d)%Z)
    by (eapply stored_d, Hstored).
  subst resp. unfold get_info. rewrite Hsame, Hpath. simpl.
  rewrite Hdk0. cbn [db_file].
  rewrite read_index_held by exact Hd. simpl.
  match goal with
  | |- context [_load_meta ?d] =>
      replace (_load_meta d)
        with (Ok (staged_meta_of metric0 (index_d index)
                    (put_records (upsert_items_field payload) records) meta0))
  end.
  - simpl. unfold staged_meta_of at 1. rewrite meta_metric_set. reflexivity.
  - symmetry. apply load_staged_meta. exact Hd.
Qed.

(** The sidecar that an upsert wrote loads as it was staged. *)
Lemma load_meta_staged dk metric dimension records meta :
  meta_file dk
  = Some (Holds (JDict (staged_meta_of metric dimension records meta))) ->
  _load_meta dk = Ok (staged_meta_of metric dimension records meta).
Proof.
  intros Hfile. unfold _load_meta. rewrite Hfile, staged_meta_records.
  reflexivity.
Qed.

(** What an upsert does to the sidecar: it sets [dimension] to the
    index's dimension and [metric] to the metric used, one of the three
    names, and leaves every other entry but [records] as loaded. *)
Theorem upsert_sidecar_fields (env : io) (payload : UpsertRequest)
    (dk dk' : disk) (resp : UpsertResponse) :
  post_upsert env payload dk = (dk', Ok resp) ->
  exists meta meta',
    _load_meta dk = Ok meta
    /\ _load_meta dk' = Ok meta'
    /\ dict_get "dimension" meta' = Some (JInt (Z.of_nat (resp_dimension resp)))
    /\ dict_get "metric" meta' = Some (JStr (metric_name (resp_metric resp)))
    /\ forall k, k <> "records" -> k <> "dimension" -> k <> "metric" ->
         dict_get k meta' = dict_get k meta.
Proof.
  intros Hpost.
  destruct (post_upsert_ok_stored _ _ _ _ _ Hpost)
    as (db_file_text & index & meta & metric & records & _ & _ & Hmeta & _ & _
        & _ & _ & _ & Hdk & Hresp).
  simpl in Hdk, Hresp. subst dk' resp. simpl.
  eexists meta, _. split; [exact Hmeta|].
  split; [apply load_meta_staged; reflexivity|].
  split; [apply staged_meta_dimension|].
  split; [unfold staged_meta_of; apply dict_get_set_eq|].
  intros k Hr Hd Hm. unfold staged_meta_of.
  rewrite !dict_get_set_ne by congruence. reflexivity.
Qed.

End MoreUpsertFacts.

(** ** Info and content *)

Section MoreContentFacts.

Context `{Platform}.

Lemma record_views_ok page views :
  record_views page = Ok views ->
  views = map to_view page /\ Forall viewable page.
Proof.
  revert views. induction page as [|item page IH]; intros views; simpl.
  - intros [= <-]. split; constructor.
  - intros Hv. apply bind_ok in Hv as (v & Hitem & Hv).
    apply bind_ok in Hv as (vs & Hpage & Hv). injection Hv as <-.
    destruct (IH _ Hpage) as [-> Hall].
    assert (Hview : viewable item).
    { unfold viewable. rewrite Hitem. f_equal.
      unfold record_view in Hitem. unfold to_view.
      destruct (ci_text item); try discriminate.
      destruct (ci_metadata item); try discriminate.
      injection Hitem as <-. reflexivity. }
    split; [|constructor; assumption].
    simpl. f_equal. unfold viewable in Hview. congruence.
Qed.

(** What [get_content] has loaded and joined when it returns. *)
Lemma get_content_ok db_path offset limit preview_dim dk resp :
  get_content db_path offset limit preview_dim dk = Ok resp ->
  exists db_file_text index records metric,
    stored dk = Ok (index, records)
    /\ get_info db_path dk
       = Ok {| info_db_path := db_file_text;
               info_total := ntotal index;
               info_metric := metric;
               info_dimension := index_d index |}
    /\ resp = {| content_db_path := db_file_text;
                 content_total := ntotal index;
                 content_metric := metric;
                 content_dimension := index_d index;
                 content_items :=
                   map to_view
                     (slice offset limit
                        (sort_by_id
                           (omap (join_record index (Z.to_nat preview_dim))
                              records))) |}.
Proof.
  unfold get_content, get_info, stored.
  intros Hc. apply bind_ok in Hc as (db_file_text & Hpath & Hc).
  destruct (db_file dk) as [f|]; [|discriminate].
  apply bind_ok in Hc as (index & Hindex & Hc).
  apply bind_ok in Hc as (meta & Hmeta & Hc).
  apply bind_ok in Hc as (records & Hrecords & Hc).
  apply bind_ok in Hc as (metric & Hmetric & Hc).
  apply bind_ok in Hc as (views & Hviews & Hc).
  injection Hc as <-.
  apply record_views_ok in Hviews as [-> _].
  exists db_file_text, index, records, metric.
  rewrite Hpath, Hindex. simpl. rewrite Hmeta. simpl.
  rewrite Hrecords, Hmetric. simpl. auto.
Qed.

Lemma get_content_route_ok db_path offset limit preview_dim dk resp :
  get_content_route db_path offset limit preview_dim dk = Ok resp ->
  content_query_errors db_path offset limit preview_dim = []
  /\ get_content db_path offset limit preview_dim dk = Ok resp.
Proof.
  unfold get_content_route.
  destruct (content_query_errors db_path offset limit preview_dim);
    [auto | discriminate].
Qed.

Lemma join_record_preview index preview_dim kv item :
  join_record index preview_dim kv = Some item ->
  py_int (fst kv) = Some (ci_id item)
  /\ ci_embedding_preview item
     = match reconstruct (ci_id item) index with
       | Some vector => map of_float32 (take preview_dim vector)
       | None => []
       end.
Proof.
  destruct kv as [key value]. unfold join_record. simpl.
  destruct (py_int key) as [id|]; [|discriminate].
  intros [= <-]. simpl. auto.
Qed.

Lemma slice_subset {A : Type} offset limit (l : list A) x :
  x ∈ slice offset limit l -> x ∈ l.
Proof.
  unfold slice. intros Hx.
  apply list_elem_of_lookup in Hx as [i Hi].
  apply lookup_take_Some in Hi as [Hi _].
  rewrite lookup_drop in Hi. eapply list_elem_of_lookup_2. exact Hi.
Qed.

Lemma slice_length {A : Type} offset limit (l : list A) :
  (length (slice offset limit l) <= Z.to_nat limit)%nat.
Proof. unfold slice. rewrite length_take. lia. Qed.

(** Where the items of a page come from. *)
Lemma content_item_source index preview_dim records offset limit item :
  item ∈ slice offset limit
           (sort_by_id (omap (join_record index preview_dim) records)) ->
  exists kv, kv ∈ records /\ join_record index preview_dim kv = Some item.
Proof.
  intros Hin. apply slice_subset in Hin.
  rewrite sort_by_id_Permutation in Hin.
  apply list_elem_of_omap in Hin. exact Hin.
Qed.

(** The size of a page: [get_content] returns at most [limit] items, at
    most 500, and each preview holds at most [preview_dim] components, at
    most 64. *)
Theorem content_page_bounded (db_path : string) (offset limit preview_dim : Z)
    (dk : disk) (resp : ContentResponse) :
  get_content_route db_path offset limit preview_dim dk = Ok resp ->
  (Z.of_nat (length (content_items resp)) <= limit <= 500)%Z
  /\ Forall
       (fun v =>
          (Z.of_nat (length (view_embedding_preview v)) <= preview_dim <= 64)%Z)
       (content_items resp).
Proof.
  intros Hroute. apply get_content_route_ok in Hroute as [Hq Hc].
  destruct (content_query_errors_nil _ _ _ _ Hq) as (Hoff & Hlim & Hpd).
  destruct (get_content_ok _ _ _ _ _ _ Hc)
    as (db_file_text & index & records & metric & _ & _ & ->).
  simpl. split.
  - rewrite length_map.
    pose proof (slice_length offset limit
      (sort_by_id (omap (join_record index (Z.to_nat preview_dim)) records))).
    lia.
  - rewrite Forall_map. apply Forall_forall. intros item Hin. simpl.
    apply content_item_source in Hin as (kv & _ & Hjoin).
    apply join_record_preview in Hjoin as [_ ->].
    destruct (reconstruct (ci_id item) index) as [vector|]; simpl; [|lia].
    rewrite length_map, length_take. lia.
Qed.

(** Content agrees with info: where [get_info] fails, [get_content] fails
    with the same error; where both return, the total, dimension, metric
    and path of the content are those of the info. *)
Theorem content_agrees_with_info (db_path : string)
    (offset limit preview_dim : Z) (dk : disk) :
  match get_info db_path dk, get_content db_path offset limit preview_dim dk with
  | Err e, content => content = Err e
  | Ok info, Ok page =>
      info = {| info_db_path := content_db_path page;
                info_total := content_total page;
                info_metric := content_metric page;
                info_dimension := content_dimension page |}
  | Ok _, Err _ => True
  end.
Proof.
  destruct (get_content db_path offset limit preview_dim dk) as [page|e'] eqn:Hc.
  - destruct (get_content_ok _ _ _ _ _ _ Hc)
      as (db_file_text & index & records & metric & _ & -> & ->).
    reflexivity.
  - destruct (get_info db_path dk) as [info|e] eqn:Hi; [exact I|].
    revert Hi Hc. unfold get_info, get_content.
    destruct (_normalize_db_path db_path); simpl; [|congruence].
    destruct (db_file dk) as [f|]; [|congruence].
    destruct (_read_index f) as [index|e1]; simpl; [|congruence].
    destruct (_load_meta dk) as [meta|e2] eqn:Hmeta; simpl; [|congruence].
    destruct (load_meta_records_entry _ _ Hmeta) as (records & Hr).
    unfold meta_records. rewrite Hr. simpl.
    destruct (meta_metric meta); simpl; [discriminate | congruence].
Qed.

(** Where a page comes from: every item returned stands for a record
    whose key [int] accepts, with that integer as id; its preview is the
    first [preview_dim] components of the vector reconstructed for the
    id, and is empty when none can be reconstructed. *)
Theorem content_items_from_records (db_path : string)
    (offset limit preview_dim : Z) (dk : disk) (resp : ContentResponse) :
  get_content db_path offset limit preview_dim dk = Ok resp ->
  exists index records,
    stored dk = Ok (index, records)
    /\ Forall
         (fun v =>
            (exists key value,
               (key, value) ∈ records /\ py_int key = Some (view_id v))
            /\ view_embedding_preview v
               = match reconstruct (view_id v) index with
                 | Some vector =>
                     map of_float32 (take (Z.to_nat preview_dim) vector)
                 | None => []
                 end)
         (content_items resp).
Proof.
  intros Hc.
  destruct (get_content_ok _ _ _ _ _ _ Hc)
    as (db_file_text & index & records & metric & Hstored & _ & ->).
  exists index, records. split; [exact Hstored|]. simpl.
  rewrite Forall_map. apply Forall_forall. intros item Hin. simpl.
  apply content_item_source in Hin as ([key value] & Hkv & Hjoin).
  apply join_record_preview in Hjoin as [Hkey Hprev]. eauto.
Qed.

Lemma insert_by_id_filter x l k :
  filter (fun y => ci_id y = k) (insert_by_id x l)
  = filter (fun y => ci_id y = k) (x :: l).
Proof.
  induction l as [|y l IH]; [reflexivity|].
  simpl. destruct (Z.leb_spec (ci_id x) (ci_id y)) as [_|Hlt]; [reflexivity|].
  rewrite (filter_cons _ y), IH, !filter_cons.
  destruct (decide (ci_id y = k)) as [Ey|Ey],
           (decide (ci_id x = k)) as [Ex|Ex]; try reflexivity.
  lia.
Qed.

(** The sort is stable: the items of one id come out in the order in
    which they went in. *)
Theorem sort_by_id_stable (l : list content_item) (k : Z) :
  filter (fun y => ci_id y = k) (sort_by_id l)
  = filter (fun y => ci_id y = k) l.
Proof.
  induction l as [|x l IH]; [reflexivity|].
  simpl. rewrite insert_by_id_filter, !filter_cons, IH. reflexivity.
Qed.

End MoreContentFacts.

(** ** Upsert, then content *)

Section MoreComposition.

Context `{Platform}.

Lemma dict_get_elem k v (d : dict) : dict_get k d = Some v -> (k, v) ∈ d.
Proof.
  induction d as [|[k' v'] d IH]; simpl; [discriminate|].
  destruct (String.eqb_spec k k') as [->|Hk].
  - intros [= ->]. left.
  - intros Hd. right. exact (IH Hd).
Qed.

Lemma dict_set_length k v (d : dict) :
  (length (dict_set k v d) <= S (length d))%nat.
Proof.
  induction d as [|[k' v'] d IH]; simpl; [lia|].
  destruct (String.eqb k k'); simpl; lia.
Qed.

Lemma put_records_length items (records : dict) :
  (length (put_records items records) <= length records + length items)%nat.
Proof.
  revert records. induction items as [|item items IH]; intros records;
    [simpl; lia|].
  rewrite put_records_cons. etransitivity; [apply IH|].
  pose proof (dict_set_length (record_key item) (record_of item) records).
  simpl. lia.
Qed.

Lemma omap_length_le {A B : Type} (f : A -> option B) (l : list A) :
  (length (omap f l) <= length l)%nat.
Proof.
  induction l as [|x l IH]; [reflexivity|].
  cbn [omap list_omap]. destruct (f x); simpl; lia.
Qed.

Lemma slice_all {A : Type} limit (l : list A) :
  (length l <= Z.to_nat limit)%nat -> slice 0 limit l = l.
Proof. intros Hl. unfold slice. simpl. apply take_ge. exact Hl. Qed.

(** Upsert, then content: on a store over [IndexFlat] of well-typed
    records that, with the batch, fits one page, the first page after an
    upsert whose two writes complete and that returns shows every item
    of the batch with its id, text and metadata, and with the first
    [preview_dim] components of the vector stored for it as preview; the
    total it reports is the total the upsert returned.  The page is
    asked for under a [db_path] that names the same file. *)
Theorem upsert_then_content (payload : UpsertRequest)
    (dk dk' : disk) (resp : UpsertResponse) (index : IndexIDMap2)
    (records : dict) (db_path : string) (limit preview_dim : Z) :
  post_upsert io_ok payload dk = (dk', Ok resp) ->
  stored dk = Ok (index, records) ->
  index_base index = IndexFlat ->
  Forall well_typed_record records ->
  _normalize_db_path db_path = _normalize_db_path (upsert_db_path payload) ->
  content_query_errors db_path 0 limit preview_dim = [] ->
  (Z.of_nat (length records + length (upsert_items_field payload)) <= limit)%Z ->
  exists page,
    get_content_route db_path 0 limit preview_dim dk' = Ok page
    /\ content_total page = resp_total resp
    /\ forall item, item ∈ upsert_items_field payload ->
         let row := map to_float32 (item_vector item) in
         let stored_row :=
           match resp_metric resp with
           | cosine => normalize_L2 row
           | _ => row
           end in
         {| view_id := item_id item;
            view_text := item_text item;
            view_metadata := item_metadata item;
            view_embedding_preview :=
              map of_float32 (take (Z.to_nat preview_dim) stored_row) |}
         ∈ content_items page.
Proof.
  intros Hpost Hstored Hflat Hwt Hsame Hq Hfit.
  destruct (post_upsert_ok_stored _ _ _ _ _ Hpost)
    as (db_file_text & index0 & meta & metric & records0 & Hpath & Hstored0 & _
        & Hnd & _ & _ & Hfits & _ & Hdk & Hresp).
  rewrite Hstored in Hstored0. injection Hstored0 as <- <-.
  cbv zeta in Hdk, Hresp. simpl in Hdk.
  assert (Hd : (Z.of_nat (index_d index) <= read_index_max_d)%Z)
    by (eapply stored_d, Hstored).
  set (items := upsert_items_field payload) in *.
  set (ids := map item_id items) in *.
  set (index' := add_with_ids (stored_rows metric items) ids (remove_ids ids index)) in *.
  set (records' := put_records items records) in *.
  set (meta' := staged_meta_of metric (index_d index) records' meta) in *.
  destruct (load_staged_meta index' metric (index_d index) records' meta Hd)
    as [Hload Hst]. fold meta' in Hload, Hst. simpl in Hload, Hst.
  rewrite <- Hdk in Hload, Hst.
  assert (Hwt' : Forall well_typed_record records').
  { apply put_records_well_typed; [exact Hfits | exact Hwt]. }
  destruct (join_records_well_typed index' (Z.to_nat preview_dim) records' Hwt')
    as [_ Hview].
  set (joined := omap (join_record index' (Z.to_nat preview_dim)) records') in *.
  assert (Hlen : (length (sort_by_id joined) <= Z.to_nat limit)%nat).
  { rewrite (Permutation_length (sort_by_id_Permutation joined)).
    unfold joined.
    pose proof (omap_length_le (join_record index' (Z.to_nat preview_dim)) records')
      as Ho.
    pose proof (put_records_length items records) as Hp. fold records' in Hp.
    lia. }
  eexists. split.
  { unfold get_content_route. rewrite Hq. unfold get_content.
    rewrite Hsame, Hpath. simpl.
    rewrite Hdk. cbn [db_file]. rewrite (read_index_held index') by exact Hd.
    simpl. rewrite <- Hdk. rewrite Hload. simpl.
    unfold meta_records. unfold meta' at 1. rewrite staged_meta_records. simpl.
    unfold meta' at 1. unfold staged_meta_of at 1. rewrite meta_metric_set. simpl.
    fold joined. rewrite (slice_all limit _ Hlen).
    rewrite record_views_viewable
      by (rewrite sort_by_id_Permutation; exact Hview).
    simpl. reflexivity. }
  split; [rewrite Hresp; reflexivity|].
  intros item Hitem. simpl.
  assert (Hrec : reconstruct (item_id item) index'
                 = Some (match metric with
                         | cosine => normalize_L2 (map to_float32 (item_vector item))
                         | _ => map to_float32 (item_vector item)
                         end)).
  { unfold index', ids. rewrite reconstruct_item by assumption.
    rewrite Hflat. reflexivity. }
  assert (Hget : dict_get (py_str (item_id item)) records' = Some (record_of item)).
  { assert (Hkeys : NoDup (map record_key items)).
    { unfold record_key. rewrite <- (map_map item_id py_str).
      apply NoDup_fmap_2; [intros ? ?; apply py_str_inj | exact Hnd]. }
    pose proof (put_records_written _ records Hkeys) as Hw.
    rewrite Forall_forall in Hw. exact (Hw item Hitem). }
  rewrite Hresp. simpl.
  apply list_elem_of_fmap.
  assert (Hf : fits_int64 (item_id item) = true).
  { rewrite forallb_forall in Hfits. apply Hfits.
    apply list_elem_of_In, list_elem_of_fmap. eauto. }
  exists {| ci_id := item_id item;
            ci_text := JStr (item_text item);
            ci_metadata := JDict (item_metadata item);
            ci_embedding_preview :=
              map of_float32
                (take (Z.to_nat preview_dim)
                   match metric with
                   | cosine => normalize_L2 (map to_float32 (item_vector item))
                   | _ => map to_float32 (item_vector item)
                   end) |}.
  split; [reflexivity|].
  rewrite sort_by_id_Permutation. unfold joined.
  apply list_elem_of_omap.
  exists (py_str (item_id item), record_of item).
  split; [apply dict_get_elem; exact Hget|].
  unfold join_record. rewrite (py_int_str _ Hf), Hrec. reflexivity.
Qed.

End MoreComposition.

(** ** Creating an index *)

Section MoreCreateFacts.

Context `{Platform}.

Variable path_under : string -> string -> result string.

(** What the path computation raises is an exception of [pathlib], no
    [HTTPException]. *)
Hypothesis path_under_raises :
  forall base_dir name e,
    path_under base_dir name = Err e -> exists exception, e = Uncaught exception.

Lemma not_blank_not_empty s s' : not_blank s = Some s' -> not_empty s = Some s'.
Proof.
  destruct s as [s|]; [|discriminate]. simpl.
  destruct s as [|a s]; [discriminate|].
  destruct (Name.strip Name.isspace (Name.lit (String a s))); [discriminate|].
  intros [= <-]. reflexivity.
Qed.

Lemma not_blank_given s s' : not_blank s = Some s' -> s = Some s'.
Proof.
  destruct s as [s|]; [|discriminate]. simpl.
  destruct (Name.strip Name.isspace (Name.lit s)); [discriminate|].
  intros [= <-]. reflexivity.
Qed.

Lemma CreateIndexRequest_errors_nil payload :
  CreateIndexRequest_errors payload = [] ->
  (0 < create_dimension payload)%Z /\ validate_location payload = true.
Proof.
  unfold CreateIndexRequest_errors.
  destruct (Z.leb_spec (create_dimension payload) 0); [discriminate|].
  destruct (validate_location payload); [auto | discriminate].
Qed.

(** Where the index of a valid request goes.  A path that is given and
    not blank wins over the directory and the name; otherwise the name is
    sanitized and put under the directory.  A valid request never gets
    ["Missing base_dir/db_name"]: what is left to fail is the name, with
    [HTTPException(400, "Invalid db_name")] when it has no letter and no
    digit, and the computation of the path. *)
Theorem resolve_create_db_path_valid (payload : CreateIndexRequest) :
  CreateIndexRequest_errors payload = [] ->
  _resolve_create_db_path path_under payload
    <> Err (HTTPException 400 "Missing base_dir/db_name")
  /\ match not_blank (create_db_path payload) with
     | Some db_path =>
         _resolve_create_db_path path_under payload = _normalize_db_path db_path
     | None =>
         exists base_dir db_name,
           create_base_dir payload = Some base_dir
           /\ create_db_name payload = Some db_name
           /\ match Name._safe_db_name (Name.lit db_name) with
              | Ok safe_name =>
                  _resolve_create_db_path path_under payload
                  = (joined <- path_under base_dir (text_of safe_name) ;;
                     _normalize_db_path joined)
                  /\ filter (fun c => Name.is_alnum c = true) safe_name
                     = filter (fun c => Name.is_alnum c = true) (Name.lit db_name)
              | Err _ =>
                  _resolve_create_db_path path_under payload
                  = Err (HTTPException 400 "Invalid db_name")
                  /\ filter (fun c => Name.is_alnum c = true) (Name.lit db_name)
                     = []
              end
     end.
Proof.
  intros Hv. apply CreateIndexRequest_errors_nil in Hv as [_ Hloc].
  unfold validate_location in Hloc. unfold _resolve_create_db_path.
  destruct (not_blank (create_db_path payload)) as [db_path|].
  { split; [|reflexivity]. intros E.
    apply _normalize_db_path_raises in E as [exception E]. discriminate E. }
  destruct (not_blank (create_base_dir payload)) as [base_dir|] eqn:Hb;
    [|discriminate].
  destruct (not_blank (create_db_name payload)) as [db_name|] eqn:Hn;
    [|discriminate].
  rewrite (not_blank_not_empty _ _ Hb), (not_blank_not_empty _ _ Hn).
  pose proof (NameMore.filter_alnum_sanitized (Name.lit db_name)) as Hal.
  split.
  - unfold Name._safe_db_name.
    destruct (Name.strip Name.is_sep
                (Name.re_sub (Name.strip Name.isspace (Name.lit db_name))))
      as [|c safe]; simpl; [discriminate|].
    destruct (path_under base_dir (text_of (c :: safe))) as [joined|e] eqn:Hj;
      simpl; intros E.
    + apply _normalize_db_path_raises in E as [exception E]. discriminate E.
    + injection E as ->.
      apply path_under_raises in Hj as [exception Hj]. discriminate Hj.
  - exists base_dir, db_name.
    split; [exact (not_blank_given _ _ Hb)|].
    split; [exact (not_blank_given _ _ Hn)|].
    unfold Name._safe_db_name.
    destruct (Name.strip Name.is_sep
                (Name.re_sub (Name.strip Name.isspace (Name.lit db_name))))
      as [|c safe]; simpl.
    + split; [reflexivity|]. rewrite <- Hal. reflexivity.
    + split; [reflexivity | exact Hal].
Qed.

Lemma meta_metric_created dimension metric :
  meta_metric (created_meta dimension metric) = Ok metric.
Proof. destruct metric; reflexivity. Qed.

(** What a [create_index] that completes leaves. *)
Lemma create_index_commits payload dk db_file_text :
  _resolve_create_db_path path_under payload = Ok db_file_text ->
  db_file dk = None \/ create_overwrite payload = true ->
  let dimension := Z.to_nat (create_dimension payload) in
  create_index path_under create_io_ok payload dk
  = ({| db_file :=
          Some (Holds (IDMap2 (_new_index dimension (create_metric payload))));
        meta_file :=
          Some (Holds (JDict (created_meta (create_dimension payload)
                                (create_metric payload)))) |},
     Ok {| info_db_path := db_file_text;
           info_total := 0;
           info_metric := create_metric payload;
           info_dimension := dimension |}).
Proof.
  intros Hres Hfree. unfold create_index. rewrite Hres.
  destruct Hfree as [Hnone|Hover].
  - rewrite Hnone. reflexivity.
  - rewrite Hover. destruct (db_file dk); reflexivity.
Qed.

(** Create, then info: a valid request, of a dimension that
    [faiss.read_index] accepts, for a path that is free, or with
    [overwrite], leaves an empty store.  The index holds no vector and
    the sidecar no record, whatever the files held before, and [get_info]
    under a [db_path] that names the file created reports total 0 with
    the dimension and the metric requested. *)
Theorem create_then_info (payload : CreateIndexRequest) (dk : disk)
    (db_file_text db_path : string) :
  CreateIndexRequest_errors payload = [] ->
  (create_dimension payload < read_index_max_d)%Z ->
  _resolve_create_db_path path_under payload = Ok db_file_text ->
  db_file dk = None \/ create_overwrite payload = true ->
  _normalize_db_path db_path = Ok db_file_text ->
  let dimension := Z.to_nat (create_dimension payload) in
  let dk' := fst (post_create path_under create_io_ok payload dk) in
  snd (post_create path_under create_io_ok payload dk)
    = Ok {| info_db_path := db_file_text;
            info_total := 0;
            info_metric := create_metric payload;
            info_dimension := dimension |}
  /\ stored dk' = Ok (_new_index dimension (create_metric payload), [])
  /\ ids_consistent dk'
  /\ get_info db_path dk'
     = Ok {| info_db_path := db_file_text;
             info_total := 0;
             info_metric := create_metric payload;
             info_dimension := dimension |}.
Proof.
  intros Hv Hd Hres Hfree Hpath dimension dk'.
  subst dk'. unfold post_create. rewrite Hv.
  rewrite (create_index_commits payload dk db_file_text Hres Hfree). simpl.
  apply CreateIndexRequest_errors_nil in Hv as [Hpos _].
  assert (Hread : _read_index
      (Holds (IDMap2 (_new_index (Z.to_nat (create_dimension payload))
                        (create_metric payload))))
    = Ok (_new_index (Z.to_nat (create_dimension payload)) (create_metric payload))).
  { apply read_index_held. simpl. lia. }
  assert (Hst : stored
    {| db_file :=
         Some (Holds (IDMap2 (_new_index (Z.to_nat (create_dimension payload))
                                (create_metric payload))));
       meta_file :=
         Some (Holds (JDict (created_meta (create_dimension payload)
                               (create_metric payload)))) |}
    = Ok (_new_index (Z.to_nat (create_dimension payload)) (create_metric payload), [])).
  { unfold stored. cbn [db_file]. rewrite Hread. reflexivity. }
  split; [reflexivity|]. split; [exact Hst|]. split.
  - eexists _, _. split; [exact Hst | reflexivity].
  - unfold get_info. rewrite Hpath. cbn [bind db_file]. rewrite Hread.
    simpl. destruct (create_metric payload); reflexivity.
Qed.

(** Without [overwrite], an index file that exists is never touched: the
    request fails, with
    [HTTPException(400, "Index already exists.")] when it is valid and
    its path resolves, and the two files stay as they are, however the
    file system would behave. *)
Theorem create_refuses_existing (env : create_io) (payload : CreateIndexRequest)
    (dk : disk) (f : file faiss_index) :
  db_file dk = Some f ->
  create_overwrite payload = false ->
  exists e,
    post_create path_under env payload dk = (dk, Err e)
    /\ (CreateIndexRequest_errors payload = [] ->
        is_ok (_resolve_create_db_path path_under payload) = true ->
        e = HTTPException 400 "Index already exists.").
Proof.
  intros Hf Hover. unfold post_create, create_index.
  destruct (CreateIndexRequest_errors payload) as [|err errs].
  - destruct (_resolve_create_db_path path_under payload) as [p|e].
    + rewrite Hf, Hover. eexists. split; [reflexivity | auto].
    + eexists. split; [reflexivity|]. discriminate.
  - eexists. split; [reflexivity|]. discriminate.
Qed.

(** A create that fails while both writes would complete has written
    nothing. *)
Theorem failed_create_writes_nothing (env : create_io)
    (payload : CreateIndexRequest) (dk dk' : disk) (e : error) :
  create_index_write env = Written ->
  create_meta_write env = Written ->
  post_create path_under env payload dk = (dk', Err e) ->
  dk' = dk.
Proof.
  intros Hi Hm. unfold post_create, create_index, _save_meta.
  destruct (CreateIndexRequest_errors payload); [|congruence].
  destruct (_resolve_create_db_path path_under payload); [|congruence].
  rewrite Hi, Hm.
  destruct (db_file dk), (create_overwrite payload), (mkdir_raises env);
    simpl; congruence.
Qed.

(** Create, then upsert: into a store just created, with a dimension
    that [faiss.read_index] accepts, a valid batch for the file created,
    whose vectors have the dimension requested and whose ids are 64-bit
    integers, goes in whole.  The upsert returns the size of the batch
    as total, with the dimension and the metric of the create. *)
Theorem create_then_upsert (create : CreateIndexRequest) (dk : disk)
    (db_file_text : string) (payload : UpsertRequest) :
  CreateIndexRequest_errors create = [] ->
  (create_dimension create < read_index_max_d)%Z ->
  _resolve_create_db_path path_under create = Ok db_file_text ->
  db_file dk = None \/ create_overwrite create = true ->
  UpsertRequest_errors payload = [] ->
  _normalize_db_path (upsert_db_path payload) = Ok db_file_text ->
  Forall (fun item =>
            Z.of_nat (length (item_vector item)) = create_dimension create)
    (upsert_items_field payload) ->
  forallb fits_int64 (map item_id (upsert_items_field payload)) = true ->
  let dk' := fst (post_create path_under create_io_ok create dk) in
  snd (post_upsert io_ok payload dk')
  = Ok {| resp_db_path := db_file_text;
          resp_upserted := length (upsert_items_field payload);
          resp_total := length (upsert_items_field payload);
          resp_dimension := Z.to_nat (create_dimension create);
          resp_metric := create_metric create |}.
Proof.
  intros Hv Hd Hres Hfree Hu Hpath Hall Hfit dk'. subst dk'.
  unfold post_create. rewrite Hv.
  rewrite (create_index_commits create dk db_file_text Hres Hfree). simpl.
  apply CreateIndexRequest_errors_nil in Hv as [Hpos _].
  unfold post_upsert. rewrite Hu.
  assert (Hne : upsert_items_field payload <> []).
  { unfold UpsertRequest_errors in Hu. apply app_eq_nil in Hu as [_ Hu].
    destruct (upsert_items_field payload); [discriminate Hu | discriminate]. }
  erewrite upsert_items_commits.
  2:{ eapply (upsert_stage_run payload _ db_file_text _
                (_new_index (Z.to_nat (create_dimension create)) (create_metric create))
                (created_meta (create_dimension create) (create_metric create))
                (create_metric create) []).
      - exact Hne.
      - exact Hpath.
      - reflexivity.
      - apply read_index_held. simpl. lia.
      - reflexivity.
      - apply meta_metric_created.
      - reflexivity.
      - eapply Forall_impl; [exact Hall|]. simpl. intros item Hitem. lia.
      - exact Hfit.
      - reflexivity. }
  simpl. f_equal. f_equal.
  unfold ntotal. rewrite upsert_entries. simpl.
  rewrite length_zip_with, stored_rows_length, length_map. lia.
Qed.

End MoreCreateFacts.

(** ** The window between the two writes *)

Section MoreWindowFacts.

Context `{Platform}.

(** The two writes are not one: when the index write completes and the
    sidecar write then fails before its file is opened, an upsert that
    brings an id the index did not hold leaves the index with the id and
    the sidecar without its record.  The request fails, and the ids of the
    two stores, equal before, differ after. *)
Theorem sidecar_failure_breaks_consistency (payload : UpsertRequest)
    (dk dk1 : disk) (resp : UpsertResponse) (index : IndexIDMap2)
    (records : dict) :
  post_upsert io_ok payload dk = (dk1, Ok resp) ->
  stored dk = Ok (index, records) ->
  ids_consistent dk ->
  Exists (fun item => item_id item ∉ index_ids index)
    (upsert_items_field payload) ->
  let env := {| index_write := Written; meta_write := RaisesBeforeOpen |} in
  snd (post_upsert env payload dk) = Err (Uncaught "OSError")
  /\ meta_file (fst (post_upsert env payload dk)) = meta_file dk
  /\ ~ ids_consistent (fst (post_upsert env payload dk)).
Proof.
  intros Hpost Hstored (index0 & records0 & Hstored0 & Hsame) Hnew env.
  rewrite Hstored in Hstored0. injection Hstored0 as <- <-.
  apply post_upsert_ok in Hpost as [Herrs Hup].
  apply upsert_items_ok in Hup as (st & Hst & _).
  destruct (stored_ok _ _ _ Hstored) as (f & meta0 & Hf & Hindex & Hmeta & Hrecords).
  destruct (upsert_stage_ok _ _ _ Hst)
    as (db_file_text & f' & index0 & meta & metric & records0 & _ & Hf' & Hindex'
        & _ & _ & _ & _ & _ & _ & Hsi & _).
  rewrite Hf in Hf'. injection Hf' as <-.
  rewrite Hindex in Hindex'. injection Hindex' as <-.
  symmetry in Hsi.
  unfold post_upsert. rewrite Herrs. unfold upsert_items. rewrite Hst.
  simpl. split; [reflexivity|]. split; [reflexivity|].
  intros (index' & records' & Hstored' & Hsame').
  assert (Hst' : stored {| db_file := Some (Holds (IDMap2 (staged_index st)));
                           meta_file := meta_file dk |}
                 = Ok (staged_index st, records)).
  { unfold stored. cbn [db_file]. rewrite read_index_held
      by (rewrite <- Hsi; simpl; eapply stored_d, Hstored).
    simpl.
    assert (Hload : _load_meta {| db_file := Some (Holds (IDMap2 (staged_index st)));
                                  meta_file := meta_file dk |} = Ok meta0)
      by exact Hmeta.
    rewrite Hload. simpl. rewrite Hrecords. reflexivity. }
  rewrite Hst' in Hstored'. injection Hstored' as <- <-.
  apply Exists_exists in Hnew as (item & Hitem & Hout).
  assert (Hin : py_str (item_id item)
                ∈ (list_to_set (map py_str (index_ids (staged_index st)))
                   : gset string)).
  { apply elem_of_list_to_set, list_elem_of_fmap.
    exists (item_id item). split; [reflexivity|].
    rewrite <- Hsi. apply upsert_index_ids.
    - rewrite stored_rows_length, length_map. lia.
    - right. apply list_elem_of_fmap. eauto. }
  rewrite Hsame', <- Hsame in Hin.
  apply elem_of_list_to_set, list_elem_of_fmap in Hin as (x & E & Hx).
  apply py_str_inj in E. subst x. exact (Hout Hx).
Qed.

End MoreWindowFacts.

(** ** Listing the indexes *)

Section MoreListFacts.

Lemma ascii_compare_trans a b c :
  Ascii.compare a b <> Gt -> Ascii.compare b c <> Gt -> Ascii.compare a c <> Gt.
Proof.
  unfold Ascii.compare. rewrite !N.compare_le_iff. lia.
Qed.

Lemma ascii_compare_eq a b : Ascii.compare a b = Eq -> a = b.
Proof. apply Ascii.compare_eq_iff. Qed.

Lemma ascii_compare_lt_trans a b c :
  Ascii.compare a b = Lt -> Ascii.compare b c = Lt -> Ascii.compare a c = Lt.
Proof.
  unfold Ascii.compare. rewrite !N.compare_lt_iff. lia.
Qed.

Lemma string_compare_trans s1 :
  forall s2 s3,
    String.compare s1 s2 <> Gt -> String.compare s2 s3 <> Gt ->
    String.compare s1 s3 <> Gt.
Proof.
  induction s1 as [|a s1 IH]; intros s2 s3 H12 H23.
  - destruct s3; simpl; discriminate.
  - destruct s2 as [|b s2]; [simpl in H12; congruence|].
    destruct s3 as [|c s3]; [simpl in H23; congruence|].
    simpl in *.
    destruct (Ascii.compare a b) eqn:Eab; try congruence;
      destruct (Ascii.compare b c) eqn:Ebc; try congruence.
    + apply ascii_compare_eq in Eab, Ebc. subst.
      unfold Ascii.compare at 1. rewrite N.compare_refl. eauto.
    + apply ascii_compare_eq in Eab. subst. rewrite Ebc. discriminate.
    + apply ascii_compare_eq in Ebc. subst. rewrite Eab. discriminate.
    + rewrite (ascii_compare_lt_trans _ _ _ Eab Ebc). discriminate.
Qed.

Lemma string_leb_trans s1 s2 s3 :
  String.leb s1 s2 = true -> String.leb s2 s3 = true -> String.leb s1 s3 = true.
Proof.
  unfold String.leb. intros H12 H23.
  pose proof (string_compare_trans s1 s2 s3) as Ht.
  destruct (String.compare s1 s2); try discriminate;
    destruct (String.compare s2 s3); try discriminate;
    destruct (String.compare s1 s3); try reflexivity;
    exfalso; apply Ht; congruence.
Qed.

Definition text_le (x y : globbed_path) : Prop :=
  String.leb (path_text x) (path_text y) = true.

Lemma insert_by_text_Permutation x l : Permutation (insert_by_text x l) (x :: l).
Proof.
  induction l as [|y l IH]; simpl; [reflexivity|].
  destruct (String.leb (path_text x) (path_text y)); [reflexivity|].
  rewrite IH. apply perm_swap.
Qed.

Lemma sort_by_text_Permutation l : Permutation (sort_by_text l) l.
Proof.
  induction l as [|x l IH]; simpl; [reflexivity|].
  rewrite insert_by_text_Permutation, IH. reflexivity.
Qed.

Lemma insert_by_text_sorted x l :
  StronglySorted text_le l -> StronglySorted text_le (insert_by_text x l).
Proof.
  induction l as [|y l IH]; simpl; intros Hs.
  - repeat constructor.
  - inversion Hs as [|? ? Hs' Hall]; subst.
    destruct (String.leb (path_text x) (path_text y)) eqn:E.
    + constructor; [exact Hs|]. constructor; [exact E|].
      eapply Forall_impl; [exact Hall|]. simpl. intros z Hz.
      unfold text_le in *. eapply string_leb_trans; eassumption.
    + constructor; [apply IH; exact Hs'|].
      rewrite insert_by_text_Permutation. constructor; [|exact Hall].
      unfold text_le.
      destruct (String.leb_total (path_text x) (path_text y)) as [Hle|Hle];
        [congruence | exact Hle].
Qed.

Lemma sort_by_text_sorted l : StronglySorted text_le (sort_by_text l).
Proof.
  induction l as [|x l IH]; simpl; [constructor|].
  apply insert_by_text_sorted, IH.
Qed.

Lemma filter_strongly_sorted {A : Type} (R : A -> A -> Prop) (P : A -> Prop)
    `{forall x, Decision (P x)} (l : list A) :
  StronglySorted R l -> StronglySorted R (filter P l).
Proof.
  induction 1 as [|x l Hs IH Hall]; [constructor|].
  rewrite filter_cons. destruct (decide (P x)); [|exact IH].
  constructor; [exact IH|].
  apply Forall_forall. intros y Hy.
  apply list_elem_of_filter in Hy as [_ Hy].
  rewrite Forall_forall in Hall. exact (Hall y Hy).
Qed.

(** The listing is complete, free of non-files and in a fixed order:
    where the root is a directory, the entries returned are those of the
    globbed paths that are files, one for each, in ascending order of the
    path, each with the stem of its path as name; a root that is missing
    or no directory gives [HTTPException(404, "base_dir not found")]. *)
Theorem list_indexes_sorted_files (root_text : string)
    (root_exists root_is_dir : bool) (glob : string -> list globbed_path)
    (recursive : bool) :
  let pattern := if recursive then "**/*.faiss" else "*.faiss" in
  match list_indexes root_text root_exists root_is_dir glob recursive with
  | Err e =>
      e = HTTPException 404 "base_dir not found"
      /\ (root_exists = false \/ root_is_dir = false)
  | Ok resp =>
      root_exists = true /\ root_is_dir = true
      /\ list_base_dir resp = root_text
      /\ exists files,
           list_indexes_field resp = map index_entry files
           /\ Permutation files
                (filter (fun path => path_is_file path = true) (glob pattern))
           /\ StronglySorted text_le files
  end.
Proof.
  intros pattern. unfold list_indexes. fold pattern.
  destruct root_exists, root_is_dir; simpl; auto.
  split; [reflexivity|]. split; [reflexivity|]. split; [reflexivity|].
  eexists. split; [reflexivity|]. split.
  - rewrite sort_by_text_Permutation. reflexivity.
  - apply filter_strongly_sorted, sort_by_text_sorted.
Qed.

End MoreListFacts.

(** ** An index without its sidecar *)

Section MoreSidecarFacts.

Context `{Platform}.

(** An index file without its sidecar, whose index takes updates, is
    upserted into as a cosine index, whatever metric it was created with:
    the rows are normalized, and the sidecar written holds the records of
    the batch only, the metric ["cosine"] and the dimension of the
    index. *)
Theorem upsert_without_sidecar (payload : UpsertRequest) (dk : disk)
    (db_file_text : string) (f : file faiss_index) (index : IndexIDMap2) :
  _normalize_db_path (upsert_db_path payload) = Ok db_file_text ->
  db_file dk = Some f ->
  _read_index f = Ok index ->
  base_updates (index_base index) = true ->
  meta_file dk = None ->
  UpsertRequest_errors payload = [] ->
  Forall (fun item => length (item_vector item) = index_d index)
    (upsert_items_field payload) ->
  forallb fits_int64 (map item_id (upsert_items_field payload)) = true ->
  let items := upsert_items_field payload in
  let ids := map item_id items in
  let rows := map normalize_L2 (map (map to_float32) (map item_vector items)) in
  post_upsert io_ok payload dk
  = ({| db_file :=
          Some (Holds (IDMap2 (add_with_ids rows ids (remove_ids ids index))));
        meta_file :=
          Some (Holds (JDict
            [("records", JDict (put_records items []));
             ("dimension", JInt (Z.of_nat (index_d index)));
             ("metric", JStr "cosine")])) |},
     Ok {| resp_db_path := db_file_text;
           resp_upserted := length items;
           resp_total :=
             (length (filter (fun id => id ∉ ids) (index_ids index))
              + length items)%nat;
           resp_dimension := index_d index;
           resp_metric := cosine |}).
Proof.
  intros Hpath Hf Hindex Hbase Hnone Herrs Hall Hfit items ids rows.
  assert (Hmeta : _load_meta dk = Ok default_meta)
    by (unfold _load_meta; rewrite Hnone; reflexivity).
  assert (Hne : upsert_items_field payload <> []).
  { unfold UpsertRequest_errors in Herrs. apply app_eq_nil in Herrs as [_ Herrs].
    destruct (upsert_items_field payload); [discriminate Herrs | discriminate]. }
  unfold post_upsert. rewrite Herrs.
  rewrite (upsert_items_commits payload dk _
             (upsert_stage_run payload dk db_file_text f index default_meta
                cosine [] Hne Hpath Hf Hindex Hmeta eq_refl eq_refl Hall Hfit
                Hbase)).
  apply pair_equal_spec. split; [reflexivity|].
  f_equal. cbn [staged_response]. f_equal.
  change (ntotal (add_with_ids (stored_rows cosine items) ids
                    (remove_ids ids index))
          = (length (filter (fun id => id ∉ ids) (index_ids index))
             + length items)%nat).
  unfold ntotal.
  rewrite <- (length_map fst (index_entries _)).
  change (map fst (index_entries ?i)) with (index_ids i).
  rewrite upsert_index_ids_list
    by (rewrite stored_rows_length; unfold ids; rewrite length_map; lia).
  rewrite length_app. unfold ids. rewrite length_map. reflexivity.
Qed.

End MoreSidecarFacts.

(** * The further properties at the scenarios *)

Module RunMore.

Import Scenario Fixtures.

#[local] Existing Instance test_platform.

Lemma safe_db_name_unchanged_witness :
  Name.lit "my-db.v2" <> []
  /\ Forall (fun c => Name.allowed c = true) (Name.lit "my-db.v2")
  /\ Name._safe_db_name (Name.lit "my-db.v2") = Ok (Name.lit "my-db.v2").
Proof.
  assert (Hne : Name.lit "my-db.v2" <> []) by discriminate.
  assert (Hall : Forall (fun c => Name.allowed c = true) (Name.lit "my-db.v2"))
    by (repeat constructor).
  split; [exact Hne|]. split; [exact Hall|].
  apply (NameMore.safe_db_name_unchanged (Name.lit "my-db.v2") Hne Hall).
  - intros c [= <-]. reflexivity.
  - intros c [= <-]. reflexivity.
Defined.

Lemma safe_db_name_idempotent_witness :
  Name._safe_db_name (Name.lit "  my db!.faiss_ ") = Ok (Name.lit "my-db-.faiss")
  /\ Name._safe_db_name (Name.lit "my-db-.faiss") = Ok (Name.lit "my-db-.faiss").
Proof.
  split; [reflexivity|].
  exact (NameMore.safe_db_name_idempotent (Name.lit "  my db!.faiss_ ")
           (Name.lit "my-db-.faiss") eq_refl).
Defined.

Lemma load_meta_has_records_witness :
  _load_meta odd_sidecar = Ok [("records", JDict []); ("dimension", JInt 4)]
  /\ exists records,
       dict_get "records" [("records", JDict []); ("dimension", JInt 4)]
       = Some (JDict records)
       /\ meta_records [("records", JDict []); ("dimension", JInt 4)]
          = Ok records.
Proof.
  split; [reflexivity|].
  exact (load_meta_has_records odd_sidecar _ eq_refl).
Defined.

Lemma upsert_never_creates_witness :
  db_file absent = None
  /\ exists e,
       post_upsert io_ok one absent = (absent, Err e)
       /\ (UpsertRequest_errors one = [] ->
           e = HTTPException 404 "Index file not found. Create the index first.").
Proof.
  split; [reflexivity|].
  exact (upsert_never_creates io_ok one absent eq_refl).
Defined.

Lemma failed_upsert_writes_nothing_witness :
  index_write io_ok = Written
  /\ meta_write io_ok = Written
  /\ post_upsert io_ok short created
     = (created,
        Err (HTTPException 400 "Vector dimension mismatch. Expected 4, got 3."))
  /\ created = created.
Proof.
  split; [reflexivity|]. split; [reflexivity|]. split; [reflexivity|].
  exact (failed_upsert_writes_nothing io_ok short created created _
           eq_refl eq_refl eq_refl).
Defined.

Lemma upsert_total_new_ids_witness :
  post_upsert io_ok one created = (after_one, Ok one_response)
  /\ stored created = Ok (_new_index 4 cosine, [])
  /\ Forall (fun item => item_id item ∉ index_ids (_new_index 4 cosine))
       (upsert_items_field one)
  /\ resp_total one_response
     = (ntotal (_new_index 4 cosine) + length (upsert_items_field one))%nat.
Proof.
  assert (Hnew : Forall (fun item => item_id item ∉ index_ids (_new_index 4 cosine))
                   (upsert_items_field one)).
  { repeat constructor. apply not_elem_of_nil. }
  split; [reflexivity|]. split; [reflexivity|]. split; [exact Hnew|].
  exact (upsert_total_new_ids io_ok one created after_one one_response
           (_new_index 4 cosine) [] eq_refl eq_refl Hnew).
Defined.

Lemma three_ids_distinct : NoDup (index_ids three_index).
Proof. apply (bool_decide_unpack _). vm_compute. exact I. Defined.

Lemma three_keys_distinct : NoDup (dict_keys three_records).
Proof. apply (bool_decide_unpack _). vm_compute. exact I. Defined.

Lemma five_is_stored :
  Forall (fun item => item_id item ∈ index_ids three_index)
    (upsert_items_field five_again).
Proof. apply (bool_decide_unpack _). vm_compute. exact I. Defined.

Lemma upsert_total_replace_witness :
  post_upsert io_ok five_again after_three
    = (after_five_again, Ok five_again_response)
  /\ stored after_three = Ok (three_index, three_records)
  /\ NoDup (index_ids three_index)
  /\ Forall (fun item => item_id item ∈ index_ids three_index)
       (upsert_items_field five_again)
  /\ resp_total five_again_response = ntotal three_index.
Proof.
  split; [reflexivity|]. split; [reflexivity|].
  split; [exact three_ids_distinct|]. split; [exact five_is_stored|].
  exact (upsert_total_replace io_ok five_again after_three after_five_again
           five_again_response three_index three_records eq_refl eq_refl
           three_ids_distinct five_is_stored).
Defined.

Lemma upsert_keeps_ids_distinct_witness :
  post_upsert io_ok five_again after_three
    = (after_five_again, Ok five_again_response)
  /\ stored after_three = Ok (three_index, three_records)
  /\ NoDup (index_ids three_index)
  /\ NoDup (dict_keys three_records)
  /\ exists index' records',
       stored after_five_again = Ok (index', records')
       /\ NoDup (index_ids index')
       /\ NoDup (dict_keys records').
Proof.
  split; [reflexivity|]. split; [reflexivity|].
  split; [exact three_ids_distinct|]. split; [exact three_keys_distinct|].
  exact (upsert_keeps_ids_distinct five_again after_three after_five_again
           five_again_response three_index three_records eq_refl eq_refl
           three_ids_distinct three_keys_distinct).
Defined.

Lemma upsert_keeps_dimension_witness :
  (forall row : list Z, length (normalize_L2 row) = length row)
  /\ post_upsert io_ok one created = (after_one, Ok one_response)
  /\ stored created = Ok (_new_index 4 cosine, [])
  /\ exists index' records',
       stored after_one = Ok (index', records')
       /\ index_d index' = index_d (_new_index 4 cosine)
       /\ index_metric_type index' = index_metric_type (_new_index 4 cosine)
       /\ resp_dimension one_response = index_d (_new_index 4 cosine)
       /\ Forall (fun e => length (snd e) = index_d index') (index_entries index').
Proof.
  split; [intros row; reflexivity|]. split; [reflexivity|].
  split; [reflexivity|].
  apply (upsert_keeps_dimension one created after_one one_response
           (_new_index 4 cosine) []).
  - intros row. reflexivity.
  - reflexivity.
  - reflexivity.
  - constructor.
Defined.

Lemma upsert_then_lookup_witness :
  post_upsert io_ok one created = (after_one, Ok one_response)
  /\ stored created = Ok (_new_index 4 cosine, [])
  /\ index_base (_new_index 4 cosine) = IndexFlat
  /\ exists index' records',
       stored after_one = Ok (index', records')
       /\ forall item, item ∈ upsert_items_field one ->
            let row := map to_float32 (item_vector item) in
            reconstruct (item_id item) index'
            = Some (match resp_metric one_response with
                    | cosine => normalize_L2 row
                    | _ => row
                    end)
            /\ dict_get (py_str (item_id item)) records' = Some (record_of item).
Proof.
  split; [reflexivity|]. split; [reflexivity|]. split; [reflexivity|].
  exact (upsert_then_lookup one created after_one one_response
           (_new_index 4 cosine) [] eq_refl eq_refl eq_refl).
Defined.

Lemma upsert_then_info_witness :
  post_upsert io_ok one created = (after_one, Ok one_response)
  /\ _normalize_db_path "/data/sub/../idx" = _normalize_db_path (upsert_db_path one)
  /\ get_info "/data/sub/../idx" after_one
     = Ok {| info_db_path := "/data/idx.faiss"; info_total := 1;
             info_metric := cosine; info_dimension := 4 |}.
Proof.
  split; [reflexivity|]. split; [reflexivity|].
  exact (upsert_then_info one created after_one one_response
           "/data/sub/../idx" eq_refl eq_refl).
Defined.

Lemma upsert_sidecar_fields_witness :
  post_upsert io_ok one created = (after_one, Ok one_response)
  /\ exists meta meta',
       _load_meta created = Ok meta
       /\ _load_meta after_one = Ok meta'
       /\ dict_get "dimension" meta' = Some (JInt 4)
       /\ dict_get "metric" meta' = Some (JStr "cosine")
       /\ forall k, k <> "records" -> k <> "dimension" -> k <> "metric" ->
            dict_get k meta' = dict_get k meta.
Proof.
  split; [reflexivity|].
  exact (upsert_sidecar_fields io_ok one created after_one one_response eq_refl).
Defined.

Lemma upsert_then_content_witness :
  post_upsert io_ok one created = (after_one, Ok one_response)
  /\ stored created = Ok (_new_index 4 cosine, [])
  /\ index_base (_new_index 4 cosine) = IndexFlat
  /\ _normalize_db_path "/data/idx.faiss" = _normalize_db_path (upsert_db_path one)
  /\ content_query_errors "/data/idx.faiss" 0 10 8 = []
  /\ exists page,
       get_content_route "/data/idx.faiss" 0 10 8 after_one = Ok page
       /\ content_total page = 1%nat
       /\ forall item, item ∈ upsert_items_field one ->
            {| view_id := item_id item;
               view_text := item_text item;
               view_metadata := item_metadata item;
               view_embedding_preview :=
                 map of_float32
                   (take (Z.to_nat 8)
                      (normalize_L2 (map to_float32 (item_vector item)))) |}
            ∈ content_items page.
Proof.
  split; [reflexivity|]. split; [reflexivity|]. split; [reflexivity|].
  split; [reflexivity|]. split; [reflexivity|].
  apply (upsert_then_content one created after_one one_response
           (_new_index 4 cosine) [] "/data/idx.faiss" 10 8 eq_refl eq_refl
           eq_refl).
  - constructor.
  - reflexivity.
  - reflexivity.
  - simpl. lia.
Defined.

Lemma content_page_bounded_witness :
  get_content_route "/data/idx.faiss" 0 2 8 after_three = Ok first_page
  /\ (Z.of_nat (length (content_items first_page)) <= 2 <= 500)%Z
  /\ Forall
       (fun v => (Z.of_nat (length (view_embedding_preview v)) <= 8 <= 64)%Z)
       (content_items first_page).
Proof.
  split; [reflexivity|].
  exact (content_page_bounded "/data/idx.faiss" 0 2 8 after_three first_page eq_refl).
Defined.

Lemma content_items_from_records_witness :
  get_content "/data/idx.faiss" 0 2 8 after_three = Ok first_page
  /\ exists index records,
       stored after_three = Ok (index, records)
       /\ Forall
            (fun v =>
               (exists key value,
                  (key, value) ∈ records /\ py_int key = Some (view_id v))
               /\ view_embedding_preview v
                  = match reconstruct (view_id v) index with
                    | Some vector => map of_float32 (take (Z.to_nat 8) vector)
                    | None => []
                    end)
            (content_items first_page).
Proof.
  split; [reflexivity|].
  exact (content_items_from_records "/data/idx.faiss" 0 2 8 after_three first_page
           eq_refl).
Defined.

Lemma resolve_create_db_path_valid_witness :
  CreateIndexRequest_errors by_name = []
  /\ _resolve_create_db_path under by_name = Ok "/data/my-db.faiss"
  /\ _resolve_create_db_path under by_name
     <> Err (HTTPException 400 "Missing base_dir/db_name")
  /\ exists base_dir db_name,
       create_base_dir by_name = Some base_dir
       /\ create_db_name by_name = Some db_name
       /\ match Name._safe_db_name (Name.lit db_name) with
          | Ok safe_name =>
              _resolve_create_db_path under by_name
              = (joined <- under base_dir (text_of safe_name) ;;
                 _normalize_db_path joined)
              /\ filter (fun c => Name.is_alnum c = true) safe_name
                 = filter (fun c => Name.is_alnum c = true) (Name.lit db_name)
          | Err _ =>
              _resolve_create_db_path under by_name
              = Err (HTTPException 400 "Invalid db_name")
              /\ filter (fun c => Name.is_alnum c = true) (Name.lit db_name) = []
          end.
Proof.
  split; [reflexivity|]. split; [reflexivity|].
  exact (resolve_create_db_path_valid under Host.path_under_raises by_name eq_refl).
Defined.

Lemma create_then_info_witness :
  CreateIndexRequest_errors by_name = []
  /\ (create_dimension by_name < read_index_max_d)%Z
  /\ _resolve_create_db_path under by_name = Ok "/data/my-db.faiss"
  /\ _normalize_db_path "/data/my-db" = Ok "/data/my-db.faiss"
  /\ snd (post_create under create_io_ok by_name absent) = Ok by_name_info
  /\ fst (post_create under create_io_ok by_name absent) = created
  /\ stored created = Ok (_new_index 4 cosine, [])
  /\ ids_consistent created
  /\ get_info "/data/my-db" created = Ok by_name_info.
Proof.
  split; [reflexivity|]. split; [reflexivity|]. split; [reflexivity|].
  split; [reflexivity|].
  pose proof (create_then_info under by_name absent "/data/my-db.faiss"
                "/data/my-db" eq_refl eq_refl eq_refl (or_introl eq_refl) eq_refl)
    as (H1 & H2 & H3 & H4).
  split; [exact H1|]. split; [reflexivity|].
  split; [exact H2|]. split; [exact H3 | exact H4].
Defined.

Lemma create_refuses_existing_witness :
  db_file created = Some (Holds (IDMap2 (_new_index 4 cosine)))
  /\ create_overwrite by_name = false
  /\ exists e,
       post_create under create_io_ok by_name created = (created, Err e)
       /\ (CreateIndexRequest_errors by_name = [] ->
           is_ok (_resolve_create_db_path under by_name) = true ->
           e = HTTPException 400 "Index already exists.").
Proof.
  split; [reflexivity|]. split; [reflexivity|].
  exact (create_refuses_existing under create_io_ok by_name created _
           eq_refl eq_refl).
Defined.

Lemma failed_create_writes_nothing_witness :
  create_index_write raising_mkdir = Written
  /\ create_meta_write raising_mkdir = Written
  /\ post_create under raising_mkdir by_name absent
     = (absent, Err (Uncaught "OSError"))
  /\ absent = absent.
Proof.
  split; [reflexivity|]. split; [reflexivity|]. split; [reflexivity|].
  exact (failed_create_writes_nothing under raising_mkdir by_name absent absent _
           eq_refl eq_refl eq_refl).
Defined.

Lemma create_then_upsert_witness :
  CreateIndexRequest_errors by_name = []
  /\ (create_dimension by_name < read_index_max_d)%Z
  /\ _resolve_create_db_path under by_name = Ok "/data/my-db.faiss"
  /\ UpsertRequest_errors three_by_name = []
  /\ _normalize_db_path (upsert_db_path three_by_name) = Ok "/data/my-db.faiss"
  /\ snd (post_upsert io_ok three_by_name
            (fst (post_create under create_io_ok by_name absent)))
     = Ok {| resp_db_path := "/data/my-db.faiss"; resp_upserted := 3;
             resp_total := 3; resp_dimension := 4; resp_metric := cosine |}.
Proof.
  split; [reflexivity|]. split; [reflexivity|]. split; [reflexivity|].
  split; [reflexivity|]. split; [reflexivity|].
  apply (create_then_upsert under by_name absent "/data/my-db.faiss" three_by_name
           eq_refl eq_refl eq_refl (or_introl eq_refl) eq_refl eq_refl).
  - repeat constructor.
  - reflexivity.
Defined.

Lemma sidecar_failure_breaks_consistency_witness :
  let env := {| index_write := Written; meta_write := RaisesBeforeOpen |} in
  post_upsert io_ok one created = (after_one, Ok one_response)
  /\ stored created = Ok (_new_index 4 cosine, [])
  /\ ids_consistent created
  /\ snd (post_upsert env one created) = Err (Uncaught "OSError")
  /\ meta_file (fst (post_upsert env one created)) = meta_file created
  /\ ~ ids_consistent (fst (post_upsert env one created)).
Proof.
  intros env.
  split; [reflexivity|]. split; [reflexivity|].
  split; [exact Run.created_consistent|].
  apply (sidecar_failure_breaks_consistency one created after_one one_response
           (_new_index 4 cosine) [] eq_refl eq_refl Run.created_consistent).
  apply Exists_cons_hd. apply not_elem_of_nil.
Defined.

Lemma list_indexes_found :
  list_indexes "/data" true true found false = Ok found_listing.
Proof. reflexivity. Qed.

Lemma upsert_without_sidecar_witness :
  _normalize_db_path (upsert_db_path one) = Ok "/data/idx.faiss"
  /\ db_file no_sidecar = Some (Holds (IDMap2 (_new_index 4 l2)))
  /\ base_updates (index_base (_new_index 4 l2)) = true
  /\ meta_file no_sidecar = None
  /\ UpsertRequest_errors one = []
  /\ post_upsert io_ok one no_sidecar
     = ({| db_file :=
             Some (Holds (IDMap2
               {| index_d := 4; index_metric_type := METRIC_L2;
                  index_base := IndexFlat;
                  index_entries := [(1, [1; 0; 0; 0])] |}));
           meta_file :=
             Some (Holds (JDict
               [("records", JDict [("1", record "a")]);
                ("dimension", JInt 4);
                ("metric", JStr "cosine")])) |},
        Ok one_response).
Proof.
  split; [reflexivity|]. split; [reflexivity|]. split; [reflexivity|].
  split; [reflexivity|]. split; [reflexivity|].
  apply (upsert_without_sidecar one no_sidecar "/data/idx.faiss"
           (Holds (IDMap2 (_new_index 4 l2))) (_new_index 4 l2)
           eq_refl eq_refl eq_refl eq_refl eq_refl eq_refl).
  - repeat constructor.
  - reflexivity.
Defined.

End RunMore.
